(** * rexglue-sdk: PPC-to-host translator helpers and guest thread core

    A shallow embedding of
    - [src/codegen/builders/helpers.h] (rotate masks, CR bit helpers,
      MMIO detection, bounds-checked branches),
    - [src/codegen/builders/logical.cpp], [control_flow.cpp], [memory.cpp]
      (the builders the properties below talk about),
    - [src/codegen/instruction_dispatch.cpp] (DispatchInstruction),
    - [src/codegen/recompiler.cpp] (register names, the mtctr scan before
      an unbound bctr),
    - [src/kernel/xthread.cpp] (constructor, stack, TLS block and slots,
      priority, processor number, Delay),
    - [include/rex/time/chrono.h] (file time and system time),
    - [src/core/string.cpp] (trimming).

    Fixed-width integers are [Z] with the wrap-around written out; the
    emitter's output buffer is a [string]; the dispatch table and the sets
    of promoted registers are stdpp finite maps and sets. *)

From Stdlib Require Import ZArith String Ascii List Lia Bool.
From Stdlib Require Import DecimalString HexadecimalString.
From stdpp Require Import base gmap strings list.

Local Open Scope Z_scope.

(* ================================================================== *)
(** ** Fixed-width integers *)
(* ================================================================== *)

Module Int.

Definition UINT32_MOD : Z := 2 ^ 32.
Definition UINT64_MOD : Z := 2 ^ 64.
Definition UINT64_MAX : Z := Z.ones 64.

(** [static_cast<uint32_t>] / [static_cast<uint64_t>] of a mathematical
    integer. *)
Definition u32 (z : Z) : Z := z mod UINT32_MOD.
Definition u64 (z : Z) : Z := z mod UINT64_MOD.

(** [static_cast<int32_t>] / [int64_t] of an unsigned value. *)
Definition s32 (z : Z) : Z :=
  let w := u32 z in if w <? 2 ^ 31 then w else w - UINT32_MOD.
Definition s64 (z : Z) : Z :=
  let w := u64 z in if w <? 2 ^ 63 then w else w - UINT64_MOD.

(** [~v] on a [uint64_t]. *)
Definition not64 (v : Z) : Z := Z.lxor v UINT64_MAX.

(** [v << n] on a [uint64_t] and on a [uint32_t]. *)
Definition shl64 (v n : Z) : Z := u64 (Z.shiftl v n).
Definition shl32 (v n : Z) : Z := u32 (Z.shiftl v n).

(** [__builtin_rotateleft64] and [__builtin_rotateleft32]. *)
Definition rotl64 (v n : Z) : Z :=
  let n := n mod 64 in
  Z.lor (shl64 v n) (Z.shiftr (u64 v) (64 - n)).
Definition rotl32 (v n : Z) : Z :=
  let n := n mod 32 in
  Z.lor (shl32 v n) (Z.shiftr (u32 v) (32 - n)).

End Int.

(* ================================================================== *)
(** ** fmt-style formatting of integers *)
(* ================================================================== *)

Module Fmt.

Definition upper (c : ascii) : ascii :=
  let n := nat_of_ascii c in
  if ((97 <=? n)%nat && (n <=? 122)%nat)%bool
  then ascii_of_nat (n - 32) else c.

Fixpoint map_string (f : ascii -> ascii) (s : string) : string :=
  match s with
  | EmptyString => EmptyString
  | String c r => String (f c) (map_string f r)
  end.

(** ["{}"] on an unsigned integer. *)
Definition dec (z : Z) : string :=
  DecimalString.NilZero.string_of_uint (N.to_uint (Z.to_N z)).

(** ["{}"] on a signed integer. *)
Definition sdec (z : Z) : string :=
  DecimalString.NilZero.string_of_int (Z.to_int z).

(** ["{:X}"]: upper-case hexadecimal, no prefix, no padding. *)
Definition hex (z : Z) : string :=
  map_string upper
    (HexadecimalString.NilZero.string_of_uint (N.to_hex_uint (Z.to_N z))).

Fixpoint zeros (n : nat) : string :=
  match n with O => EmptyString | S k => String "0" (zeros k) end.

(** ["{:08X}"]: upper-case hexadecimal padded with zeros to 8 digits. *)
Definition hex08 (z : Z) : string :=
  let h := hex z in zeros (8 - String.length h) +:+ h.

End Fmt.

(* ================================================================== *)
(** ** helpers.h: pure helpers *)
(* ================================================================== *)

(** [compute_mask(uint32_t mstart, uint32_t mstop)]. *)
Definition compute_mask (mstart mstop : Z) : Z :=
  let mstart := Z.land mstart 0x3F in
  let mstop := Z.land mstop 0x3F in
  let value :=
    Z.lxor (Z.shiftr Int.UINT64_MAX mstart)
           (if 63 <=? mstop then 0 else Z.shiftr Int.UINT64_MAX (mstop + 1)) in
  if mstart <=? mstop then value else Int.not64 value.

(** [crBitName(uint32_t bi)]. *)
Definition crBitName (bi : Z) : string :=
  match Z.land bi 3 with
  | 0 => "lt"
  | 1 => "gt"
  | 2 => "eq"
  | _ => "so"
  end.

(** [isMMIOUpperBits(uint32_t imm)]. *)
Definition isMMIOUpperBits (imm : Z) : bool :=
  ((0x7FC8 <=? imm) && (imm <=? 0x7FCF)) || (imm =? 0x7FEA).

(** Bit [p] of a 64-bit word in PPC numbering (0 is the most significant
    bit). *)
Definition ppc_bit (v p : Z) : bool := Z.testbit v (63 - p).

(* ================================================================== *)
(** ** Builder context *)
(* ================================================================== *)

(** Characters the emitter writes through C escapes. *)
Definition TAB : string := String (ascii_of_nat 9) EmptyString.
Definition NL : string := String (ascii_of_nat 10) EmptyString.
Definition DQUOTE : string := String (ascii_of_nat 34) EmptyString.

Inductive CSRState := CSR_Unknown | CSR_FPU | CSR_VMX.

Inductive TargetKind := InternalLabel | Function | Import | Unknown.

Inductive LogLevel := LogWarn | LogError.

(** [JumpTable]: [{bctrAddress, indexRegister, targets[]}]. *)
Record JumpTable := mkJumpTable {
  bctrAddress : Z;
  indexRegister : Z;
  targets : list Z
}.

(** The fields of the recompiler configuration the builders read. *)
Record RecompilerConfig := mkConfig {
  skipLr : bool;
  crRegistersAsLocalVariables : bool;
  ctrAsLocalVariable : bool;
  xerAsLocalVariable : bool;
  nonArgumentRegistersAsLocalVariables : bool;
  nonVolatileRegistersAsLocalVariables : bool
}.

(** [FunctionNode]: bounds and auto-detected jump tables. *)
Record FunctionNode := mkFunctionNode {
  fn_base : Z;
  fn_end : Z;
  jumpTables : list JumpTable
}.

(** [ppc_insn]: mnemonic and decoded operands (32-bit unsigned). *)
Record ppc_insn := mkInsn {
  opcode_name : string;
  operands : list Z
}.

(** [RecompilerLocalVariables]: which registers were promoted to locals,
    and which general registers are flagged as MMIO bases. *)
Record RecompilerLocalVariables := mkLocals {
  lv_r : gset Z;
  lv_cr : gset Z;
  lv_ctr : bool;
  lv_xer : bool;
  lv_mmio_base : gset Z
}.

Record BuilderContext := mkCtx {
  config : RecompilerConfig;
  fn : FunctionNode;
  insn : ppc_insn;
  base : Z;                        (* guest address of the instruction *)
  next_insn_is_eieio : bool;       (* [*(data + 1) == c_eieio] *)
  locals : RecompilerLocalVariables;
  csrState : CSRState;
  switchTable : option JumpTable;  (* [None] is [switchTables.end()] *)
  out : string;
  log : list (LogLevel * string)
}.

Definition set_locals (l : RecompilerLocalVariables) (c : BuilderContext) :=
  mkCtx (config c) (fn c) (insn c) (base c) (next_insn_is_eieio c) l
        (csrState c) (switchTable c) (out c) (log c).
Definition set_csrState (s : CSRState) (c : BuilderContext) :=
  mkCtx (config c) (fn c) (insn c) (base c) (next_insn_is_eieio c) (locals c)
        s (switchTable c) (out c) (log c).
Definition set_switchTable (t : option JumpTable) (c : BuilderContext) :=
  mkCtx (config c) (fn c) (insn c) (base c) (next_insn_is_eieio c) (locals c)
        (csrState c) t (out c) (log c).
Definition set_out (o : string) (c : BuilderContext) :=
  mkCtx (config c) (fn c) (insn c) (base c) (next_insn_is_eieio c) (locals c)
        (csrState c) (switchTable c) o (log c).
Definition set_log (l : list (LogLevel * string)) (c : BuilderContext) :=
  mkCtx (config c) (fn c) (insn c) (base c) (next_insn_is_eieio c) (locals c)
        (csrState c) (switchTable c) (out c) l.

(** Builders thread the context: a state monad over [BuilderContext]. *)
Definition Emit (A : Type) : Type := BuilderContext -> A * BuilderContext.

#[global] Instance Emit_ret : MRet Emit := fun A a ctx => (a, ctx).
#[global] Instance Emit_bind : MBind Emit :=
  fun A B f m ctx => let '(a, ctx') := m ctx in f a ctx'.

Definition run {A} (m : Emit A) (ctx : BuilderContext) : BuilderContext :=
  snd (m ctx).
Definition result {A} (m : Emit A) (ctx : BuilderContext) : A :=
  fst (m ctx).

Definition get {A} (f : BuilderContext -> A) : Emit A := fun ctx => (f ctx, ctx).
Definition modify (f : BuilderContext -> BuilderContext) : Emit unit :=
  fun ctx => (tt, f ctx).

(** [ctx.insn.operands[i]]. *)
Definition operand (i : nat) : Emit Z :=
  get (fun ctx => nth i (operands (insn ctx)) 0).

(** [ctx.print] and [ctx.println] with the format already expanded. *)
Definition print (s : string) : Emit unit :=
  modify (fun ctx => set_out (out ctx +:+ s) ctx).
Definition println (s : string) : Emit unit :=
  modify (fun ctx => set_out (out ctx +:+ s +:+ NL) ctx).

Definition REXCODEGEN_WARN (msg : string) : Emit unit :=
  modify (fun ctx => set_log (log ctx ++ [(LogWarn, msg)]) ctx).
Definition REXCODEGEN_ERROR (msg : string) : Emit unit :=
  modify (fun ctx => set_log (log ctx ++ [(LogError, msg)]) ctx).

(** Register names. [builder_context.h] is not among the sources; the
    accessors follow the lambdas [r], [cr], [ctr], [xer] that
    [Recompiler::recompile] keeps for the same purpose. *)
Definition ctx_r (index : Z) : Emit string := fun ctx =>
  let cfg := config ctx in
  if (nonArgumentRegistersAsLocalVariables cfg &&
        ((index =? 0) || (index =? 2) || (index =? 11) || (index =? 12)))
     || (nonVolatileRegistersAsLocalVariables cfg && (14 <=? index))
  then
    let l := locals ctx in
    ("r" +:+ Fmt.dec index,
     set_locals (mkLocals ({[index]} ∪ lv_r l) (lv_cr l) (lv_ctr l) (lv_xer l)
                          (lv_mmio_base l)) ctx)
  else ("ctx.r" +:+ Fmt.dec index, ctx).

Definition ctx_cr (index : Z) : Emit string := fun ctx =>
  if crRegistersAsLocalVariables (config ctx)
  then
    let l := locals ctx in
    ("cr" +:+ Fmt.dec index,
     set_locals (mkLocals (lv_r l) ({[index]} ∪ lv_cr l) (lv_ctr l) (lv_xer l)
                          (lv_mmio_base l)) ctx)
  else ("ctx.cr" +:+ Fmt.dec index, ctx).

Definition ctx_ctr : Emit string := fun ctx =>
  if ctrAsLocalVariable (config ctx)
  then
    let l := locals ctx in
    ("ctr"%string,
     set_locals (mkLocals (lv_r l) (lv_cr l) true (lv_xer l) (lv_mmio_base l)) ctx)
  else ("ctx.ctr"%string, ctx).

Definition ctx_xer : Emit string := fun ctx =>
  if xerAsLocalVariable (config ctx)
  then
    let l := locals ctx in
    ("xer"%string,
     set_locals (mkLocals (lv_r l) (lv_cr l) (lv_ctr l) true (lv_mmio_base l)) ctx)
  else ("ctx.xer"%string, ctx).

(** [ctx.locals.is_mmio_base / set_mmio_base / clear_mmio_base]: the
    per-register MMIO-base flag. *)
Definition is_mmio_base (reg : Z) : Emit bool :=
  get (fun ctx => bool_decide (reg ∈ lv_mmio_base (locals ctx))).
Definition set_mmio_base (reg : Z) : Emit unit :=
  modify (fun ctx =>
    let l := locals ctx in
    set_locals (mkLocals (lv_r l) (lv_cr l) (lv_ctr l) (lv_xer l)
                         ({[reg]} ∪ lv_mmio_base l)) ctx).
Definition clear_mmio_base (reg : Z) : Emit unit :=
  modify (fun ctx =>
    let l := locals ctx in
    set_locals (mkLocals (lv_r l) (lv_cr l) (lv_ctr l) (lv_xer l)
                         (lv_mmio_base l ∖ {[reg]})) ctx).

(** [ctx.reset_switch_table()]. *)
Definition reset_switch_table : Emit unit := modify (set_switchTable None).

(** [std::strchr(s, c) != nullptr]. *)
Fixpoint strchr (s : string) (c : ascii) : bool :=
  match s with
  | EmptyString => false
  | String a r => if Ascii.eqb a c then true else strchr r c
  end.

(** [isRecordForm(insn)]. *)
Definition isRecordForm (i : ppc_insn) : bool := strchr (opcode_name i) ".".

(** [emitRecordFormCompare(ctx)]. *)
Definition emitRecordFormCompare : Emit unit :=
  i ← get insn;
  if isRecordForm i then
    c ← ctx_cr 0;
    o0 ← operand 0;
    r ← ctx_r o0;
    x ← ctx_xer;
    println (TAB +:+ c +:+ ".compare<int32_t>(" +:+ r +:+ ".s32, 0, " +:+ x +:+ ");")
  else mret tt.

(* ================================================================== *)
(** ** logical.cpp: rotate-and-mask, CR bit operations *)
(* ================================================================== *)

(** [build_rlwinm]. *)
Definition build_rlwinm : Emit bool :=
  o0 ← operand 0; o1 ← operand 1; o2 ← operand 2;
  o3 ← operand 3; o4 ← operand 4;
  rD ← ctx_r o0;
  rS ← ctx_r o1;
  rS' ← ctx_r o1;
  println (TAB +:+ rD +:+ ".u64 = __builtin_rotateleft64(" +:+ rS +:+ ".u32 | ("
           +:+ rS' +:+ ".u64 << 32), " +:+ Fmt.dec o2 +:+ ") & 0x"
           +:+ Fmt.hex (compute_mask (Int.u32 (o3 + 32)) (Int.u32 (o4 + 32)))
           +:+ ";");;
  emitRecordFormCompare;;
  mret true.

(** [emitCRBitOperation(ctx, op, invertA, invertB, invertResult)]. *)
Definition emitCRBitOperation (op : string)
    (invertA invertB invertResult : bool) : Emit unit :=
  crD ← operand 0; crA ← operand 1; crB ← operand 2;
  let crField_D := crD / 4 in
  let crBit_D := crD mod 4 in
  let crField_A := crA / 4 in
  let crBit_A := crA mod 4 in
  let crField_B := crB / 4 in
  let crBit_B := crB mod 4 in
  fA ← ctx_cr crField_A;
  let aExpr := fA +:+ "." +:+ crBitName crBit_A in
  fB ← ctx_cr crField_B;
  let bExpr := fB +:+ "." +:+ crBitName crBit_B in
  let aExpr := if invertA then "!(" +:+ aExpr +:+ ")" else aExpr in
  let bExpr := if invertB then "!(" +:+ bExpr +:+ ")" else bExpr in
  let expr := aExpr +:+ " " +:+ op +:+ " " +:+ bExpr in
  let expr := if invertResult then "!(" +:+ expr +:+ ")" else expr in
  fD ← ctx_cr crField_D;
  println (TAB +:+ fD +:+ "." +:+ crBitName crBit_D +:+ " = " +:+ expr +:+ ";").

Definition build_crand : Emit bool :=
  emitCRBitOperation "&" false false false;; mret true.
Definition build_crandc : Emit bool :=
  emitCRBitOperation "&" false true false;; mret true.
Definition build_creqv : Emit bool :=
  emitCRBitOperation "=" false false false;; mret true.
Definition build_crnand : Emit bool :=
  emitCRBitOperation "&" false false true;; mret true.
Definition build_crnor : Emit bool :=
  emitCRBitOperation "|" false false true;; mret true.
Definition build_cror : Emit bool :=
  emitCRBitOperation "|" false false false;; mret true.
Definition build_crorc : Emit bool :=
  emitCRBitOperation "|" false true false;; mret true.

(* ================================================================== *)
(** ** control_flow.cpp and the bounds-checked branch helper *)
(* ================================================================== *)

(** [target < fn.base() || target >= fn.end()]. *)
Definition outside_function (f : FunctionNode) (target : Z) : bool :=
  (target <? fn_base f) || (fn_end f <=? target).

(** [emitBranchWithBoundsCheck(ctx, target, condition, instr_name)]. *)
Definition emitBranchWithBoundsCheck (target : Z)
    (condition instr_name : string) : Emit unit :=
  f ← get fn;
  if outside_function f target then
    b ← get base;
    REXCODEGEN_WARN (instr_name +:+ " at " +:+ Fmt.hex b
                     +:+ " branches outside function to " +:+ Fmt.hex target);;
    println (TAB +:+ "if (" +:+ condition +:+ ") { /* branch to 0x"
             +:+ Fmt.hex target +:+ " outside function */ return; }")
  else
    println (TAB +:+ "if (" +:+ condition +:+ ") goto loc_"
             +:+ Fmt.hex target +:+ ";").

Definition build_bdz : Emit bool :=
  c ← ctx_ctr;
  println (TAB +:+ "--" +:+ c +:+ ".u64;");;
  t ← operand 0;
  c' ← ctx_ctr;
  emitBranchWithBoundsCheck t (c' +:+ ".u32 == 0") "bdz";;
  mret true.

Definition build_bdnz : Emit bool :=
  c ← ctx_ctr;
  println (TAB +:+ "--" +:+ c +:+ ".u64;");;
  t ← operand 0;
  c' ← ctx_ctr;
  emitBranchWithBoundsCheck t (c' +:+ ".u32 != 0") "bdnz";;
  mret true.

Definition build_bdnzf : Emit bool :=
  o0 ← operand 0;
  let bit := crBitName o0 in
  c ← ctx_ctr;
  println (TAB +:+ "--" +:+ c +:+ ".u64;");;
  t ← operand 1;
  c' ← ctx_ctr;
  f ← ctx_cr (o0 / 4);
  emitBranchWithBoundsCheck t
    (c' +:+ ".u32 != 0 && !" +:+ f +:+ "." +:+ bit) "bdnzf";;
  mret true.

Definition build_bdnzt : Emit bool :=
  o0 ← operand 0;
  let bit := crBitName o0 in
  c ← ctx_ctr;
  println (TAB +:+ "--" +:+ c +:+ ".u64;");;
  t ← operand 1;
  c' ← ctx_ctr;
  f ← ctx_cr (o0 / 4);
  emitBranchWithBoundsCheck t
    (c' +:+ ".u32 != 0 && " +:+ f +:+ "." +:+ bit) "bdnzt";;
  mret true.

Definition build_bdzf : Emit bool :=
  o0 ← operand 0;
  let bit := crBitName o0 in
  c ← ctx_ctr;
  println (TAB +:+ "--" +:+ c +:+ ".u64;");;
  t ← operand 1;
  c' ← ctx_ctr;
  f ← ctx_cr (o0 / 4);
  emitBranchWithBoundsCheck t
    (c' +:+ ".u32 == 0 && !" +:+ f +:+ "." +:+ bit) "bdzf";;
  mret true.

Section UnconditionalBranch.

(** [FunctionGraph::classifyTarget] and
    [BuilderContext::emit_function_call] live in files that are not
    among the sources; the builder is embedded over both. *)
Variable classifyTarget : Z -> Z -> bool -> TargetKind.
Variable emit_function_call : Z -> Emit unit.

(** [build_b]. *)
Definition build_b : Emit bool :=
  target ← operand 0;
  b ← get base;
  match classifyTarget target b false with
  | InternalLabel =>
      println (TAB +:+ "goto loc_" +:+ Fmt.hex target +:+ ";")
  | Function | Import =>
      emit_function_call target;;
      println (TAB +:+ "return;")
  | Unknown =>
      f ← get fn;
      if (fn_base f <=? target) && (target <? fn_end f) then
        println (TAB +:+ "goto loc_" +:+ Fmt.hex target +:+ ";")
      else
        REXCODEGEN_WARN ("Unresolved b target 0x" +:+ Fmt.hex08 target
                         +:+ " from 0x" +:+ Fmt.hex08 b);;
        emit_function_call target;;
        println (TAB +:+ "return;")
  end;;
  mret true.

End UnconditionalBranch.

Section CallAndConditionalBranch.

(** [FunctionGraph::classifyTarget], [BuilderContext::emit_function_call]
    and [BuilderContext::emit_conditional_branch] live in files that are
    not among the sources; the builders are embedded over them. *)
Variable classifyTarget : Z -> Z -> bool -> TargetKind.
Variable emit_function_call : Z -> Emit unit.
Variable emit_conditional_branch : bool -> string -> Emit unit.

(** [build_bl]. [ctx.base] is a [uint32_t]. *)
Definition build_bl : Emit bool :=
  target ← operand 0;
  cfg ← get config;
  b ← get base;
  (* Always set LR (unless skipLr) *)
  (if negb (skipLr cfg)
   then println (TAB +:+ "ctx.lr = 0x" +:+ Fmt.hex (Int.u32 (b + 4)) +:+ ";")
   else mret tt);;
  match classifyTarget target b true with
  | InternalLabel =>
      println (TAB +:+ "goto loc_" +:+ Fmt.hex target +:+ ";")
  | Function | Import =>
      emit_function_call target;;
      modify (set_csrState CSR_Unknown)
  | Unknown =>
      REXCODEGEN_ERROR ("Unresolved bl target 0x" +:+ Fmt.hex08 target
                        +:+ " from 0x" +:+ Fmt.hex08 b);;
      println (TAB +:+ "// ERROR: unresolved bl target 0x"
               +:+ Fmt.hex08 target);;
      println (TAB +:+ "REX_FATAL(" +:+ DQUOTE +:+ "Unresolved call from 0x"
               +:+ Fmt.hex08 b +:+ " to 0x" +:+ Fmt.hex08 target
               +:+ DQUOTE +:+ ");")
  end;;
  mret true.

(** [build_beq] ... [build_bns]. *)
Definition build_beq : Emit bool :=
  emit_conditional_branch false "eq";; mret true.
Definition build_bne : Emit bool :=
  emit_conditional_branch true "eq";; mret true.
Definition build_blt : Emit bool :=
  emit_conditional_branch false "lt";; mret true.
Definition build_bge : Emit bool :=
  emit_conditional_branch true "lt";; mret true.
Definition build_bgt : Emit bool :=
  emit_conditional_branch false "gt";; mret true.
Definition build_ble : Emit bool :=
  emit_conditional_branch true "gt";; mret true.
Definition build_bso : Emit bool :=
  emit_conditional_branch false "so";; mret true.
Definition build_bns : Emit bool :=
  emit_conditional_branch true "so";; mret true.

End CallAndConditionalBranch.

(** The jump table [build_bctr] binds: the configured switch table when
    there is one, else the first auto-detected table at this address. *)
Definition bound_jump_table (ctx : BuilderContext) : option JumpTable :=
  match switchTable ctx with
  | Some jt => Some jt
  | None =>
      List.find (fun autoJt => bctrAddress autoJt =? base ctx)
                (jumpTables (fn ctx))
  end.

(** The [for] loop of [build_bctr] from index [i] on. *)
Fixpoint emit_switch_cases (i : Z) (labels : list Z) : Emit unit :=
  match labels with
  | [] => mret tt
  | label :: rest =>
      println (TAB +:+ "case " +:+ Fmt.dec i +:+ ":");;
      f ← get fn;
      (if outside_function f label then
         b ← get base;
         REXCODEGEN_ERROR ("Jump target 0x" +:+ Fmt.hex08 label
                           +:+ " outside function bounds at bctr 0x"
                           +:+ Fmt.hex08 b);;
         println (TAB +:+ TAB +:+ "// ERROR: jump target 0x" +:+ Fmt.hex08 label
                  +:+ " outside function bounds");;
         println (TAB +:+ TAB +:+ "return;")
       else
         println (TAB +:+ TAB +:+ "goto loc_" +:+ Fmt.hex label +:+ ";"));;
      emit_switch_cases (i + 1) rest
  end.

(** [build_bctr]. *)
Definition build_bctr : Emit bool :=
  jt ← get bound_jump_table;
  match jt with
  | Some jt =>
      r ← ctx_r (indexRegister jt);
      println (TAB +:+ "switch (" +:+ r +:+ ".u32) {");;
      emit_switch_cases 0 (targets jt);;
      println (TAB +:+ "default:");;
      println (TAB +:+ TAB +:+ "__builtin_trap(); // Switch case out of range");;
      println (TAB +:+ "}");;
      reset_switch_table
  | None =>
      c ← ctx_ctr;
      println (TAB +:+ "PPC_CALL_INDIRECT_FUNC(" +:+ c +:+ ".u32);");;
      println (TAB +:+ "return;")
  end;;
  mret true.

(* ================================================================== *)
(** ** memory.cpp: lis and the D-form word store *)
(* ================================================================== *)

(** [build_lis]. *)
Definition build_lis : Emit bool :=
  o1 ← operand 1;
  let imm := Int.u32 o1 in
  dest_reg ← operand 0;
  r ← ctx_r dest_reg;
  println (TAB +:+ r +:+ ".s64 = " +:+ Fmt.sdec (Int.s32 (Int.shl32 imm 16))
           +:+ ";");;
  (if isMMIOUpperBits imm then set_mmio_base dest_reg
   else clear_mmio_base dest_reg);;
  mret true.

(** Modelled from the spec: [BuilderContext::mmio_check_d_form], declared
    in [builder_context.h], which is not among the sources. Per the spec it
    holds when the base register of the D-form access (operand 2) is
    flagged as an MMIO base, and for eieio-guarded sequences when the
    following instruction is an [eieio]. *)
Definition mmio_check_d_form : Emit bool :=
  rA ← operand 2;
  flagged ← is_mmio_base rA;
  e ← get next_insn_is_eieio;
  mret (flagged || e).

(** [getStoreMacro(ctx, normal_macro, mmio_macro)]. *)
Definition getStoreMacro (normal_macro mmio_macro : string) : Emit string :=
  m ← mmio_check_d_form;
  mret (if (m : bool) then mmio_macro else normal_macro).

(** Modelled from the spec: [BuilderContext::emit_store_d_form], declared
    in [builder_context.h], which is not among the sources. A D-form store
    writes [macro(rA.u32 + disp, rS.field)], omits the base when [rA] is
    0, and routes through the [PPC_MM_] variant of the macro when the
    MMIO check holds; the text follows the D-form store that [memory.cpp]
    writes out in full ([build_stfd]). *)
Definition emit_store_d_form (macro field : string) (mmio_capable : bool)
    : Emit unit :=
  let mmio_macro :=
    "PPC_MM_" +:+ String.substring 4 (String.length macro - 4) macro in
  m ← (if mmio_capable then getStoreMacro macro mmio_macro else mret macro);
  print (TAB +:+ m +:+ "(");;
  rA ← operand 2;
  (if negb (rA =? 0) then
     r ← ctx_r rA; print (r +:+ ".u32 + ")
   else mret tt);;
  d ← operand 1;
  rS ← operand 0;
  s ← ctx_r rS;
  println (Fmt.sdec (Int.s32 d) +:+ ", " +:+ s +:+ "." +:+ field +:+ ");").

(** [build_stw]. *)
Definition build_stw : Emit bool :=
  emit_store_d_form "PPC_STORE_U32" "u32" true;;
  mret true.

(* ================================================================== *)
(** ** instruction_dispatch.cpp *)
(* ================================================================== *)

(** [Builder]: a function from the builder context to [bool]. *)
Abbreviation Builder := (Emit bool).

(** [DispatchInstruction(id, ctx)] over the static table. The keys of the
    table are the opcode identifiers of the external disassembler, so the
    table is an argument. *)
Definition DispatchInstruction (table : gmap Z Builder) (id : Z) : Emit bool :=
  match table !! id with
  | Some builder => builder
  | None =>
      name ← get (fun ctx => opcode_name (insn ctx));
      b ← get base;
      REXCODEGEN_WARN ("Unimplemented: " +:+ name +:+ " at 0x" +:+ Fmt.hex08 b);;
      println (TAB +:+ "// UNIMPLEMENTED: " +:+ name);;
      println (TAB +:+ "PPC_UNIMPLEMENTED(0x" +:+ Fmt.hex b +:+ ", "
               +:+ DQUOTE +:+ name +:+ DQUOTE +:+ ");");;
      mret true
  end.

(* ================================================================== *)
(** ** The emitted host code, read back *)
(* ================================================================== *)

(** A context for one instruction, with nothing promoted or flagged yet
    and an empty output buffer. *)
Definition no_locals : RecompilerLocalVariables := mkLocals ∅ ∅ false false ∅.

Definition plain_config : RecompilerConfig :=
  mkConfig false false false false false false.

Definition start_ctx (cfg : RecompilerConfig) (f : FunctionNode)
    (i : ppc_insn) (addr : Z) : BuilderContext :=
  mkCtx cfg f i addr false no_locals CSR_Unknown None EmptyString [].

(** [Recompiler::recompile] builds a new context for each instruction over
    the same local-variable record, CSR state and output buffer. *)
Definition next_instruction (i : ppc_insn) (addr : Z) (eieio : bool)
    (c : BuilderContext) : BuilderContext :=
  mkCtx (config c) (fn c) i addr eieio (locals c) (csrState c)
        (switchTable c) (out c) (log c).

(** Integer expressions of the emitted host code, as far as the
    rotate-and-mask builders use them. Every binary operand is an atom, a
    call or parenthesised, so the rendering is unambiguous. *)
Inductive HExpr :=
  | HU32 (reg : string)            (* reg.u32 *)
  | HU64 (reg : string)            (* reg.u64 *)
  | HDec (n : Z)                   (* decimal literal *)
  | HHex (n : Z)                   (* 0x... literal *)
  | HShl (a b : HExpr)             (* (a << b), on uint64_t *)
  | HOr (a b : HExpr)              (* a | b *)
  | HAnd (a b : HExpr)             (* a & b *)
  | HRotl64 (a b : HExpr).         (* __builtin_rotateleft64(a, b) *)

Fixpoint render_expr (e : HExpr) : string :=
  match e with
  | HU32 r => r +:+ ".u32"
  | HU64 r => r +:+ ".u64"
  | HDec n => Fmt.dec n
  | HHex n => "0x" +:+ Fmt.hex n
  | HShl a b => "(" +:+ render_expr a +:+ " << " +:+ render_expr b +:+ ")"
  | HOr a b => render_expr a +:+ " | " +:+ render_expr b
  | HAnd a b => render_expr a +:+ " & " +:+ render_expr b
  | HRotl64 a b =>
      "__builtin_rotateleft64(" +:+ render_expr a +:+ ", " +:+ render_expr b +:+ ")"
  end.

(** The host register file: the 64-bit value of each named register. *)
Abbreviation HostRegs := (gmap string Z).

Definition reg_value (regs : HostRegs) (r : string) : Z :=
  default 0 (regs !! r).

Fixpoint eval_expr (regs : HostRegs) (e : HExpr) : Z :=
  match e with
  | HU32 r => Int.u32 (reg_value regs r)
  | HU64 r => Int.u64 (reg_value regs r)
  | HDec n => n
  | HHex n => n
  | HShl a b => Int.shl64 (eval_expr regs a) (eval_expr regs b)
  | HOr a b => Z.lor (eval_expr regs a) (eval_expr regs b)
  | HAnd a b => Z.land (eval_expr regs a) (eval_expr regs b)
  | HRotl64 a b => Int.rotl64 (eval_expr regs a) (eval_expr regs b)
  end.

(** The statement [reg.u64 = e;] on its own line. *)
Definition render_assign_u64 (reg : string) (e : HExpr) : string :=
  TAB +:+ reg +:+ ".u64 = " +:+ render_expr e +:+ ";" +:+ NL.

Definition exec_assign_u64 (reg : string) (e : HExpr) (regs : HostRegs)
    : HostRegs :=
  <[reg := Int.u64 (eval_expr regs e)]> regs.

(** The expression [build_rlwinm] writes for source register [rS], shift
    [sh] and mask [m]. *)
Definition rlwinm_expr (rS : string) (sh m : Z) : HExpr :=
  HAnd (HRotl64 (HOr (HU32 rS) (HShl (HU64 rS) (HDec 32))) (HDec sh)) (HHex m).

(** Condition-register expressions of the emitted host code: a CR bit, a
    negation, or a binary operator given by its symbol. In C++ [a = b] is
    an assignment: it stores [b] into the l-value [a] and yields it. *)
Inductive CrOp := OpAnd | OpOr | OpAssign.

Definition cr_op_symbol (o : CrOp) : string :=
  match o with OpAnd => "&" | OpOr => "|" | OpAssign => "=" end.

Inductive CrExpr :=
  | CrBit (field bit : string)     (* field.bit *)
  | CrNot (e : CrExpr)             (* !(e) *)
  | CrBin (o : CrOp) (a b : CrExpr).  (* a o b *)

Fixpoint render_cr (e : CrExpr) : string :=
  match e with
  | CrBit f b => f +:+ "." +:+ b
  | CrNot e => "!(" +:+ render_cr e +:+ ")"
  | CrBin o a b => render_cr a +:+ " " +:+ cr_op_symbol o +:+ " " +:+ render_cr b
  end.

(** The condition register of the host context: one flag per field name
    and bit name. *)
Abbreviation HostCR := (gmap (string * string) bool).

Definition cr_flag (cr : HostCR) (f b : string) : bool :=
  default false (cr !! (f, b)).

(** Evaluation threads the flags, since an assignment inside the
    expression writes one; [None] when the left side of [=] is not an
    l-value. *)
Fixpoint eval_cr (e : CrExpr) (cr : HostCR) : option (bool * HostCR) :=
  match e with
  | CrBit f b => Some (cr_flag cr f b, cr)
  | CrNot e =>
      match eval_cr e cr with
      | Some (v, cr') => Some (negb v, cr')
      | None => None
      end
  | CrBin OpAssign (CrBit f b) rhs =>
      match eval_cr rhs cr with
      | Some (v, cr') => Some (v, <[(f, b) := v]> cr')
      | None => None
      end
  | CrBin OpAssign _ _ => None
  | CrBin o a b =>
      match eval_cr a cr with
      | Some (va, cr1) =>
          match eval_cr b cr1 with
          | Some (vb, cr2) =>
              Some (match o with OpAnd => va && vb | _ => va || vb end, cr2)
          | None => None
          end
      | None => None
      end
  end.

(** The statement [field.bit = e;] on its own line. *)
Definition render_cr_assign (f b : string) (e : CrExpr) : string :=
  TAB +:+ f +:+ "." +:+ b +:+ " = " +:+ render_cr e +:+ ";" +:+ NL.

Definition exec_cr_assign (f b : string) (e : CrExpr) (cr : HostCR)
    : option HostCR :=
  match eval_cr e cr with
  | Some (v, cr') => Some (<[(f, b) := v]> cr')
  | None => None
  end.

(** The name [ctx.cr(field)] yields, and the l-value of global CR bit [i]:
    field [i / 4], bit name [crBitName (i mod 4)]. *)
Definition cr_name (cfg : RecompilerConfig) (field : Z) : string :=
  if crRegistersAsLocalVariables cfg then "cr" +:+ Fmt.dec field
  else "ctx.cr" +:+ Fmt.dec field.

Definition cr_bit_of (cfg : RecompilerConfig) (i : Z) : string * string :=
  (cr_name cfg (i / 4), crBitName (i mod 4)).

Definition cr_bit_expr (cfg : RecompilerConfig) (i : Z) : CrExpr :=
  CrBit (fst (cr_bit_of cfg i)) (snd (cr_bit_of cfg i)).

Definition parse_cr_op (op : string) : option CrOp :=
  if String.eqb op "&" then Some OpAnd
  else if String.eqb op "|" then Some OpOr
  else if String.eqb op "=" then Some OpAssign
  else None.

(** The right-hand side [emitCRBitOperation] writes. *)
Definition cr_operation_expr (cfg : RecompilerConfig) (o : CrOp)
    (invertA invertB invertResult : bool) (crA crB : Z) : CrExpr :=
  let a := cr_bit_expr cfg crA in
  let b := cr_bit_expr cfg crB in
  let a := if invertA then CrNot a else a in
  let b := if invertB then CrNot b else b in
  let e := CrBin o a b in
  if invertResult then CrNot e else e.

(** What the PPC instruction computes for [crD] from the two source bits. *)
Inductive CrInsn := CRAND | CRANDC | CREQV | CRNAND | CRNOR | CROR | CRORC.

Definition cr_insn_builder (i : CrInsn) : Builder :=
  match i with
  | CRAND => build_crand | CRANDC => build_crandc | CREQV => build_creqv
  | CRNAND => build_crnand | CRNOR => build_crnor | CROR => build_cror
  | CRORC => build_crorc
  end.

Definition cr_insn_function (i : CrInsn) (a b : bool) : bool :=
  match i with
  | CRAND => a && b
  | CRANDC => a && negb b
  | CREQV => negb (xorb a b)
  | CRNAND => negb (a && b)
  | CRNOR => negb (a || b)
  | CROR => a || b
  | CRORC => a || negb b
  end.

(** The statement a CR builder emits, as written in [logical.cpp]. *)
Definition cr_insn_stmt (cfg : RecompilerConfig) (i : CrInsn)
    (crD crA crB : Z) : (string * string) * CrExpr :=
  (cr_bit_of cfg crD,
   match i with
   | CRAND => cr_operation_expr cfg OpAnd false false false crA crB
   | CRANDC => cr_operation_expr cfg OpAnd false true false crA crB
   | CREQV => cr_operation_expr cfg OpAssign false false false crA crB
   | CRNAND => cr_operation_expr cfg OpAnd false false true crA crB
   | CRNOR => cr_operation_expr cfg OpOr false false true crA crB
   | CROR => cr_operation_expr cfg OpOr false false false crA crB
   | CRORC => cr_operation_expr cfg OpOr false true false crA crB
   end).

(** The [switch] statement [build_bctr] writes: numbered cases, each
    ending in a [goto] or (for a target outside the function) in a
    commented [return], and a trapping [default]. *)
Inductive CaseBody :=
  | CaseGoto (label : Z)
  | CaseErrorReturn (label : Z).

Inductive Outcome :=
  | OGoto (label : Z)
  | OReturn
  | OTrap.

Definition render_case (c : Z * CaseBody) : string :=
  TAB +:+ "case " +:+ Fmt.dec (fst c) +:+ ":" +:+ NL +:+
  match snd c with
  | CaseGoto l => TAB +:+ TAB +:+ "goto loc_" +:+ Fmt.hex l +:+ ";" +:+ NL
  | CaseErrorReturn l =>
      TAB +:+ TAB +:+ "// ERROR: jump target 0x" +:+ Fmt.hex08 l
      +:+ " outside function bounds" +:+ NL +:+
      TAB +:+ TAB +:+ "return;" +:+ NL
  end.

Fixpoint render_cases (cs : list (Z * CaseBody)) : string :=
  match cs with
  | [] => EmptyString
  | c :: rest => render_case c +:+ render_cases rest
  end.

Definition render_switch (reg : string) (cs : list (Z * CaseBody)) : string :=
  TAB +:+ "switch (" +:+ reg +:+ ".u32) {" +:+ NL +:+
  render_cases cs +:+
  TAB +:+ "default:" +:+ NL +:+
  TAB +:+ TAB +:+ "__builtin_trap(); // Switch case out of range" +:+ NL +:+
  TAB +:+ "}" +:+ NL.

(** Running the [switch] on the value [v] of [reg.u32]: the first case
    labelled [v] decides (each case body leaves the switch), otherwise the
    default traps. *)
Definition exec_switch (cs : list (Z * CaseBody)) (v : Z) : Outcome :=
  match List.find (fun c => fst c =? v) cs with
  | Some (_, CaseGoto l) => OGoto l
  | Some (_, CaseErrorReturn _) => OReturn
  | None => OTrap
  end.

(** The cases [build_bctr] writes for the targets from index [i] on. *)
Fixpoint switch_cases (f : FunctionNode) (i : Z) (labels : list Z)
    : list (Z * CaseBody) :=
  match labels with
  | [] => []
  | label :: rest =>
      (i, if outside_function f label then CaseErrorReturn label
          else CaseGoto label)
      :: switch_cases f (i + 1) rest
  end.

(** Substring test on emitted text. *)
Fixpoint contains (needle hay : string) : bool :=
  match hay with
  | EmptyString => String.prefix needle hay
  | String _ rest => String.prefix needle hay || contains needle rest
  end.

(** A host call in emitted text: a direct call [name(ctx, base);] or an
    indirect one through [PPC_CALL_INDIRECT_FUNC]. *)
Definition has_host_call (text : string) : bool :=
  contains "(ctx, base);" text || contains "PPC_CALL_INDIRECT_FUNC(" text.

(** The branch policy in the spec's words, checked on the text emitted
    for one branch to [target]: a local label reference inside the
    function, a call followed by [return;] outside. *)
Definition branch_policy_as_stated (f : FunctionNode) (target : Z)
    (text : string) : bool :=
  if outside_function f target
  then has_host_call text && contains "return;" text
  else contains ("goto loc_" +:+ Fmt.hex target +:+ ";") text.

(** The text [emitBranchWithBoundsCheck] writes for a guarded branch. *)
Definition guarded_branch_text (f : FunctionNode) (target : Z)
    (condition : string) : string :=
  if outside_function f target
  then TAB +:+ "if (" +:+ condition +:+ ") { /* branch to 0x"
       +:+ Fmt.hex target +:+ " outside function */ return; }" +:+ NL
  else TAB +:+ "if (" +:+ condition +:+ ") goto loc_"
       +:+ Fmt.hex target +:+ ";" +:+ NL.

(** The name [ctx.ctr()] yields. *)
Definition ctr_name (cfg : RecompilerConfig) : string :=
  if ctrAsLocalVariable cfg then "ctr" else "ctx.ctr".

(** The text [build_b] writes, by the classification of the target. *)
Definition goto_text (target : Z) : string :=
  TAB +:+ "goto loc_" +:+ Fmt.hex target +:+ ";" +:+ NL.

Definition return_text : string := TAB +:+ "return;" +:+ NL.

(** The warning [emitBranchWithBoundsCheck] logs for a branch from [b]. *)
Definition branch_warning (f : FunctionNode) (b target : Z)
    (instr_name : string) : list (LogLevel * string) :=
  if outside_function f target
  then [(LogWarn, instr_name +:+ " at " +:+ Fmt.hex b
                  +:+ " branches outside function to " +:+ Fmt.hex target)]
  else [].

(** A CTR-decrementing branch builder with its mnemonic, the index of its
    target operand, and the condition it guards the branch with, given the
    configuration and operand 0. *)
Record CtrBranch := mkCtrBranch {
  cb_builder : Builder;
  cb_name : string;
  cb_target_operand : nat;
  cb_condition : RecompilerConfig -> Z -> string
}.

Definition ctr_branches : list CtrBranch :=
  [mkCtrBranch build_bdz "bdz" 0
     (fun cfg _ => ctr_name cfg +:+ ".u32 == 0");
   mkCtrBranch build_bdnz "bdnz" 0
     (fun cfg _ => ctr_name cfg +:+ ".u32 != 0");
   mkCtrBranch build_bdnzf "bdnzf" 1
     (fun cfg bi => ctr_name cfg +:+ ".u32 != 0 && !"
                    +:+ cr_name cfg (bi / 4) +:+ "." +:+ crBitName bi);
   mkCtrBranch build_bdnzt "bdnzt" 1
     (fun cfg bi => ctr_name cfg +:+ ".u32 != 0 && "
                    +:+ cr_name cfg (bi / 4) +:+ "." +:+ crBitName bi);
   mkCtrBranch build_bdzf "bdzf" 1
     (fun cfg bi => ctr_name cfg +:+ ".u32 == 0 && !"
                    +:+ cr_name cfg (bi / 4) +:+ "." +:+ crBitName bi)].

(** The text a CTR-decrementing branch builder writes: the decrement and
    the guarded branch. *)
Definition ctr_branch_text (cfg : RecompilerConfig) (f : FunctionNode)
    (target : Z) (condition : string) : string :=
  TAB +:+ "--" +:+ ctr_name cfg +:+ ".u64;" +:+ NL
  +:+ guarded_branch_text f target condition.

(** The conditional branch builders that take a target address, each with
    the arguments it hands to [emit_conditional_branch]. *)
Definition conditional_branch_builders
    : list (((bool -> string -> Emit unit) -> Builder) * (bool * string)) :=
  [(build_beq, (false, "eq")); (build_bne, (true, "eq"));
   (build_blt, (false, "lt")); (build_bge, (true, "lt"));
   (build_bgt, (false, "gt")); (build_ble, (true, "gt"));
   (build_bso, (false, "so")); (build_bns, (true, "so"))].

(** The text [build_bl] writes before it looks at the target. *)
Definition link_text (cfg : RecompilerConfig) (b : Z) : string :=
  if skipLr cfg then EmptyString
  else TAB +:+ "ctx.lr = 0x" +:+ Fmt.hex (Int.u32 (b + 4)) +:+ ";" +:+ NL.

(** The text [build_bl] writes for a target the graph cannot classify. *)
Definition unresolved_call_text (b target : Z) : string :=
  TAB +:+ "// ERROR: unresolved bl target 0x" +:+ Fmt.hex08 target +:+ NL
  +:+ TAB +:+ "REX_FATAL(" +:+ DQUOTE +:+ "Unresolved call from 0x"
  +:+ Fmt.hex08 b +:+ " to 0x" +:+ Fmt.hex08 target +:+ DQUOTE +:+ ");" +:+ NL.

(** Whether a character occurs in a text. *)
Fixpoint occurs (c : ascii) (s : string) : bool :=
  match s with
  | EmptyString => false
  | String d rest => Ascii.eqb c d || occurs c rest
  end.

(* ================================================================== *)
(** ** xthread.cpp: constructor, TLS slots, Delay *)
(* ================================================================== *)

(** [creation_params_]. *)
Record CreationParams := mkCreationParams {
  stack_size : Z;
  xapi_thread_startup : Z;
  start_address : Z;
  start_context : Z;
  creation_flags : Z
}.

(** The creation parameters the constructor
    [XThread::XThread(kernel_state, stack_size, xapi_thread_startup,
    start_address, start_context, creation_flags, guest_thread,
    main_thread)] leaves in [creation_params_]. *)
Definition XThread_creation_params
    (stack_size_arg xapi_thread_startup_arg start_address_arg
     start_context_arg creation_flags_arg : Z) : CreationParams :=
  let p := mkCreationParams stack_size_arg xapi_thread_startup_arg
             start_address_arg start_context_arg creation_flags_arg in
  (* Adjust stack size - min of 16k. *)
  if stack_size p <? 16 * 1024
  then mkCreationParams (16 * 1024) (xapi_thread_startup p) (start_address p)
         (start_context p) (creation_flags p)
  else p.

(** [XThread::Create] calls [AllocateStack(creation_params_.stack_size)]:
    the size it asks for. *)
Definition Create_stack_request (p : CreationParams) : Z := stack_size p.

(** Guest memory, byte by byte, addressed by guest virtual address. *)
Abbreviation GuestMemory := (gmap Z Z).

Definition guest_byte (mem : GuestMemory) (addr : Z) : Z :=
  default 0 (mem !! addr).

(** [memory::load_and_swap<uint32_t>]: a big-endian 32-bit load. *)
Definition load_and_swap_u32 (mem : GuestMemory) (addr : Z) : Z :=
  Z.lor (Z.shiftl (guest_byte mem addr) 24)
    (Z.lor (Z.shiftl (guest_byte mem (addr + 1)) 16)
       (Z.lor (Z.shiftl (guest_byte mem (addr + 2)) 8)
              (guest_byte mem (addr + 3)))).

(** [memory::store_and_swap<uint32_t>]: a big-endian 32-bit store. *)
Definition store_and_swap_u32 (mem : GuestMemory) (addr value : Z)
    : GuestMemory :=
  <[addr := Z.land (Z.shiftr value 24) 0xFF]>
    (<[addr + 1 := Z.land (Z.shiftr value 16) 0xFF]>
       (<[addr + 2 := Z.land (Z.shiftr value 8) 0xFF]>
          (<[addr + 3 := Z.land value 0xFF]> mem))).

(** The TLS fields of an [XThread]. *)
Record ThreadTLS := mkThreadTLS {
  tls_total_size_ : Z;
  tls_dynamic_address_ : Z
}.

(** [XThread::GetTLSValue(slot, value_out)]: [None] is [return false],
    [Some v] is [return true] with [*value_out = v]. *)
Definition XThread_GetTLSValue (t : ThreadTLS) (mem : GuestMemory)
    (slot : Z) : option Z :=
  if tls_total_size_ t <? Int.u32 (slot * 4) then None
  else Some (load_and_swap_u32 mem
               (Int.u32 (tls_dynamic_address_ t + Int.u32 (slot * 4)))).

(** [XThread::SetTLSValue(slot, value)]: the returned flag and the memory
    afterwards. *)
Definition XThread_SetTLSValue (t : ThreadTLS) (mem : GuestMemory)
    (slot value : Z) : bool * GuestMemory :=
  if tls_total_size_ t <=? Int.u32 (slot * 4) then (false, mem)
  else (true,
        store_and_swap_u32 mem
          (Int.u32 (tls_dynamic_address_ t + Int.u32 (slot * 4))) value).

Inductive X_STATUS := X_STATUS_SUCCESS | X_STATUS_USER_APC.

Inductive SleepResult := kSuccess | kAlerted.

(** What one call of [Delay] does besides returning a status. *)
Record DelayEffects := mkDelayEffects {
  assert_always_hit : bool;   (* [assert_always()] was reached *)
  alertable_sleep : bool;     (* [AlertableSleep] rather than [Sleep] *)
  sleep_ms : Z                (* the duration handed to the sleep *)
}.

Section Delay.

(** [chrono::Clock::ScaleGuestDurationMillis] and
    [rex::thread::AlertableSleep] belong to files that are not among the
    sources: the clock scaling and the outcome of the host sleep are
    taken as given. *)
Variable ScaleGuestDurationMillis : Z -> Z.
Variable AlertableSleep : Z -> SleepResult.

(** [XThread::Delay(processor_mode, alertable, interval)]. *)
Definition XThread_Delay (processor_mode alertable interval : Z)
    : X_STATUS * DelayEffects :=
  let timeout_ticks := Int.s64 interval in
  let '(asserted, timeout_ms) :=
    if 0 <? timeout_ticks then
      (* Absolute time, based on January 1, 1601.
         TODO: convert time to relative time. *)
      (true, 0)
    else if timeout_ticks <? 0 then
      (* Relative time. Ticks -> MS *)
      (false, Int.u32 (Z.quot (Int.s64 (- timeout_ticks)) 10000))
    else (false, 0) in
  let timeout_ms := ScaleGuestDurationMillis timeout_ms in
  if negb (alertable =? 0) then
    match AlertableSleep timeout_ms with
    | kAlerted => (X_STATUS_USER_APC, mkDelayEffects asserted true timeout_ms)
    | kSuccess => (X_STATUS_SUCCESS, mkDelayEffects asserted true timeout_ms)
    end
  else (X_STATUS_SUCCESS, mkDelayEffects asserted false timeout_ms).

End Delay.

(* ================================================================== *)
(** ** logical.cpp: the other logical, rotate and shift builders *)
(* ================================================================== *)

(** [build_and]. *)
Definition build_and : Emit bool :=
  o0 ← operand 0; o1 ← operand 1; o2 ← operand 2;
  rA ← ctx_r o0; rS ← ctx_r o1; rB ← ctx_r o2;
  println (TAB +:+ rA +:+ ".u64 = " +:+ rS +:+ ".u64 & " +:+ rB +:+ ".u64;");;
  emitRecordFormCompare;;
  mret true.

(** [build_andc]. *)
Definition build_andc : Emit bool :=
  o0 ← operand 0; o1 ← operand 1; o2 ← operand 2;
  rA ← ctx_r o0; rS ← ctx_r o1; rB ← ctx_r o2;
  println (TAB +:+ rA +:+ ".u64 = " +:+ rS +:+ ".u64 & ~" +:+ rB +:+ ".u64;");;
  emitRecordFormCompare;;
  mret true.

(** [build_andi]: ANDI. always sets CR0. *)
Definition build_andi : Emit bool :=
  o0 ← operand 0; o1 ← operand 1; o2 ← operand 2;
  rA ← ctx_r o0; rS ← ctx_r o1;
  println (TAB +:+ rA +:+ ".u64 = " +:+ rS +:+ ".u64 & " +:+ Fmt.dec o2 +:+ ";");;
  c ← ctx_cr 0; rA' ← ctx_r o0; x ← ctx_xer;
  println (TAB +:+ c +:+ ".compare<int32_t>(" +:+ rA' +:+ ".s32, 0, " +:+ x +:+ ");");;
  mret true.

(** [build_andis]: ANDIS. always sets CR0. *)
Definition build_andis : Emit bool :=
  o0 ← operand 0; o1 ← operand 1; o2 ← operand 2;
  rA ← ctx_r o0; rS ← ctx_r o1;
  println (TAB +:+ rA +:+ ".u64 = " +:+ rS +:+ ".u64 & "
           +:+ Fmt.dec (Int.shl32 o2 16) +:+ ";");;
  c ← ctx_cr 0; rA' ← ctx_r o0; x ← ctx_xer;
  println (TAB +:+ c +:+ ".compare<int32_t>(" +:+ rA' +:+ ".s32, 0, " +:+ x +:+ ");");;
  mret true.

(** [build_nand]. *)
Definition build_nand : Emit bool :=
  o0 ← operand 0; o1 ← operand 1; o2 ← operand 2;
  rA ← ctx_r o0; rS ← ctx_r o1; rB ← ctx_r o2;
  println (TAB +:+ rA +:+ ".u64 = ~(" +:+ rS +:+ ".u64 & " +:+ rB +:+ ".u64);");;
  mret true.

(** [build_nor]. *)
Definition build_nor : Emit bool :=
  o0 ← operand 0; o1 ← operand 1; o2 ← operand 2;
  rA ← ctx_r o0; rS ← ctx_r o1; rB ← ctx_r o2;
  println (TAB +:+ rA +:+ ".u64 = ~(" +:+ rS +:+ ".u64 | " +:+ rB +:+ ".u64);");;
  mret true.

(** [build_not]. *)
Definition build_not : Emit bool :=
  o0 ← operand 0; o1 ← operand 1;
  rA ← ctx_r o0; rS ← ctx_r o1;
  println (TAB +:+ rA +:+ ".u64 = ~" +:+ rS +:+ ".u64;");;
  emitRecordFormCompare;;
  mret true.

(** [build_or]: the MMIO-base flag of the destination becomes the
    disjunction of the source flags (this covers [mr rD, rS], which
    assembles as [or rD, rS, rS]). *)
Definition build_or : Emit bool :=
  o0 ← operand 0; o1 ← operand 1; o2 ← operand 2;
  rA ← ctx_r o0; rS ← ctx_r o1; rB ← ctx_r o2;
  println (TAB +:+ rA +:+ ".u64 = " +:+ rS +:+ ".u64 | " +:+ rB +:+ ".u64;");;
  emitRecordFormCompare;;
  m1 ← is_mmio_base o1;
  m2 ← is_mmio_base o2;
  (if (m1 : bool) || m2 then set_mmio_base o0 else clear_mmio_base o0);;
  mret true.

(** [build_orc]. *)
Definition build_orc : Emit bool :=
  o0 ← operand 0; o1 ← operand 1; o2 ← operand 2;
  rA ← ctx_r o0; rS ← ctx_r o1; rB ← ctx_r o2;
  println (TAB +:+ rA +:+ ".u64 = " +:+ rS +:+ ".u64 | ~" +:+ rB +:+ ".u64;");;
  mret true.

(** [build_ori]: only low bits are set, the MMIO-base flag follows the
    source. *)
Definition build_ori : Emit bool :=
  o0 ← operand 0; o1 ← operand 1; o2 ← operand 2;
  rA ← ctx_r o0; rS ← ctx_r o1;
  println (TAB +:+ rA +:+ ".u64 = " +:+ rS +:+ ".u64 | " +:+ Fmt.dec o2 +:+ ";");;
  m ← is_mmio_base o1;
  (if (m : bool) then set_mmio_base o0 else clear_mmio_base o0);;
  mret true.

(** [build_oris]: the flag is set for an MMIO immediate and never
    cleared. *)
Definition build_oris : Emit bool :=
  o2 ← operand 2;
  let imm := Int.u32 o2 in
  dest_reg ← operand 0;
  o1 ← operand 1;
  rA ← ctx_r dest_reg; rS ← ctx_r o1;
  println (TAB +:+ rA +:+ ".u64 = " +:+ rS +:+ ".u64 | "
           +:+ Fmt.dec (Int.shl32 imm 16) +:+ ";");;
  (if isMMIOUpperBits imm then set_mmio_base dest_reg else mret tt);;
  mret true.

(** [build_xor]. *)
Definition build_xor : Emit bool :=
  o0 ← operand 0; o1 ← operand 1; o2 ← operand 2;
  rA ← ctx_r o0; rS ← ctx_r o1; rB ← ctx_r o2;
  println (TAB +:+ rA +:+ ".u64 = " +:+ rS +:+ ".u64 ^ " +:+ rB +:+ ".u64;");;
  emitRecordFormCompare;;
  mret true.

(** [build_xori]. *)
Definition build_xori : Emit bool :=
  o0 ← operand 0; o1 ← operand 1; o2 ← operand 2;
  rA ← ctx_r o0; rS ← ctx_r o1;
  println (TAB +:+ rA +:+ ".u64 = " +:+ rS +:+ ".u64 ^ " +:+ Fmt.dec o2 +:+ ";");;
  mret true.

(** [build_xoris]. *)
Definition build_xoris : Emit bool :=
  o0 ← operand 0; o1 ← operand 1; o2 ← operand 2;
  rA ← ctx_r o0; rS ← ctx_r o1;
  println (TAB +:+ rA +:+ ".u64 = " +:+ rS +:+ ".u64 ^ "
           +:+ Fmt.dec (Int.shl32 o2 16) +:+ ";");;
  mret true.

(** [build_eqv]. *)
Definition build_eqv : Emit bool :=
  o0 ← operand 0; o1 ← operand 1; o2 ← operand 2;
  rA ← ctx_r o0; rS ← ctx_r o1; rB ← ctx_r o2;
  println (TAB +:+ rA +:+ ".u64 = ~(" +:+ rS +:+ ".u64 ^ " +:+ rB +:+ ".u64);");;
  emitRecordFormCompare;;
  mret true.

(** The logical builders of [logical.cpp] that never touch the MMIO-base
    flags. *)
Definition flag_neutral_builders : list Builder :=
  [build_and; build_andc; build_andi; build_andis; build_nand; build_nor;
   build_not; build_orc; build_xor; build_xori; build_xoris; build_eqv].

(** The mask [build_clrlwi] prints: [(1ull << (32 - n)) - 1]. *)
Definition clrlwi_mask (n : Z) : Z :=
  Int.u64 (Int.shl64 1 (Int.u32 (32 - n)) - 1).

(** [build_clrlwi]. *)
Definition build_clrlwi : Emit bool :=
  o0 ← operand 0; o1 ← operand 1; o2 ← operand 2;
  rA ← ctx_r o0; rS ← ctx_r o1;
  println (TAB +:+ rA +:+ ".u64 = " +:+ rS +:+ ".u32 & 0x"
           +:+ Fmt.hex (clrlwi_mask o2) +:+ ";");;
  emitRecordFormCompare;;
  mret true.

(** [build_rldicl]. *)
Definition build_rldicl : Emit bool :=
  o0 ← operand 0; o1 ← operand 1; o2 ← operand 2; o3 ← operand 3;
  rA ← ctx_r o0; rS ← ctx_r o1;
  println (TAB +:+ rA +:+ ".u64 = __builtin_rotateleft64(" +:+ rS +:+ ".u64, "
           +:+ Fmt.dec o2 +:+ ") & 0x" +:+ Fmt.hex (compute_mask o3 63) +:+ ";");;
  mret true.

(** [build_rldicr]. *)
Definition build_rldicr : Emit bool :=
  o0 ← operand 0; o1 ← operand 1; o2 ← operand 2; o3 ← operand 3;
  rA ← ctx_r o0; rS ← ctx_r o1;
  println (TAB +:+ rA +:+ ".u64 = __builtin_rotateleft64(" +:+ rS +:+ ".u64, "
           +:+ Fmt.dec o2 +:+ ") & 0x" +:+ Fmt.hex (compute_mask 0 o3) +:+ ";");;
  mret true.

(** The insert mask of [build_rldimi]:
    [compute_mask(operands[3], ~operands[2])], the complement taken on
    the 32-bit operand. *)
Definition rldimi_mask (mb sh : Z) : Z :=
  compute_mask mb (Int.u32 (Z.lnot sh)).

(** [build_rldimi]. *)
Definition build_rldimi : Emit bool :=
  o0 ← operand 0; o1 ← operand 1; o2 ← operand 2; o3 ← operand 3;
  let mask := rldimi_mask o3 o2 in
  rA ← ctx_r o0; rS ← ctx_r o1; rA' ← ctx_r o0;
  println (TAB +:+ rA +:+ ".u64 = (__builtin_rotateleft64(" +:+ rS +:+ ".u64, "
           +:+ Fmt.dec o2 +:+ ") & 0x" +:+ Fmt.hex mask +:+ ") | ("
           +:+ rA' +:+ ".u64 & 0x" +:+ Fmt.hex (Int.not64 mask) +:+ ");");;
  mret true.

(** [build_rlwimi]. *)
Definition build_rlwimi : Emit bool :=
  o0 ← operand 0; o1 ← operand 1; o2 ← operand 2;
  o3 ← operand 3; o4 ← operand 4;
  let mask := compute_mask (Int.u32 (o3 + 32)) (Int.u32 (o4 + 32)) in
  rA ← ctx_r o0; rS ← ctx_r o1; rA' ← ctx_r o0;
  println (TAB +:+ rA +:+ ".u64 = (__builtin_rotateleft32(" +:+ rS +:+ ".u32, "
           +:+ Fmt.dec o2 +:+ ") & 0x" +:+ Fmt.hex mask +:+ ") | ("
           +:+ rA' +:+ ".u64 & 0x" +:+ Fmt.hex (Int.not64 mask) +:+ ");");;
  mret true.

(** The carry mask of [build_sradi] and [build_srawi]:
    [compute_mask(64 - operands[2], 63)]. *)
Definition shift_out_mask (sh : Z) : Z :=
  compute_mask (Int.u32 (64 - sh)) 63.

(** [build_srawi]. *)
Definition build_srawi : Emit bool :=
  o0 ← operand 0; o1 ← operand 1; o2 ← operand 2;
  (if negb (o2 =? 0) then
     x ← ctx_xer; rS ← ctx_r o1; rS' ← ctx_r o1;
     println (TAB +:+ x +:+ ".ca = (" +:+ rS +:+ ".s32 < 0) & ((" +:+ rS'
              +:+ ".u32 & 0x" +:+ Fmt.hex (shift_out_mask o2) +:+ ") != 0);");;
     rA ← ctx_r o0; rS'' ← ctx_r o1;
     println (TAB +:+ rA +:+ ".s64 = " +:+ rS'' +:+ ".s32 >> " +:+ Fmt.dec o2 +:+ ";")
   else
     x ← ctx_xer;
     println (TAB +:+ x +:+ ".ca = 0;");;
     rA ← ctx_r o0; rS ← ctx_r o1;
     println (TAB +:+ rA +:+ ".s64 = " +:+ rS +:+ ".s32;"));;
  emitRecordFormCompare;;
  mret true.

(** [build_sradi]. *)
Definition build_sradi : Emit bool :=
  o0 ← operand 0; o1 ← operand 1; o2 ← operand 2;
  (if negb (o2 =? 0) then
     x ← ctx_xer; rS ← ctx_r o1; rS' ← ctx_r o1;
     println (TAB +:+ x +:+ ".ca = (" +:+ rS +:+ ".s64 < 0) & ((" +:+ rS'
              +:+ ".u64 & 0x" +:+ Fmt.hex (shift_out_mask o2) +:+ ") != 0);");;
     rA ← ctx_r o0; rS'' ← ctx_r o1;
     println (TAB +:+ rA +:+ ".s64 = " +:+ rS'' +:+ ".s64 >> " +:+ Fmt.dec o2 +:+ ";")
   else
     x ← ctx_xer;
     println (TAB +:+ x +:+ ".ca = 0;");;
     rA ← ctx_r o0; rS ← ctx_r o1;
     println (TAB +:+ rA +:+ ".s64 = " +:+ rS +:+ ".s64;"));;
  mret true.

(** The expressions [build_clrlwi], [build_rldicl] and [build_rldicr]
    write. *)
Definition clrlwi_expr (rS : string) (n : Z) : HExpr :=
  HAnd (HU32 rS) (HHex (clrlwi_mask n)).

Definition rldic_expr (rS : string) (sh m : Z) : HExpr :=
  HAnd (HRotl64 (HU64 rS) (HDec sh)) (HHex m).

(** The MMIO-base flag of a register, as [is_mmio_base] reads it. *)
Definition mmio_flag (c : BuilderContext) (reg : Z) : bool :=
  result (is_mmio_base reg) c.

(* ================================================================== *)
(** ** recompiler.cpp: the late jump-table pattern check *)
(* ================================================================== *)

(** The constants of the pattern check: the mask leaves out bits 21..25,
    where the source register of [mtctr] is encoded. *)
Definition MTCTR_MASK : Z := 0xFC1FFFFF.
Definition MTCTR_OPCODE : Z := 0x7C0003A6.
Definition NOP : Z := 0x60000000.

(** [(prev_insn & MTCTR_MASK) == MTCTR_OPCODE]. *)
Definition is_mtctr (w : Z) : bool := Z.land w MTCTR_MASK =? MTCTR_OPCODE.

(** The inner loop [for (j; j < i; j++)] with [n] iterations left: all
    words at distance [j], [j + 1], ... before the [bctr] are nops.
    [prev k] is [load_and_swap<uint32_t>(data - k)]. *)
Fixpoint nops_between (prev : Z -> Z) (j : Z) (n : nat) : bool :=
  match n with
  | O => true
  | S n' => if negb (prev j =? NOP) then false else nops_between prev (j + 1) n'
  end.

(** The outer loop [for (i; i <= 3 && !is_switch_pattern; i++)] with [n]
    iterations left and [is_switch_pattern] still false. *)
Fixpoint scan_for_mtctr (prev : Z -> Z) (i : Z) (n : nat) : bool :=
  match n with
  | O => false
  | S n' =>
      let prev_insn := prev i in
      if is_mtctr prev_insn then
        (* Found mtctr - verify all instructions between are nops *)
        if nops_between prev 1 (Z.to_nat (i - 1)) then true
        else scan_for_mtctr prev (i + 1) n'
      else if negb (prev_insn =? NOP) then false
      else scan_for_mtctr prev (i + 1) n'
  end.

(** [is_switch_pattern] as [Recompiler::recompile] computes it before a
    [bctr] without a bound table. *)
Definition is_switch_pattern (prev : Z -> Z) : bool :=
  scan_for_mtctr prev 1 3.

(* ================================================================== *)
(** ** xthread.cpp: stack, TLS block, priority, processor number *)
(* ================================================================== *)

(** What [AllocateStack] leaves in the thread, with the two ranges it
    protects as guard pages. *)
Record StackFields := mkStackFields {
  stack_alloc_base_ : Z;
  stack_alloc_size_ : Z;
  stack_limit_ : Z;
  stack_base_ : Z;
  guard_ranges : list (Z * Z)      (* (address, size) given to Protect *)
}.

Section Stack.

(** [rex::round_up] is declared in [rex/math.h] and the heap in the memory
    subsystem; neither is among the sources. The rounding function, the
    page size of the stack heap and the outcome of [AllocRange] (the
    address on success) are arguments. *)
Variable round_up : Z -> Z -> Z.
Variable page_size : Z.
Variable AllocRange : Z -> Z -> option Z.

(** [XThread::AllocateStack(size)]: [None] is [return false]. *)
Definition XThread_AllocateStack (size : Z) : option StackFields :=
  let alignment := page_size in
  let padding := Int.u32 (page_size * 2) in   (* Guard page size * 2 *)
  let size := Int.u32 (round_up size alignment) in
  let actual_size := Int.u32 (size + padding) in
  match AllocRange actual_size alignment with
  | None => None
  | Some address =>
      let limit := Int.u32 (address + padding / 2) in
      let base := Int.u32 (limit + size) in
      Some (mkStackFields address actual_size limit base
              [(address, padding / 2); (base, padding / 2)])
  end.

(** The stack part of [XThread::Create] on the thread the constructor
    built. *)
Definition Create_stack (p : CreationParams) : option StackFields :=
  XThread_AllocateStack (Create_stack_request p).

End Stack.

(** The TLS block of a thread: its start and the fields the slot
    accessors use. *)
Record TLSBlock := mkTLSBlock {
  tls_static_address_ : Z;
  tls_fields : ThreadTLS
}.

Definition kDefaultTlsSlotCount : Z := 1024.

(** The slot count and the size of the extended data [XThread::Create]
    takes from the optional TLS header [(slot_count, data_size)] of the
    executable. *)
Definition tls_slots_and_extended (tls_header : option (Z * Z)) : Z * Z :=
  match tls_header with
  | Some (slot_count, data_size) =>
      if negb (slot_count =? 0) then (slot_count, data_size)
      else (kDefaultTlsSlotCount, 0)
  | None => (kDefaultTlsSlotCount, 0)
  end.

(** The TLS part of [XThread::Create]: [SystemHeapAlloc] is given as the
    address it returns for a size (0 on failure); [None] is
    [X_STATUS_NO_MEMORY]. *)
Definition Create_tls (tls_header : option (Z * Z))
    (SystemHeapAlloc : Z -> Z) : option TLSBlock :=
  let '(tls_slots, tls_extended_size) := tls_slots_and_extended tls_header in
  let tls_slot_size := Int.u32 (tls_slots * 4) in
  let total := Int.u32 (tls_slot_size + tls_extended_size) in
  let static := SystemHeapAlloc total in
  let dynamic := Int.u32 (static + tls_extended_size) in
  if static =? 0 then None
  else Some (mkTLSBlock static (mkThreadTLS total dynamic)).

(** [rex::thread::ThreadPriority], lowest first. *)
Inductive ThreadPriority :=
  | kLowest | kBelowNormal | kNormal | kAboveNormal | kHighest.

Definition priority_rank (p : ThreadPriority) : Z :=
  match p with
  | kLowest => -2 | kBelowNormal => -1 | kNormal => 0
  | kAboveNormal => 1 | kHighest => 2
  end.

(** The host band [XThread::SetPriority] selects for an increment. *)
Definition target_priority (increment : Z) : ThreadPriority :=
  if 0x22 <? increment then kHighest
  else if 0x11 <? increment then kAboveNormal
  else if increment <? - 0x22 then kLowest
  else if increment <? - 0x11 then kBelowNormal
  else kNormal.

(** [XThread::SetPriority(increment)]: the value stored in [priority_] and
    the band handed to the host thread, if any. *)
Definition XThread_SetPriority (ignore_thread_priorities : bool)
    (increment : Z) : Z * option ThreadPriority :=
  (increment,
   if negb ignore_thread_priorities then Some (target_priority increment)
   else None).

Section FakeCpuNumber.

(** [rex::lzcnt] is declared in [rex/math.h], which is not among the
    sources: the function is an argument. *)
Variable lzcnt : Z -> Z.

(** [GetFakeCpuNumber(proc_mask)] over the static [next_cpu]: the
    processor number, the new [next_cpu], and whether the three
    assertions of the function hold. *)
Definition GetFakeCpuNumber (next_cpu proc_mask : Z) : Z * Z * bool :=
  if proc_mask =? 0 then
    let next_cpu := ((next_cpu + 1) mod 6) mod 256 in
    (next_cpu, next_cpu, true)
  else
    let cpu_number := (7 - lzcnt proc_mask) mod 256 in
    (cpu_number, next_cpu,
     (Z.land proc_mask 0xC0 =? 0)
     && (Z.shiftl 1 cpu_number =? proc_mask)
     && (cpu_number <? 6)).

End FakeCpuNumber.

(* ================================================================== *)
(** ** chrono.h: the NT system clock *)
(* ================================================================== *)

(** A time point of [NtSystemClock] is its count of 100 ns ticks since
    1601-01-01, an [int64_t]. *)

(** [NtSystemClock::from_file_time(uint64_t)]. *)
Definition from_file_time (ft : Z) : Z := Int.s64 ft.

(** [NtSystemClock::to_file_time(time_point)]. *)
Definition to_file_time (tp : Z) : Z := Int.u64 tp.

(** [sys_days(year / month / day)] of the standard library: the days from
    1970-01-01 to the given date of the proleptic Gregorian calendar. *)
Definition days_from_civil (y m d : Z) : Z :=
  let y := if m <=? 2 then y - 1 else y in
  let era := (if 0 <=? y then y else y - 399) / 400 in
  let yoe := y - era * 400 in
  let doy := (153 * (m + (if 2 <? m then -3 else 9)) + 2) / 5 + d - 1 in
  let doe := yoe * 365 + yoe / 4 - yoe / 100 + doy in
  era * 146097 + doe - 719468.

(** [NtSystemClock::unix_epoch_delta()], in seconds. *)
Definition unix_epoch_delta : Z :=
  days_from_civil 1601 1 1 * 86400 - days_from_civil 1970 1 1 * 86400.

(** [duration_cast] / [time_point_cast] of the standard library between
    tick rates given in ticks per second: the count is scaled and
    truncated toward zero. *)
Definition duration_cast (from_hz to_hz count : Z) : Z :=
  Int.s64 (Z.quot (count * to_hz) from_hz).

Definition NT_HZ : Z := 10000000.

Section SystemClock.

(** The tick rate of [std::chrono::system_clock] is the platform's
    choice. *)
Variable sys_hz : Z.

(** [NtSystemClock::to_sys(tp)] (host domain). *)
Definition to_sys (tp : Z) : Z :=
  let dp := Int.s64 (tp + duration_cast 1 NT_HZ unix_epoch_delta) in
  duration_cast NT_HZ sys_hz dp.

(** [NtSystemClock::from_sys(tp)] (host domain). *)
Definition from_sys (tp : Z) : Z :=
  let ctp := duration_cast sys_hz NT_HZ tp in
  Int.s64 (ctp - duration_cast 1 NT_HZ unix_epoch_delta).

End SystemClock.

(* ================================================================== *)
(** ** string.cpp: trimming *)
(* ================================================================== *)

(** A [std::string_view] as its characters. *)
Abbreviation string_view := (list ascii).

(** [chars.find(c) != npos]. *)
Definition in_chars (chars : string_view) (c : ascii) : bool :=
  existsb (Ascii.eqb c) chars.

(** [sv.find_first_not_of(chars)]; [None] is [npos]. *)
Fixpoint find_first_not_of (sv chars : string_view) : option nat :=
  match sv with
  | [] => None
  | c :: rest =>
      if in_chars chars c then
        match find_first_not_of rest chars with
        | Some i => Some (S i)
        | None => None
        end
      else Some 0%nat
  end.

(** [sv.find_last_not_of(chars)]; [None] is [npos]. *)
Fixpoint find_last_not_of (sv chars : string_view) : option nat :=
  match sv with
  | [] => None
  | c :: rest =>
      match find_last_not_of rest chars with
      | Some i => Some (S i)
      | None => if in_chars chars c then None else Some 0%nat
      end
  end.

(** [trim_left(sv, chars)]. *)
Definition trim_left (sv chars : string_view) : string_view :=
  match find_first_not_of sv chars with
  | None => []
  | Some start => drop start sv
  end.

(** [trim_right(sv, chars)]. *)
Definition trim_right (sv chars : string_view) : string_view :=
  match find_last_not_of sv chars with
  | None => []
  | Some last => take (last + 1) sv
  end.

(** [trim(sv, chars)]. *)
Definition trim (sv chars : string_view) : string_view :=
  trim_right (trim_left sv chars) chars.

(** A view neither starts nor ends with a character of [chars]. *)
Definition clean_ends (sv chars : string_view) : Prop :=
  (forall c, head sv = Some c -> in_chars chars c = false) /\
  (forall c, last sv = Some c -> in_chars chars c = false).


(* ================================================================== *)
(** ** helpers.h: the trap helper *)
(* ================================================================== *)

(** [s.empty()]. *)
Definition str_empty (s : string) : bool :=
  match s with EmptyString => true | String _ _ => false end.

(** The [add] lambda of [emitTrap]: appends one comparison to the
    condition, after a separator when the condition is not empty. *)
Definition trap_add (cond c : string) : string :=
  (if negb (str_empty cond) then cond +:+ " || " else cond) +:+ c.

(** The condition [emitTrap] builds from the TO field. *)
Definition trap_cond (to : Z) (aSigned aUnsigned bSigned bUnsigned : string)
    : string :=
  let cond := EmptyString in
  let cond := if negb (Z.land to 0x10 =? 0)
              then trap_add cond (aSigned +:+ " < " +:+ bSigned) else cond in
  let cond := if negb (Z.land to 0x08 =? 0)
              then trap_add cond (aSigned +:+ " > " +:+ bSigned) else cond in
  let cond := if negb (Z.land to 0x04 =? 0)
              then trap_add cond (aSigned +:+ " == " +:+ bSigned) else cond in
  let cond := if negb (Z.land to 0x02 =? 0)
              then trap_add cond (aUnsigned +:+ " < " +:+ bUnsigned) else cond in
  let cond := if negb (Z.land to 0x01 =? 0)
              then trap_add cond (aUnsigned +:+ " > " +:+ bUnsigned) else cond in
  cond.

(** [emitTrap(ctx, to, aSigned, aUnsigned, bSigned, bUnsigned)]. *)
Definition emitTrap (to : Z) (aSigned aUnsigned bSigned bUnsigned : string)
    : Emit unit :=
  if to =? 0 then mret tt
  else if to =? 0x1F then println (TAB +:+ "ppc_trap(ctx, base, 0);")
  else println (TAB +:+ "if ("
                +:+ trap_cond to aSigned aUnsigned bSigned bUnsigned
                +:+ ") ppc_trap(ctx, base, 0);").

(** The comparisons of an emitted trap condition and the statement they
    stand in. *)
Inductive TrapCmp := SignedLt | SignedGt | SignedEq | UnsignedLt | UnsignedGt.

Inductive TrapStmt :=
  | TrapNever
  | TrapAlways
  | TrapIf (terms : list TrapCmp).

Definition render_trap_cmp (aSigned aUnsigned bSigned bUnsigned : string)
    (t : TrapCmp) : string :=
  match t with
  | SignedLt => aSigned +:+ " < " +:+ bSigned
  | SignedGt => aSigned +:+ " > " +:+ bSigned
  | SignedEq => aSigned +:+ " == " +:+ bSigned
  | UnsignedLt => aUnsigned +:+ " < " +:+ bUnsigned
  | UnsignedGt => aUnsigned +:+ " > " +:+ bUnsigned
  end.

Fixpoint join_or (l : list string) : string :=
  match l with
  | [] => EmptyString
  | c :: rest =>
      match rest with
      | [] => c
      | _ :: _ => c +:+ " || " +:+ join_or rest
      end
  end.

Definition render_trap (aSigned aUnsigned bSigned bUnsigned : string)
    (s : TrapStmt) : string :=
  match s with
  | TrapNever => EmptyString
  | TrapAlways => TAB +:+ "ppc_trap(ctx, base, 0);" +:+ NL
  | TrapIf terms =>
      TAB +:+ "if ("
      +:+ join_or (map (render_trap_cmp aSigned aUnsigned bSigned bUnsigned)
                       terms)
      +:+ ") ppc_trap(ctx, base, 0);" +:+ NL
  end.

(** The host evaluates a comparison on the signed and the unsigned value
    of each operand. *)
Definition eval_trap_cmp (sa sb ua ub : Z) (t : TrapCmp) : bool :=
  match t with
  | SignedLt => sa <? sb
  | SignedGt => sb <? sa
  | SignedEq => sa =? sb
  | UnsignedLt => ua <? ub
  | UnsignedGt => ub <? ua
  end.

(** Whether the emitted statement calls [ppc_trap]. *)
Definition exec_trap (sa sb ua ub : Z) (s : TrapStmt) : bool :=
  match s with
  | TrapNever => false
  | TrapAlways => true
  | TrapIf terms => existsb (eval_trap_cmp sa sb ua ub) terms
  end.

Definition trap_terms (to : Z) : list TrapCmp :=
  (if negb (Z.land to 0x10 =? 0) then [SignedLt] else [])
  ++ (if negb (Z.land to 0x08 =? 0) then [SignedGt] else [])
  ++ (if negb (Z.land to 0x04 =? 0) then [SignedEq] else [])
  ++ (if negb (Z.land to 0x02 =? 0) then [UnsignedLt] else [])
  ++ (if negb (Z.land to 0x01 =? 0) then [UnsignedGt] else []).

Definition trap_stmt (to : Z) : TrapStmt :=
  if to =? 0 then TrapNever
  else if to =? 0x1F then TrapAlways
  else TrapIf (trap_terms to).

(* ================================================================== *)
(** ** Rotate masks *)
(* ================================================================== *)

Section MaskBits.

Lemma land_0x3F_small a : 0 <= a < 64 -> Z.land a 0x3F = a.
Proof.
  intros Ha. change 0x3F with (Z.ones 6).
  rewrite Z.land_ones by lia. apply Z.mod_small. simpl. lia.
Qed.

Lemma ppc_bit_shiftr_max n p :
  0 <= n -> 0 <= p < 64 ->
  ppc_bit (Z.shiftr Int.UINT64_MAX n) p = (n <=? p).
Proof.
  intros Hn Hp. unfold ppc_bit, Int.UINT64_MAX.
  rewrite Z.shiftr_spec by lia.
  rewrite Z.testbit_ones_nonneg by lia.
  destruct (Z.leb_spec n p), (Z.ltb_spec (63 - p + n) 64); lia || reflexivity.
Qed.

Lemma ppc_bit_not64 v p :
  0 <= p < 64 -> ppc_bit (Int.not64 v) p = negb (ppc_bit v p).
Proof.
  intros Hp. unfold ppc_bit, Int.not64, Int.UINT64_MAX.
  rewrite Z.lxor_spec, Z.testbit_ones_nonneg by lia.
  replace (63 - p <? 64) with true by (symmetry; apply Z.ltb_lt; lia).
  apply xorb_true_r.
Qed.

Lemma ppc_bit_tail mstop p :
  0 <= mstop < 64 -> 0 <= p < 64 ->
  ppc_bit (if 63 <=? mstop then 0 else Z.shiftr Int.UINT64_MAX (mstop + 1)) p
  = (mstop <? p).
Proof.
  intros Hb Hp. destruct (Z.leb_spec 63 mstop).
  - unfold ppc_bit. rewrite Z.testbit_0_l. symmetry. apply Z.ltb_ge. lia.
  - rewrite ppc_bit_shiftr_max by lia.
    destruct (Z.leb_spec (mstop + 1) p), (Z.ltb_spec mstop p); lia || reflexivity.
Qed.

Lemma compute_mask_value_range a b :
  0 <= a < 64 -> 0 <= b < 64 ->
  0 <= compute_mask a b < 2 ^ 64.
Proof.
  intros Ha Hb.
  assert (Hbits : forall v, (forall i, 64 <= i -> Z.testbit v i = false) ->
                            0 <= v -> 0 <= v < 2 ^ 64).
  { intros v Hv Hnn. split; [assumption|].
    destruct (Z.eq_dec v 0) as [->|Hne]; [reflexivity|].
    apply Z.log2_lt_pow2; [lia|].
    destruct (Z.lt_ge_cases (Z.log2 v) 64) as [|Hge]; [assumption|].
    pose proof (Z.bit_log2 v ltac:(lia)) as Hlog.
    rewrite Hv in Hlog by assumption. discriminate. }
  assert (Hshr : forall n i, 0 <= n -> 64 <= i ->
                   Z.testbit (Z.shiftr Int.UINT64_MAX n) i = false).
  { intros n i Hn Hi. rewrite Z.shiftr_spec by lia.
    unfold Int.UINT64_MAX. apply Z.ones_spec_high. lia. }
  assert (Hval : forall i, 64 <= i ->
    Z.testbit (Z.lxor (Z.shiftr Int.UINT64_MAX a)
      (if 63 <=? b then 0 else Z.shiftr Int.UINT64_MAX (b + 1))) i = false).
  { intros i Hi. rewrite Z.lxor_spec, Hshr by lia.
    destruct (63 <=? b); [apply Z.testbit_0_l | rewrite Hshr by lia; reflexivity]. }
  assert (Hnn : 0 <= Z.lxor (Z.shiftr Int.UINT64_MAX a)
      (if 63 <=? b then 0 else Z.shiftr Int.UINT64_MAX (b + 1))).
  { apply Z.lxor_nonneg. unfold Int.UINT64_MAX.
    split; intros _.
    - destruct (63 <=? b); [lia|]. apply Z.shiftr_nonneg. rewrite Z.ones_equiv. simpl. lia.
    - apply Z.shiftr_nonneg. rewrite Z.ones_equiv. simpl. lia. }
  unfold compute_mask. rewrite !land_0x3F_small by lia. cbv zeta.
  destruct (a <=? b).
  - apply Hbits; assumption.
  - apply Hbits.
    + intros i Hi. unfold Int.not64. rewrite Z.lxor_spec, Hval by lia.
      unfold Int.UINT64_MAX. rewrite Z.ones_spec_high by lia. reflexivity.
    + unfold Int.not64. apply Z.lxor_nonneg. unfold Int.UINT64_MAX.
      split; intros _; [rewrite Z.ones_equiv; simpl; lia | exact Hnn].
Qed.

Lemma compute_mask_bit a b p :
  0 <= a < 64 -> 0 <= b < 64 -> 0 <= p < 64 ->
  ppc_bit (compute_mask a b) p =
    if a <=? b then (a <=? p) && (p <=? b)
    else negb ((b <? p) && (p <? a)).
Proof.
  intros Ha Hb Hp. unfold compute_mask.
  rewrite !land_0x3F_small by lia. cbv zeta.
  assert (Hv : ppc_bit (Z.lxor (Z.shiftr Int.UINT64_MAX a)
              (if 63 <=? b then 0 else Z.shiftr Int.UINT64_MAX (b + 1))) p
               = xorb (a <=? p) (b <? p)).
  { unfold ppc_bit at 1. rewrite Z.lxor_spec.
    fold (ppc_bit (Z.shiftr Int.UINT64_MAX a) p).
    fold (ppc_bit (if 63 <=? b then 0 else Z.shiftr Int.UINT64_MAX (b + 1)) p).
    rewrite ppc_bit_shiftr_max, ppc_bit_tail by lia. reflexivity. }
  destruct (Z.leb_spec a b).
  - rewrite Hv.
    destruct (Z.leb_spec a p), (Z.ltb_spec b p), (Z.leb_spec p b);
      simpl; lia || reflexivity.
  - rewrite ppc_bit_not64 by lia. rewrite Hv.
    destruct (Z.leb_spec a p), (Z.ltb_spec b p), (Z.ltb_spec p a);
      simpl; lia || reflexivity.
Qed.

End MaskBits.

(** C2: for 6-bit [a], [b] the mask is a 64-bit value whose bit [p] (counted
    from the most significant bit) is set exactly for [a <= p <= b] when
    [a <= b], and is clear exactly for [b < p < a] when [a > b]. *)
Theorem compute_mask_rotate_mask a b p :
  0 <= a < 64 -> 0 <= b < 64 -> 0 <= p < 64 ->
  0 <= compute_mask a b < 2 ^ 64 /\
  ppc_bit (compute_mask a b) p =
    if a <=? b then (a <=? p) && (p <=? b)
    else negb ((b <? p) && (p <? a)).
Proof.
  intros Ha Hb Hp. split.
  - apply compute_mask_value_range; assumption.
  - apply compute_mask_bit; assumption.
Qed.

Lemma compute_mask_rotate_mask_witness :
  (0 <= compute_mask 60 3 < 2 ^ 64 /\
   ppc_bit (compute_mask 60 3) 61 =
     if 60 <=? 3 then (60 <=? 61) && (61 <=? 3)
     else negb ((3 <? 61) && (61 <? 60))) /\
  compute_mask 60 3 = 0xF00000000000000F.
Proof.
  split.
  - apply (compute_mask_rotate_mask 60 3 61); lia.
  - reflexivity.
Defined.

(* ================================================================== *)
(** ** Output buffer lemmas *)
(* ================================================================== *)

Lemma append_assoc (s1 s2 s3 : string) :
  (s1 +:+ s2) +:+ s3 = s1 +:+ (s2 +:+ s3).
Proof.
  induction s1 as [|c s1 IH]; [reflexivity|].
  change (String c ((s1 +:+ s2) +:+ s3) = String c (s1 +:+ (s2 +:+ s3))).
  f_equal. exact IH.
Qed.

Lemma append_nil_r (s : string) : s +:+ EmptyString = s.
Proof.
  induction s as [|c s IH]; [reflexivity|].
  change (String c (s +:+ EmptyString) = String c s). f_equal. exact IH.
Qed.

(** Running a bind: the continuation runs in the context the first
    computation leaves. *)
Lemma run_bind {A B} (m : Emit A) (k : A -> Emit B) ctx :
  run (m ≫= k) ctx = run (k (result m ctx)) (run m ctx).
Proof. unfold run, result, mbind, Emit_bind. destruct (m ctx). reflexivity. Qed.

Lemma result_bind {A B} (m : Emit A) (k : A -> Emit B) ctx :
  result (m ≫= k) ctx = result (k (result m ctx)) (run m ctx).
Proof. unfold run, result, mbind, Emit_bind. destruct (m ctx). reflexivity. Qed.

Lemma out_println (s : string) (c : BuilderContext) :
  out (run (println s) c) = out c +:+ s +:+ NL.
Proof. reflexivity. Qed.

Lemma fn_println (s : string) (c : BuilderContext) :
  fn (run (println s) c) = fn c.
Proof. reflexivity. Qed.

(** Normal form of an emitted text: the builder is run, the appends are
    nested to the right, and the literal pieces are joined. *)
Ltac emit_norm :=
  cbv -[Fmt.dec Fmt.hex Fmt.hex08 Fmt.sdec compute_mask Int.u32 Int.s32
        Int.shl32 String.append Z.div Z.modulo Z.add crBitName];
  rewrite ?append_assoc;
  cbv -[Fmt.dec Fmt.hex Fmt.hex08 Fmt.sdec compute_mask Int.u32 Int.s32
        Int.shl32 Z.div Z.modulo Z.add crBitName].

(* ================================================================== *)
(** ** rlwinm *)
(* ================================================================== *)

(** With no register promoted to a local, [build_rlwinm] writes the
    assignment of [rlwinm_expr] and, for the plain (non-record) mnemonic,
    nothing else. *)
Lemma build_rlwinm_text (f : FunctionNode) (addr rD rS sh mb me : Z) :
  out (run build_rlwinm
         (start_ctx plain_config f (mkInsn "rlwinm" [rD; rS; sh; mb; me]) addr))
  = render_assign_u64 ("ctx.r" +:+ Fmt.dec rD)
      (rlwinm_expr ("ctx.r" +:+ Fmt.dec rS) sh
         (compute_mask (Int.u32 (mb + 32)) (Int.u32 (me + 32)))).
Proof. emit_norm. reflexivity. Qed.

(** C1 (as the code has it): for [rlwinm r3, r4, 8, 16, 23] the emitted
    statement computes rotl32(r4, 8) masked by compute_mask(16+32, 23+32),
    which is 0xFF00; with r4 = 0xAABBCCDD the new r3 is 0xDD00: bits 8..15
    hold 0xDD and every other bit is zero. *)
Theorem rlwinm_example (f : FunctionNode) (addr : Z) (regs : HostRegs) :
  let text :=
    out (run build_rlwinm
           (start_ctx plain_config f (mkInsn "rlwinm" [3; 4; 8; 16; 23]) addr)) in
  let e := rlwinm_expr "ctx.r4" 8 (compute_mask (16 + 32) (23 + 32)) in
  let regs' := exec_assign_u64 "ctx.r3" e (<["ctx.r4" := 0xAABBCCDD]> regs) in
  text = render_assign_u64 "ctx.r3" e /\
  compute_mask (16 + 32) (23 + 32) = 0xFF00 /\
  regs' !! "ctx.r3" =
    Some (Z.land (Int.rotl32 0xAABBCCDD 8) (compute_mask (16 + 32) (23 + 32))) /\
  regs' !! "ctx.r3" = Some 0xDD00 /\
  Z.land (Z.shiftr 0xDD00 8) 0xFF = 0xDD /\
  Z.land 0xDD00 (Int.not64 0xFF00) = 0.
Proof.
  cbv zeta. split; [reflexivity|]. split; [reflexivity|].
  assert (Hv : eval_expr (<["ctx.r4" := 0xAABBCCDD]> regs)
                 (rlwinm_expr "ctx.r4" 8 (compute_mask (16 + 32) (23 + 32)))
               = 0xDD00).
  { unfold rlwinm_expr. cbn [eval_expr]. unfold reg_value.
    rewrite lookup_insert_eq. reflexivity. }
  unfold exec_assign_u64. rewrite lookup_insert_eq, Hv.
  repeat split; reflexivity.
Qed.

(** C1 (as stated) fails: the new r3 is not 0xCC in the low byte with all
    other bits zero. *)
Lemma rlwinm_example_not_0xCC :
  let text :=
    out (run build_rlwinm
           (start_ctx plain_config (mkFunctionNode 0x1000 0x2000 [])
              (mkInsn "rlwinm" [3; 4; 8; 16; 23]) 0x1010)) in
  let e := rlwinm_expr "ctx.r4" 8 (compute_mask (16 + 32) (23 + 32)) in
  let r3 :=
    reg_value (exec_assign_u64 "ctx.r3" e {["ctx.r4" := 0xAABBCCDD]}) "ctx.r3" in
  text = render_assign_u64 "ctx.r3" e /\
  ~ (Z.land r3 0xFF = 0xCC /\ Z.land r3 (Int.not64 0xFF) = 0).
Proof.
  cbv zeta. split; [reflexivity|].
  intros [H _]. vm_compute in H. discriminate.
Qed.

(* ================================================================== *)
(** ** Individual-bit CR operations *)
(* ================================================================== *)

(** Every CR bit builder writes one assignment to the l-value of [crD]
    (field [crD / 4], bit name [crBitName (crD mod 4)]) whose right-hand
    side reads the l-values of [crA] and [crB]. *)
Lemma cr_builder_text (cfg : RecompilerConfig) (f : FunctionNode) (addr : Z)
    (i : CrInsn) (name : string) (crD crA crB : Z) :
  out (run (cr_insn_builder i)
         (start_ctx cfg f (mkInsn name [crD; crA; crB]) addr))
  = render_cr_assign (fst (fst (cr_insn_stmt cfg i crD crA crB)))
                     (snd (fst (cr_insn_stmt cfg i crD crA crB)))
                     (snd (cr_insn_stmt cfg i crD crA crB)).
Proof.
  destruct cfg as [lr [] ct xe na nv], i; emit_norm; reflexivity.
Qed.

(** For the six builders other than [creqv] the statement stores the
    instruction's function of the two source flags into the destination
    flag and changes no other flag. *)
Lemma cr_builder_sound (cfg : RecompilerConfig) (i : CrInsn)
    (crD crA crB : Z) (cr : HostCR) :
  i <> CREQV ->
  exec_cr_assign (fst (cr_bit_of cfg crD)) (snd (cr_bit_of cfg crD))
                 (snd (cr_insn_stmt cfg i crD crA crB)) cr
  = Some (<[cr_bit_of cfg crD :=
             cr_insn_function i
               (cr_flag cr (fst (cr_bit_of cfg crA)) (snd (cr_bit_of cfg crA)))
               (cr_flag cr (fst (cr_bit_of cfg crB)) (snd (cr_bit_of cfg crB)))]>
            cr).
Proof.
  intros Hi. destruct i; try congruence; reflexivity.
Qed.

(** C3 at [creqv 0, 1, 2] with CR bit 1 clear and CR bit 2 set: the
    emitted statement is the chained assignment
    [ctx.cr0.lt = ctx.cr0.gt = ctx.cr0.eq;], which stores bit 2 into both
    bit 1 and bit 0. The destination ends up set although the two source
    bits differ, and source bit 1 is overwritten. *)
Theorem creqv_chained_assignment :
  let ctx := start_ctx plain_config (mkFunctionNode 0x1000 0x2000 [])
               (mkInsn "creqv" [0; 1; 2]) 0x1010 in
  let stmt := cr_insn_stmt plain_config CREQV 0 1 2 in
  let cr : HostCR :=
    {[ ("ctx.cr0", "gt") := false; ("ctx.cr0", "eq") := true ]} in
  out (run build_creqv ctx)
    = render_cr_assign (fst (fst stmt)) (snd (fst stmt)) (snd stmt) /\
  out (run build_creqv ctx)
    = TAB +:+ "ctx.cr0.lt = ctx.cr0.gt = ctx.cr0.eq;" +:+ NL /\
  cr_insn_function CREQV (cr_flag cr "ctx.cr0" "gt") (cr_flag cr "ctx.cr0" "eq")
    = false /\
  exists cr',
    exec_cr_assign (fst (fst stmt)) (snd (fst stmt)) (snd stmt) cr = Some cr' /\
    cr_flag cr' "ctx.cr0" "lt" = true /\
    cr_flag cr "ctx.cr0" "gt" = false /\
    cr_flag cr' "ctx.cr0" "gt" = true.
Proof.
  cbv zeta. split; [reflexivity|]. split; [reflexivity|].
  split; [reflexivity|].
  eexists. split; [reflexivity|]. repeat split; reflexivity.
Qed.

(* ================================================================== *)
(** ** bctr through a jump table *)
(* ================================================================== *)

Lemma emit_switch_cases_run labels : forall i ctx,
  out (run (emit_switch_cases i labels) ctx)
    = out ctx +:+ render_cases (switch_cases (fn ctx) i labels) /\
  fn (run (emit_switch_cases i labels) ctx) = fn ctx /\
  locals (run (emit_switch_cases i labels) ctx) = locals ctx.
Proof.
  induction labels as [|label rest IH]; intros i ctx.
  - cbn. rewrite append_nil_r. auto.
  - cbn [emit_switch_cases switch_cases render_cases].
    rewrite !run_bind.
    match goal with
    | |- context [run (emit_switch_cases (i + 1) rest) ?c] => set (ctx1 := c)
    end.
    assert (H1 : out ctx1 = out ctx +:+ render_case
                (i, if outside_function (fn ctx) label
                    then CaseErrorReturn label else CaseGoto label)
                 /\ fn ctx1 = fn ctx /\ locals ctx1 = locals ctx).
    { subst ctx1. cbn [result get fst run println modify snd set_out fn].
      unfold render_case.
      destruct (outside_function (fn ctx) label); cbn [fst snd].
      - rewrite !run_bind. cbn. rewrite ?append_assoc. auto.
      - cbn. rewrite ?append_assoc. auto. }
    destruct H1 as (Ho & Hf & Hl).
    destruct (IH (i + 1) ctx1) as (Ho' & Hf' & Hl').
    rewrite Ho', Hf', Hl', Ho, Hf, Hl, append_assoc. auto.
Qed.

Lemma find_switch_cases_miss (f : FunctionNode) labels : forall i v,
  v < i \/ i + Z.of_nat (length labels) <= v ->
  List.find (fun c : Z * CaseBody => fst c =? v) (switch_cases f i labels) = None.
Proof.
  induction labels as [|label rest IH]; intros i v Hv; [reflexivity|].
  cbn [switch_cases List.find fst]. cbn [length] in Hv.
  destruct (Z.eqb_spec i v) as [->|_]; [lia|].
  apply IH. lia.
Qed.

Lemma find_switch_cases_hit (f : FunctionNode) labels : forall i (k : nat) t,
  labels !! k = Some t ->
  List.find (fun c : Z * CaseBody => fst c =? i + Z.of_nat k)
            (switch_cases f i labels)
  = Some (i + Z.of_nat k,
          if outside_function f t then CaseErrorReturn t else CaseGoto t).
Proof.
  induction labels as [|label rest IH]; intros i k t Hk; [discriminate|].
  cbn [switch_cases List.find fst]. destruct k as [|k].
  - injection Hk as ->. rewrite Z.add_0_r, Z.eqb_refl. reflexivity.
  - destruct (Z.eqb_spec i (i + Z.of_nat (S k))) as [He|_]; [lia|].
    replace (i + Z.of_nat (S k)) with ((i + 1) + Z.of_nat k) by lia.
    apply IH. exact Hk.
Qed.

Lemma ctx_r_keeps (index : Z) (ctx : BuilderContext) :
  out (run (ctx_r index) ctx) = out ctx /\
  fn (run (ctx_r index) ctx) = fn ctx.
Proof.
  unfold run, ctx_r.
  destruct (_ || _); auto.
Qed.

(** C5: a [bctr] with a bound jump table whose targets all lie inside the
    function writes a [switch] on the index register; case [i] of the
    switch jumps to the label of [targets[i]] for every [i] below the
    number of targets, and every index from that number on reaches the
    trapping default. *)
Theorem bctr_switch_dispatch (ctx : BuilderContext) (jt : JumpTable) :
  bound_jump_table ctx = Some jt ->
  Forall (fun t => outside_function (fn ctx) t = false) (targets jt) ->
  let cases := switch_cases (fn ctx) 0 (targets jt) in
  let reg := result (ctx_r (indexRegister jt)) ctx in
  result build_bctr ctx = true /\
  out (run build_bctr ctx) = out ctx +:+ render_switch reg cases /\
  (forall (i : nat) t, targets jt !! i = Some t ->
     exec_switch cases (Z.of_nat i) = OGoto t) /\
  (forall v, Z.of_nat (length (targets jt)) <= v -> exec_switch cases v = OTrap).
Proof.
  intros Hjt Hin. cbv zeta. repeat split.
  - unfold build_bctr. rewrite !result_bind. reflexivity.
  - unfold build_bctr. rewrite !run_bind.
    change (result (get bound_jump_table) ctx) with (bound_jump_table ctx).
    rewrite Hjt. rewrite !run_bind.
    change (run (get bound_jump_table) ctx) with ctx.
    change (run (mret true) ?c) with c.
    unfold reset_switch_table.
    change (out (run (modify (set_switchTable None)) ?c)) with (out c).
    destruct (ctx_r_keeps (indexRegister jt) ctx) as [Hro Hrf].
    set (ctx1 := run (ctx_r (indexRegister jt)) ctx) in *.
    set (reg := result (ctx_r (indexRegister jt)) ctx).
    rewrite !out_println.
    match goal with
    | |- context [run (emit_switch_cases 0 (targets jt)) ?c] => set (ctx2 := c)
    end.
    destruct (emit_switch_cases_run (targets jt) 0 ctx2) as (Ho & _ & _).
    rewrite Ho. subst ctx2. rewrite fn_println, out_println.
    rewrite Hro, Hrf. unfold render_switch.
    rewrite ?append_assoc. reflexivity.
  - intros i t Hi. unfold exec_switch.
    pose proof (find_switch_cases_hit (fn ctx) (targets jt) 0 i t Hi) as Hf.
    rewrite Z.add_0_l in Hf. rewrite Hf.
    rewrite Forall_forall in Hin. rewrite Hin; [reflexivity|].
    apply list_elem_of_lookup. eauto.
  - intros v Hv. unfold exec_switch.
    rewrite find_switch_cases_miss by lia. reflexivity.
Qed.

Lemma bctr_switch_dispatch_witness :
  let jt := mkJumpTable 0x1010 3 [0x1100; 0x1200; 0x1300] in
  let f := mkFunctionNode 0x1000 0x2000 [] in
  let ctx := mkCtx plain_config f (mkInsn "bctr" []) 0x1010 false no_locals
                   CSR_Unknown (Some jt) EmptyString [] in
  out (run build_bctr ctx)
    = render_switch "ctx.r3"
        [(0, CaseGoto 0x1100); (1, CaseGoto 0x1200); (2, CaseGoto 0x1300)] /\
  exec_switch (switch_cases f 0 (targets jt)) 1 = OGoto 0x1200 /\
  exec_switch (switch_cases f 0 (targets jt)) 3 = OTrap.
Proof.
  cbv zeta.
  pose proof (bctr_switch_dispatch
    (mkCtx plain_config (mkFunctionNode 0x1000 0x2000 []) (mkInsn "bctr" [])
           0x1010 false no_locals CSR_Unknown
           (Some (mkJumpTable 0x1010 3 [0x1100; 0x1200; 0x1300]))
           EmptyString [])
    (mkJumpTable 0x1010 3 [0x1100; 0x1200; 0x1300])
    eq_refl) as H.
  destruct H as (_ & Hout & Hhit & Hmiss).
  { repeat constructor. }
  split; [exact Hout|]. split.
  - exact (Hhit 1%nat 0x1200 eq_refl).
  - apply Hmiss. simpl. lia.
Defined.

(* ================================================================== *)
(** ** Branches and function bounds *)
(* ================================================================== *)

Lemma emitBranchWithBoundsCheck_out (target : Z) (cond name : string) ctx :
  out (run (emitBranchWithBoundsCheck target cond name) ctx)
  = out ctx +:+ guarded_branch_text (fn ctx) target cond.
Proof.
  unfold emitBranchWithBoundsCheck, guarded_branch_text.
  rewrite run_bind. change (result (get fn) ctx) with (fn ctx).
  change (run (get fn) ctx) with ctx.
  destruct (outside_function (fn ctx) target).
  - rewrite !run_bind, out_println. cbn. rewrite ?append_assoc. reflexivity.
  - rewrite out_println. rewrite ?append_assoc. reflexivity.
Qed.

Section BuildB.
Variable classifyTarget : Z -> Z -> bool -> TargetKind.
Variable emit_function_call : Z -> Emit unit.

Lemma build_b_out (ctx : BuilderContext) :
  let target := nth 0 (operands (insn ctx)) 0 in
  out (run (build_b classifyTarget emit_function_call) ctx) =
    match classifyTarget target (base ctx) false with
    | InternalLabel => out ctx +:+ goto_text target
    | Function | Import =>
        out (run (emit_function_call target) ctx) +:+ return_text
    | Unknown =>
        if outside_function (fn ctx) target
        then out (run (emit_function_call target)
                    (run (REXCODEGEN_WARN
                            ("Unresolved b target 0x" +:+ Fmt.hex08 target
                             +:+ " from 0x" +:+ Fmt.hex08 (base ctx))) ctx))
             +:+ return_text
        else out ctx +:+ goto_text target
    end.
Proof.
  cbv zeta. unfold build_b. rewrite !run_bind.
  change (run (mret true) ?c) with c.
  change (result (operand 0) ctx) with (nth 0 (operands (insn ctx)) 0).
  change (run (operand 0) ctx) with ctx.
  change (result (get base) ctx) with (base ctx).
  change (run (get base) ctx) with ctx.
  unfold goto_text, return_text.
  destruct (classifyTarget _ _ _).
  - rewrite out_println, ?append_assoc. reflexivity.
  - rewrite run_bind, out_println, ?append_assoc. reflexivity.
  - rewrite run_bind, out_println, ?append_assoc. reflexivity.
  - rewrite run_bind.
    change (result (get fn) ctx) with (fn ctx).
    change (run (get fn) ctx) with ctx.
    unfold outside_function.
    destruct (Z.leb_spec (fn_base (fn ctx)) (nth 0 (operands (insn ctx)) 0)),
             (Z.ltb_spec (nth 0 (operands (insn ctx)) 0) (fn_end (fn ctx)));
      cbn [andb orb].
    + replace (_ <? fn_base _) with false by (symmetry; apply Z.ltb_ge; lia).
      replace (fn_end _ <=? _) with false by (symmetry; apply Z.leb_gt; lia).
      cbn [orb]. rewrite out_println, ?append_assoc. reflexivity.
    + replace (fn_end _ <=? _) with true by (symmetry; apply Z.leb_le; lia).
      rewrite orb_true_r.
      rewrite !run_bind, out_println, ?append_assoc. reflexivity.
    + replace (_ <? fn_base _) with true by (symmetry; apply Z.ltb_lt; lia).
      cbn [orb].
      rewrite !run_bind, out_println, ?append_assoc. reflexivity.
    + replace (_ <? fn_base _) with true by (symmetry; apply Z.ltb_lt; lia).
      cbn [orb].
      rewrite !run_bind, out_println, ?append_assoc. reflexivity.
Qed.
End BuildB.

Lemma emitBranchWithBoundsCheck_log (target : Z) (cond name : string) ctx :
  log (run (emitBranchWithBoundsCheck target cond name) ctx)
  = log ctx ++ branch_warning (fn ctx) (base ctx) target name.
Proof.
  unfold emitBranchWithBoundsCheck, branch_warning.
  rewrite run_bind. change (result (get fn) ctx) with (fn ctx).
  change (run (get fn) ctx) with ctx.
  destruct (outside_function (fn ctx) target).
  - reflexivity.
  - cbn. symmetry. apply app_nil_r.
Qed.

Lemma occurs_append (c : ascii) (a b : string) :
  occurs c (a +:+ b) = occurs c a || occurs c b.
Proof.
  induction a as [|d a IH]; [reflexivity|].
  change (occurs c (String d (a +:+ b)) = occurs c (String d a) || occurs c b).
  cbn [occurs]. rewrite IH. apply orb_assoc.
Qed.

Lemma prefix_occurs (c : ascii) (needle hay : string) :
  String.prefix needle hay = true -> occurs c needle = true ->
  occurs c hay = true.
Proof.
  revert hay. induction needle as [|a needle IH]; intros hay Hp Hc.
  - discriminate Hc.
  - destruct hay as [|b hay]; [discriminate Hp|].
    cbn [String.prefix] in Hp. destruct (ascii_dec a b) as [<-|]; [|discriminate Hp].
    cbn [occurs] in Hc |- *. destruct (Ascii.eqb c a); [reflexivity|].
    cbn [orb] in Hc |- *. exact (IH hay Hp Hc).
Qed.

Lemma contains_occurs (c : ascii) (needle hay : string) :
  contains needle hay = true -> occurs c needle = true ->
  occurs c hay = true.
Proof.
  intros Hin Hc. induction hay as [|b hay IH].
  - exact (prefix_occurs c needle EmptyString Hin Hc).
  - cbn [contains] in Hin. apply orb_true_iff in Hin. destruct Hin as [Hp|Hin].
    + exact (prefix_occurs c needle (String b hay) Hp Hc).
    + cbn [occurs]. rewrite (IH Hin). apply orb_true_r.
Qed.

(** Every host call has a comma or an underscore in it. *)
Lemma no_call_without_punctuation (text : string) :
  occurs "," text = false -> occurs "_" text = false ->
  has_host_call text = false.
Proof.
  intros Hcomma Hunder. unfold has_host_call. apply orb_false_iff. split.
  - destruct (contains "(ctx, base);" text) eqn:Hin; [|reflexivity].
    rewrite (contains_occurs "," _ _ Hin eq_refl) in Hcomma. discriminate.
  - destruct (contains "PPC_CALL_INDIRECT_FUNC(" text) eqn:Hin; [|reflexivity].
    rewrite (contains_occurs "_" _ _ Hin eq_refl) in Hunder. discriminate.
Qed.

Lemma occurs_hex (c : ascii) (z : Z) :
  c = ","%char \/ c = "_"%char -> occurs c (Fmt.hex z) = false.
Proof.
  intros Hc. unfold Fmt.hex.
  generalize (N.to_hex_uint (Z.to_N z)). intros u.
  assert (Hdigits : occurs c (Fmt.map_string Fmt.upper
                                (HexadecimalString.NilEmpty.string_of_uint u))
                    = false).
  { induction u; cbn [HexadecimalString.NilEmpty.string_of_uint
                      Fmt.map_string occurs];
      rewrite ?IHu; destruct Hc as [-> | ->]; reflexivity. }
  unfold HexadecimalString.NilZero.string_of_uint.
  destruct u; try exact Hdigits. destruct Hc as [-> | ->]; reflexivity.
Qed.

Lemma occurs_dec (c : ascii) (z : Z) :
  c = ","%char \/ c = "_"%char -> occurs c (Fmt.dec z) = false.
Proof.
  intros Hc. unfold Fmt.dec.
  generalize (N.to_uint (Z.to_N z)). intros u.
  assert (Hdigits : occurs c (DecimalString.NilEmpty.string_of_uint u) = false).
  { induction u; cbn [DecimalString.NilEmpty.string_of_uint occurs];
      rewrite ?IHu; destruct Hc as [-> | ->]; reflexivity. }
  unfold DecimalString.NilZero.string_of_uint.
  destruct u; try exact Hdigits. destruct Hc as [-> | ->]; reflexivity.
Qed.

Lemma occurs_crBitName (c : ascii) (bi : Z) :
  c = ","%char \/ c = "_"%char -> occurs c (crBitName bi) = false.
Proof.
  intros Hc. unfold crBitName.
  destruct (Z.land bi 3) as [|p|p]; [| |destruct Hc as [-> | ->]; reflexivity].
  - destruct Hc as [-> | ->]; reflexivity.
  - destruct p as [p|p|]; [| |destruct Hc as [-> | ->]; reflexivity].
    + destruct Hc as [-> | ->]; reflexivity.
    + destruct p; destruct Hc as [-> | ->]; reflexivity.
Qed.

Lemma ctr_branch_text_no_call :
  Forall (fun e : CtrBranch =>
    forall (cfg : RecompilerConfig) (f : FunctionNode) (target bi : Z),
      outside_function f target = true ->
      has_host_call (ctr_branch_text cfg f target (cb_condition e cfg bi))
      = false)
    ctr_branches.
Proof.
  unfold ctr_branches.
  repeat apply Forall_cons_2; try apply Forall_nil_2;
    intros cfg f target bi Hout;
    unfold ctr_branch_text, guarded_branch_text; rewrite Hout;
    cbn [cb_condition]; unfold ctr_name, cr_name;
    destruct (ctrAsLocalVariable cfg), (crRegistersAsLocalVariables cfg);
    (apply no_call_without_punctuation;
     rewrite !occurs_append,
       ?(occurs_hex _ target), ?(occurs_dec _ (bi / 4)), ?(occurs_crBitName _ bi)
       by (first [left; reflexivity | right; reflexivity]);
     reflexivity).
Qed.

Lemma ctr_branches_effect :
  Forall (fun e : CtrBranch =>
    forall ctx,
      let target := nth (cb_target_operand e) (operands (insn ctx)) 0 in
      out (run (cb_builder e) ctx)
      = out ctx +:+ ctr_branch_text (config ctx) (fn ctx) target
                      (cb_condition e (config ctx)
                         (nth 0 (operands (insn ctx)) 0)) /\
      log (run (cb_builder e) ctx)
      = log ctx ++ branch_warning (fn ctx) (base ctx) target (cb_name e))
    ctr_branches.
Proof.
  unfold ctr_branches.
  repeat apply Forall_cons_2; try apply Forall_nil_2;
    intros [[lr crl [] xe na nv] f i b e l cs sw o lg];
    (destruct crl; cbn [cb_builder cb_name cb_target_operand cb_condition];
     unfold build_bdz, build_bdnz, build_bdnzf, build_bdnzt, build_bdzf,
       ctr_branch_text;
     rewrite !run_bind; change (run (mret true) ?c) with c;
     rewrite emitBranchWithBoundsCheck_out, emitBranchWithBoundsCheck_log;
     (split;
      [ cbn -[guarded_branch_text String.append];
        rewrite ?append_assoc; reflexivity
      | cbn -[branch_warning]; reflexivity ])).
Qed.

Section BuildBl.
Variable classifyTarget : Z -> Z -> bool -> TargetKind.
Variable emit_function_call : Z -> Emit unit.

Lemma build_bl_effect (ctx : BuilderContext) :
  let target := nth 0 (operands (insn ctx)) 0 in
  let linked := set_out (out ctx +:+ link_text (config ctx) (base ctx)) ctx in
  let ctx' := run (build_bl classifyTarget emit_function_call) ctx in
  match classifyTarget target (base ctx) true with
  | InternalLabel =>
      out ctx' = out linked +:+ goto_text target /\ log ctx' = log ctx
  | Function | Import =>
      ctx' = set_csrState CSR_Unknown (run (emit_function_call target) linked)
  | Unknown =>
      out ctx' = out linked +:+ unresolved_call_text (base ctx) target /\
      log ctx' = log ctx ++
        [(LogError, "Unresolved bl target 0x" +:+ Fmt.hex08 target
                    +:+ " from 0x" +:+ Fmt.hex08 (base ctx))]
  end.
Proof.
  cbv zeta. unfold build_bl. rewrite !run_bind.
  change (run (mret true) ?c) with c.
  change (result (operand 0) ctx) with (nth 0 (operands (insn ctx)) 0).
  change (run (operand 0) ctx) with ctx.
  change (result (get config) ctx) with (config ctx).
  change (run (get config) ctx) with ctx.
  change (result (get base) ctx) with (base ctx).
  change (run (get base) ctx) with ctx.
  set (target := nth 0 (operands (insn ctx)) 0).
  assert (Hlink : run (if negb (skipLr (config ctx))
                       then println (TAB +:+ "ctx.lr = 0x"
                                     +:+ Fmt.hex (Int.u32 (base ctx + 4)) +:+ ";")
                       else mret tt) ctx
                  = set_out (out ctx +:+ link_text (config ctx) (base ctx)) ctx).
  { unfold link_text. destruct (skipLr (config ctx)); cbn [negb].
    - rewrite append_nil_r. destruct ctx; reflexivity.
    - unfold println, modify, run. cbn [snd]. rewrite ?append_assoc.
      reflexivity. }
  rewrite Hlink.
  set (linked := set_out (out ctx +:+ link_text (config ctx) (base ctx)) ctx).
  unfold goto_text, unresolved_call_text.
  destruct (classifyTarget target (base ctx) true).
  - rewrite out_println, ?append_assoc. split; reflexivity.
  - rewrite run_bind. reflexivity.
  - rewrite run_bind. reflexivity.
  - rewrite !run_bind, !out_println, ?append_assoc. split; reflexivity.
Qed.
End BuildBl.

Lemma conditional_branch_builders_effect :
  Forall (fun bk : ((bool -> string -> Emit unit) -> Builder) * (bool * string) =>
    forall (emit_conditional_branch : bool -> string -> Emit unit)
           (ctx : BuilderContext),
      run (fst bk emit_conditional_branch) ctx
      = run (emit_conditional_branch (fst (snd bk)) (snd (snd bk))) ctx /\
      result (fst bk emit_conditional_branch) ctx = true)
    conditional_branch_builders.
Proof.
  unfold conditional_branch_builders.
  repeat apply Forall_cons_2; try apply Forall_nil_2;
    intros ecb ctx; cbn [fst snd];
    unfold build_beq, build_bne, build_blt, build_bge, build_bgt, build_ble,
      build_bso, build_bns;
    rewrite run_bind, result_bind; split; reflexivity.
Qed.



(* ================================================================== *)
(** ** Dispatch *)
(* ================================================================== *)

(** C7: an opcode identifier without an entry in the dispatch table logs
    a warning, appends the UNIMPLEMENTED comment and the
    [PPC_UNIMPLEMENTED(pc, mnemonic)] stub to the output, and returns
    true. *)
Theorem dispatch_unimplemented (table : gmap Z Builder) (id : Z)
    (ctx : BuilderContext) :
  table !! id = None ->
  let name := opcode_name (insn ctx) in
  let ctx' := run (DispatchInstruction table id) ctx in
  result (DispatchInstruction table id) ctx = true /\
  log ctx' = log ctx ++
    [(LogWarn, "Unimplemented: " +:+ name +:+ " at 0x" +:+ Fmt.hex08 (base ctx))] /\
  out ctx' = out ctx +:+
    TAB +:+ "// UNIMPLEMENTED: " +:+ name +:+ NL +:+
    TAB +:+ "PPC_UNIMPLEMENTED(0x" +:+ Fmt.hex (base ctx) +:+ ", "
        +:+ DQUOTE +:+ name +:+ DQUOTE +:+ ");" +:+ NL.
Proof.
  intros Hnone. cbv zeta. unfold DispatchInstruction. rewrite Hnone.
  cbv beta iota.
  split; [reflexivity|]. split; [reflexivity|].
  rewrite !run_bind. change (run (mret true) ?c) with c.
  rewrite !out_println. cbn [run get snd result fst].
  rewrite ?append_assoc. reflexivity.
Qed.

Lemma dispatch_unimplemented_witness :
  let table : gmap Z Builder := {[ 1 := build_lis; 2 := build_stw ]} in
  let ctx := start_ctx plain_config (mkFunctionNode 0x1000 0x2000 [])
               (mkInsn "dcbz" [0; 3]) 0x1010 in
  table !! 7 = None /\
  result (DispatchInstruction table 7) ctx = true /\
  out (run (DispatchInstruction table 7) ctx)
    = TAB +:+ "// UNIMPLEMENTED: dcbz" +:+ NL +:+
      TAB +:+ "PPC_UNIMPLEMENTED(0x1010, " +:+ DQUOTE +:+ "dcbz" +:+ DQUOTE
      +:+ ");" +:+ NL.
Proof.
  cbv zeta.
  assert (Hnone : ({[ 1 := build_lis; 2 := build_stw ]} : gmap Z Builder) !! 7
                  = None) by reflexivity.
  split; [exact Hnone|].
  destruct (dispatch_unimplemented
              ({[ 1 := build_lis; 2 := build_stw ]} : gmap Z Builder) 7
              (start_ctx plain_config (mkFunctionNode 0x1000 0x2000 [])
                 (mkInsn "dcbz" [0; 3]) 0x1010) Hnone) as (Hr & _ & Ho).
  split; [exact Hr | exact Ho].
Defined.

(* ================================================================== *)
(** ** lis and the MMIO-base flag *)
(* ================================================================== *)

Lemma isMMIOUpperBits_range (imm : Z) :
  isMMIOUpperBits imm = true <->
  (0x7FC8 <= imm <= 0x7FCF \/ imm = 0x7FEA).
Proof.
  unfold isMMIOUpperBits.
  rewrite orb_true_iff, andb_true_iff, !Z.leb_le, Z.eqb_eq. tauto.
Qed.

(** After [build_lis] the destination register is flagged as an MMIO base
    exactly when the 32-bit immediate passes [isMMIOUpperBits]: the flag
    is set in that case and cleared otherwise. *)
Lemma build_lis_flag (ctx : BuilderContext) :
  result (is_mmio_base (nth 0 (operands (insn ctx)) 0)) (run build_lis ctx)
  = isMMIOUpperBits (Int.u32 (nth 1 (operands (insn ctx)) 0)).
Proof.
  unfold build_lis. rewrite !run_bind.
  change (run (mret true) ?c) with c.
  change (result (operand 1) ctx) with (nth 1 (operands (insn ctx)) 0).
  change (run (operand 1) ctx) with ctx.
  change (result (operand 0) ctx) with (nth 0 (operands (insn ctx)) 0).
  change (run (operand 0) ctx) with ctx.
  set (d := nth 0 (operands (insn ctx)) 0).
  set (ctx1 := run (println _) _).
  destruct (isMMIOUpperBits _).
  - cbn. apply bool_decide_eq_true. set_solver.
  - cbn. apply bool_decide_eq_false.
    rewrite elem_of_difference, elem_of_singleton. tauto.
Qed.

(** C6: [lis r4, 0x7FC8] writes [ctx.r4.s64 = 2143813632;] (0x7FC80000)
    and flags r4 as an MMIO base; the [stw r5, 0(r4)] translated next
    writes [PPC_MM_STORE_U32], where after a [lis] of a non-MMIO immediate
    it writes [PPC_STORE_U32]. For every [lis], the flag of the
    destination register afterwards is [isMMIOUpperBits] of the immediate,
    which holds exactly on 0x7FC8..0x7FCF and 0x7FEA. *)
Theorem lis_marks_mmio_base (f : FunctionNode) (addr : Z) :
  let stw := next_instruction (mkInsn "stw" [5; 0; 4]) (addr + 4) false in
  let ctx1 := run build_lis (start_ctx plain_config f (mkInsn "lis" [4; 0x7FC8]) addr) in
  let ctx1' := run build_lis (start_ctx plain_config f (mkInsn "lis" [4; 0x7FC0]) addr) in
  (out ctx1 = TAB +:+ "ctx.r4.s64 = 2143813632;" +:+ NL /\
   2143813632 = 0x7FC80000 /\
   result (is_mmio_base 4) ctx1 = true /\
   out (run build_stw (stw ctx1))
     = out ctx1 +:+ TAB +:+ "PPC_MM_STORE_U32(ctx.r4.u32 + 0, ctx.r5.u32);" +:+ NL /\
   result (is_mmio_base 4) ctx1' = false /\
   out (run build_stw (stw ctx1'))
     = out ctx1' +:+ TAB +:+ "PPC_STORE_U32(ctx.r4.u32 + 0, ctx.r5.u32);" +:+ NL) /\
  (forall ctx : BuilderContext,
     result (is_mmio_base (nth 0 (operands (insn ctx)) 0)) (run build_lis ctx)
     = isMMIOUpperBits (Int.u32 (nth 1 (operands (insn ctx)) 0))) /\
  (forall imm : Z,
     isMMIOUpperBits imm = true <-> (0x7FC8 <= imm <= 0x7FCF \/ imm = 0x7FEA)).
Proof.
  cbv zeta. split; [|split].
  - repeat split; reflexivity.
  - exact build_lis_flag.
  - exact isMMIOUpperBits_range.
Qed.

(* ================================================================== *)
(** ** Guest thread: stack size, TLS slots, Delay *)
(* ================================================================== *)

(** [SetTLSValue] succeeds exactly for [slot * 4 < tls_total_size_],
    [GetTLSValue] exactly for [slot * 4 <= tls_total_size_] (the product
    taken in 32 bits). *)
Lemma tls_bounds_checks (t : ThreadTLS) (mem : GuestMemory) (slot value : Z) :
  (fst (XThread_SetTLSValue t mem slot value) = true
     <-> Int.u32 (slot * 4) < tls_total_size_ t) /\
  (is_Some (XThread_GetTLSValue t mem slot)
     <-> Int.u32 (slot * 4) <= tls_total_size_ t).
Proof.
  unfold XThread_SetTLSValue, XThread_GetTLSValue. split.
  - destruct (Z.leb_spec (tls_total_size_ t) (Int.u32 (slot * 4))); cbn [fst];
      split; intros; lia || discriminate || reflexivity.
  - destruct (Z.ltb_spec (tls_total_size_ t) (Int.u32 (slot * 4)));
      split; intros H'; try lia; try (eexists; reflexivity).
    destruct H' as [v Hv]. discriminate.
Qed.

(** C9 at slot 1024 of the default 1024-slot (4096-byte) TLS block:
    [SetTLSValue] rejects the slot, [GetTLSValue] accepts it and reads the
    four bytes that follow the block. *)
Theorem tls_get_accepts_slot_past_end (mem : GuestMemory) :
  let t := mkThreadTLS 4096 0x40001000 in
  Int.u32 (1024 * 4) = tls_total_size_ t /\
  XThread_SetTLSValue t mem 1024 0xDEADBEEF = (false, mem) /\
  XThread_GetTLSValue t mem 1024
    = Some (load_and_swap_u32 mem (0x40001000 + 4096)).
Proof. cbv zeta. repeat split; reflexivity. Qed.

(** A relative wait: a negative interval sleeps for the scaled number of
    whole milliseconds in [-interval] ticks of 100 ns, and an alertable
    sleep that was alerted reports [X_STATUS_USER_APC]. *)
Lemma delay_relative (scale : Z -> Z) (sleep : Z -> SleepResult)
    (mode alertable interval : Z) :
  - 2 ^ 63 < Int.s64 interval < 0 ->
  let ms := scale (Int.u32 (Z.quot (- Int.s64 interval) 10000)) in
  snd (XThread_Delay scale sleep mode alertable interval)
    = mkDelayEffects false (negb (alertable =? 0)) ms /\
  fst (XThread_Delay scale sleep mode alertable interval)
    = if negb (alertable =? 0)
      then match sleep ms with
           | kAlerted => X_STATUS_USER_APC
           | kSuccess => X_STATUS_SUCCESS
           end
      else X_STATUS_SUCCESS.
Proof.
  intros Hneg. cbv zeta. unfold XThread_Delay.
  replace (0 <? Int.s64 interval) with false by (symmetry; apply Z.ltb_ge; lia).
  replace (Int.s64 interval <? 0) with true by (symmetry; apply Z.ltb_lt; lia).
  assert (Hs : Int.s64 (- Int.s64 interval) = - Int.s64 interval).
  { unfold Int.s64 at 1. unfold Int.u64, Int.UINT64_MOD.
    rewrite Z.mod_small by lia.
    replace (- Int.s64 interval <? 2 ^ 63) with true
      by (symmetry; apply Z.ltb_lt; lia).
    reflexivity. }
  rewrite Hs.
  destruct (negb (alertable =? 0)); [destruct (sleep _)|]; split; reflexivity.
Qed.

(** A relative wait of 50000 ticks (5 ms), alertable and alerted. *)
Lemma delay_relative_example :
  XThread_Delay (fun ms => ms) (fun _ => kAlerted) 0 1 (2 ^ 64 - 50000)
  = (X_STATUS_USER_APC, mkDelayEffects false true 5).
Proof.
  pose proof (delay_relative (fun ms => ms) (fun _ => kAlerted) 0 1
                (2 ^ 64 - 50000)) as H.
  cbv zeta in H. destruct H as [He Hs]; [vm_compute; split; reflexivity|].
  destruct (XThread_Delay _ _ _ _ _) as [st eff]. cbn [fst snd] in *.
  rewrite He, Hs. reflexivity.
Defined.

(** C8 at the absolute deadline 132538032123450000 (a positive interval):
    [Delay] reaches [assert_always()] and sleeps for the scaled duration
    of 0 ms, as it does for the deadline 1; the deadline is not used. *)
Theorem delay_absolute_deadline_unused (scale : Z -> Z)
    (sleep : Z -> SleepResult) (mode : Z) :
  XThread_Delay scale sleep mode 0 132538032123450000
    = (X_STATUS_SUCCESS, mkDelayEffects true false (scale 0)) /\
  XThread_Delay scale sleep mode 0 1
    = (X_STATUS_SUCCESS, mkDelayEffects true false (scale 0)) /\
  snd (XThread_Delay scale sleep mode 1 132538032123450000)
    = mkDelayEffects true true (scale 0).
Proof.
  repeat split; try reflexivity.
  unfold XThread_Delay.
  change (0 <? Int.s64 132538032123450000) with true. cbv iota beta.
  change (negb (1 =? 0)) with true. cbv iota.
  destruct (sleep (scale 0)); reflexivity.
Qed.

(* ================================================================== *)
(** ** Rotate-and-mask builders, in general *)
(* ================================================================== *)

Lemma u32_range z : 0 <= Int.u32 z < 2 ^ 32.
Proof. unfold Int.u32, Int.UINT32_MOD. apply Z.mod_pos_bound. lia. Qed.

Lemma u64_range z : 0 <= Int.u64 z < 2 ^ 64.
Proof. unfold Int.u64, Int.UINT64_MOD. apply Z.mod_pos_bound. lia. Qed.

Lemma u32_small z : 0 <= z < 2 ^ 32 -> Int.u32 z = z.
Proof. intros H. unfold Int.u32, Int.UINT32_MOD. apply Z.mod_small. exact H. Qed.

Lemma u64_small z : 0 <= z < 2 ^ 64 -> Int.u64 z = z.
Proof. intros H. unfold Int.u64, Int.UINT64_MOD. apply Z.mod_small. exact H. Qed.

Lemma testbit_u32 z i : Z.testbit (Int.u32 z) i = (i <? 32) && Z.testbit z i.
Proof. unfold Int.u32, Int.UINT32_MOD. apply Z.testbit_mod_pow2. lia. Qed.

Lemma testbit_u64 z i : Z.testbit (Int.u64 z) i = (i <? 64) && Z.testbit z i.
Proof. unfold Int.u64, Int.UINT64_MOD. apply Z.testbit_mod_pow2. lia. Qed.

(** Bits of the doubled word [w.u32 | (w.u64 << 32)]. *)
Lemma testbit_doubled v k :
  0 <= k ->
  Z.testbit (Z.lor (Int.u32 v) (Int.shl64 (Int.u64 v) 32)) k
  = if k <? 32 then Z.testbit v k
    else (k <? 64) && Z.testbit v (k - 32).
Proof.
  intros Hk. unfold Int.shl64.
  rewrite Z.lor_spec, testbit_u32, testbit_u64, Z.shiftl_spec by lia.
  rewrite testbit_u64.
  destruct (Z.ltb_spec k 32), (Z.ltb_spec k 64), (Z.ltb_spec (k - 32) 64);
    try lia; cbn [andb orb];
    rewrite ?(Z.testbit_neg_r _ (k - 32)) by lia; rewrite ?orb_false_r;
    reflexivity.
Qed.

(** The low word of the 64-bit rotation of the doubled word is the 32-bit
    rotation of the word. *)
Lemma rotl64_doubled_low v sh i :
  0 <= sh < 32 -> 0 <= i < 32 ->
  Z.testbit (Int.rotl64 (Z.lor (Int.u32 v) (Int.shl64 (Int.u64 v) 32)) sh) i
  = Z.testbit (Int.rotl32 (Int.u32 v) sh) i.
Proof.
  intros Hsh Hi. unfold Int.rotl64, Int.rotl32.
  rewrite (Z.mod_small sh 64), (Z.mod_small sh 32) by lia.
  unfold Int.shl64, Int.shl32.
  rewrite !Z.lor_spec, testbit_u64, testbit_u32, !Z.shiftl_spec, !Z.shiftr_spec by lia.
  rewrite testbit_u64, !testbit_u32.
  destruct (Z.ltb_spec i 64), (Z.ltb_spec i 32); try lia. cbn [andb].
  destruct (Z.lt_ge_cases i sh) as [Hlt|Hge].
  - rewrite !(Z.testbit_neg_r _ (i - sh)) by lia. cbn [orb].
    rewrite testbit_doubled by lia.
    destruct (Z.ltb_spec (i + (64 - sh)) 64), (Z.ltb_spec (i + (64 - sh)) 32),
             (Z.ltb_spec (i + (32 - sh)) 32); try lia.
    cbn [andb]. rewrite andb_false_r. cbn [orb]. f_equal. lia.
  - rewrite testbit_doubled by lia.
    destruct (Z.ltb_spec (i - sh) 32), (Z.ltb_spec (i + (64 - sh)) 64),
             (Z.ltb_spec (i + (32 - sh)) 32); try lia.
    cbn [andb orb]. rewrite ?orb_false_r. reflexivity.
Qed.

Lemma bits_above (k n i : Z) :
  0 <= k -> 0 <= n < 2 ^ k -> k <= i -> Z.testbit n i = false.
Proof.
  intros Hk Hn Hi.
  eapply Z.bounded_iff_bits_nonneg'; [| | exact Hn | exact Hi]; lia.
Qed.

Lemma bounded_by_bits (k n : Z) :
  0 <= k -> 0 <= n -> (forall i, k <= i -> Z.testbit n i = false) ->
  0 <= n < 2 ^ k.
Proof.
  intros Hk Hn Hb. apply Z.bounded_iff_bits_nonneg'; assumption.
Qed.

(** A word-form mask [compute_mask(mb + 32, me + 32)] with [mb <= me]
    lies in the low word. *)
Lemma word_mask_high_bits mb me i :
  0 <= mb < 32 -> 0 <= me < 32 -> mb <= me -> 32 <= i ->
  Z.testbit (compute_mask (Int.u32 (mb + 32)) (Int.u32 (me + 32))) i = false.
Proof.
  intros Hmb Hme Hle Hi.
  rewrite !u32_small by lia.
  destruct (Z.lt_ge_cases i 64) as [Hlt|Hge].
  - pose proof (compute_mask_bit (mb + 32) (me + 32) (63 - i)
                  ltac:(lia) ltac:(lia) ltac:(lia)) as Hb.
    unfold ppc_bit in Hb. replace (63 - (63 - i)) with i in Hb by lia.
    rewrite Hb.
    destruct (Z.leb_spec (mb + 32) (me + 32)); [|lia].
    destruct (Z.leb_spec (mb + 32) (63 - i)); [lia | reflexivity].
  - apply (bits_above 64); [lia | | lia].
    apply compute_mask_value_range; lia.
Qed.

Lemma rlwinm_eval (rS : string) (regs : HostRegs) (sh mb me : Z) :
  0 <= sh < 32 -> 0 <= mb < 32 -> 0 <= me < 32 -> mb <= me ->
  eval_expr regs
    (rlwinm_expr rS sh (compute_mask (Int.u32 (mb + 32)) (Int.u32 (me + 32))))
  = Z.land (Int.rotl32 (Int.u32 (reg_value regs rS)) sh)
           (compute_mask (Int.u32 (mb + 32)) (Int.u32 (me + 32))).
Proof.
  intros Hsh Hmb Hme Hle.
  unfold rlwinm_expr. cbn [eval_expr].
  apply Z.bits_inj'. intros i Hi. rewrite !Z.land_spec.
  destruct (Z.lt_ge_cases i 32) as [Hlt|Hge].
  - rewrite rotl64_doubled_low by lia. reflexivity.
  - rewrite word_mask_high_bits by lia.
    rewrite !andb_false_r. reflexivity.
Qed.

(** X1 (rlwinm in general): for a shift below 32 and an in-order word mask
    [mb <= me], the expression [build_rlwinm] writes evaluates to the
    32-bit rotation of the low word of the source masked by
    [compute_mask(mb + 32, me + 32)], whatever the high word of the source
    holds, and the result fits in 32 bits. *)
Theorem rlwinm_rotate_and_mask (rS : string) (regs : HostRegs) (sh mb me : Z) :
  0 <= sh < 32 -> 0 <= mb < 32 -> 0 <= me < 32 -> mb <= me ->
  let m := compute_mask (Int.u32 (mb + 32)) (Int.u32 (me + 32)) in
  eval_expr regs (rlwinm_expr rS sh m)
  = Z.land (Int.rotl32 (Int.u32 (reg_value regs rS)) sh) m /\
  0 <= eval_expr regs (rlwinm_expr rS sh m) < 2 ^ 32.
Proof.
  intros Hsh Hmb Hme Hle m.
  pose proof (rlwinm_eval rS regs sh mb me Hsh Hmb Hme Hle) as Heq. fold m in Heq.
  split; [exact Heq|].
  rewrite Heq.
  assert (Hm : 0 <= m < 2 ^ 32).
  { apply bounded_by_bits; [lia | |].
    - subst m. rewrite !u32_small by lia.
      apply compute_mask_value_range; lia.
    - intros l Hl. subst m. apply word_mask_high_bits; lia. }
  apply bounded_by_bits; [lia | |].
  - apply Z.land_nonneg. right. lia.
  - intros l Hl. rewrite Z.land_spec, (bits_above 32 m l) by lia.
    apply andb_false_r.
Qed.

Lemma rlwinm_rotate_and_mask_witness :
  eval_expr {["ctx.r4" := 0xFFFFFFFF12345678]}
    (rlwinm_expr "ctx.r4" 4 (compute_mask (Int.u32 (20 + 32)) (Int.u32 (27 + 32))))
  = 0x780.
Proof.
  destruct (rlwinm_rotate_and_mask "ctx.r4" {["ctx.r4" := 0xFFFFFFFF12345678]}
              4 20 27 ltac:(lia) ltac:(lia) ltac:(lia) ltac:(lia)) as [He _].
  rewrite He. reflexivity.
Defined.

(** Masks in closed form. *)
Lemma compute_mask_to_63 mb :
  0 <= mb < 64 -> compute_mask mb 63 = Z.ones (64 - mb).
Proof.
  intros Hmb. apply Z.bits_inj'. intros i Hi.
  rewrite Z.testbit_ones_nonneg by lia.
  destruct (Z.lt_ge_cases i 64) as [Hlt|Hge].
  - pose proof (compute_mask_bit mb 63 (63 - i) ltac:(lia) ltac:(lia) ltac:(lia)) as Hb.
    unfold ppc_bit in Hb. replace (63 - (63 - i)) with i in Hb by lia.
    rewrite Hb. destruct (Z.leb_spec mb 63); [|lia].
    destruct (Z.leb_spec mb (63 - i)), (Z.leb_spec (63 - i) 63),
             (Z.ltb_spec i (64 - mb)); lia || reflexivity.
  - rewrite (bits_above 64) by (try apply compute_mask_value_range; lia).
    symmetry. apply Z.ltb_ge. lia.
Qed.

Lemma compute_mask_from_0 me i :
  0 <= me < 64 -> 0 <= i ->
  Z.testbit (compute_mask 0 me) i = (63 - me <=? i) && (i <? 64).
Proof.
  intros Hme Hi.
  destruct (Z.lt_ge_cases i 64) as [Hlt|Hge].
  - pose proof (compute_mask_bit 0 me (63 - i) ltac:(lia) ltac:(lia) ltac:(lia)) as Hb.
    unfold ppc_bit in Hb. replace (63 - (63 - i)) with i in Hb by lia.
    rewrite Hb. destruct (Z.leb_spec 0 me); [|lia].
    destruct (Z.leb_spec 0 (63 - i)), (Z.leb_spec (63 - i) me),
             (Z.leb_spec (63 - me) i), (Z.ltb_spec i 64); lia || reflexivity.
  - rewrite (bits_above 64) by (try apply compute_mask_value_range; lia).
    destruct (Z.ltb_spec i 64); [lia|]. symmetry. apply andb_false_r.
Qed.

Lemma rotl64_range v n : 0 <= Int.rotl64 v n < 2 ^ 64.
Proof.
  unfold Int.rotl64, Int.shl64.
  pose proof (u64_range (Z.shiftl v (n mod 64))) as H1.
  pose proof (u64_range v) as H2.
  assert (Hn : 0 <= n mod 64 < 64) by (apply Z.mod_pos_bound; lia).
  apply bounded_by_bits; [lia | |].
  - apply Z.lor_nonneg. split; [lia|]. apply Z.shiftr_nonneg. lia.
  - intros i Hi. rewrite Z.lor_spec, Z.shiftr_spec by lia.
    rewrite (bits_above 64 _ i) by lia.
    rewrite (bits_above 64 (Int.u64 v)) by lia. reflexivity.
Qed.

(** X2 (rldicl): the builder writes the assignment of
    [rotl64(rS, sh) & compute_mask(mb, 63)], whose value is the rotated
    source modulo [2 ^ (64 - mb)]: the [mb] high-order bits are cleared and
    nothing else. *)
Theorem rldicl_clears_high_bits (f : FunctionNode) (addr rA rS sh mb : Z)
    (regs : HostRegs) :
  0 <= mb < 64 ->
  out (run build_rldicl
         (start_ctx plain_config f (mkInsn "rldicl" [rA; rS; sh; mb]) addr))
  = render_assign_u64 ("ctx.r" +:+ Fmt.dec rA)
      (rldic_expr ("ctx.r" +:+ Fmt.dec rS) sh (compute_mask mb 63)) /\
  eval_expr regs (rldic_expr ("ctx.r" +:+ Fmt.dec rS) sh (compute_mask mb 63))
  = Int.rotl64 (Int.u64 (reg_value regs ("ctx.r" +:+ Fmt.dec rS))) sh
      mod 2 ^ (64 - mb).
Proof.
  intros Hmb. split.
  - emit_norm. reflexivity.
  - unfold rldic_expr. cbn [eval_expr].
    rewrite compute_mask_to_63 by lia. apply Z.land_ones. lia.
Qed.

Lemma rldicl_clears_high_bits_witness :
  eval_expr {["ctx.r5" := 0x8000000000000001]}
    (rldic_expr ("ctx.r" +:+ Fmt.dec 5) 1 (compute_mask 32 63))
  = 3.
Proof.
  destruct (rldicl_clears_high_bits (mkFunctionNode 0 0x100 []) 0 3 5 1 32
              {["ctx.r5" := 0x8000000000000001]} ltac:(lia)) as [_ He].
  rewrite He. reflexivity.
Defined.

(** X3 (rldicr): the builder writes the assignment of
    [rotl64(rS, sh) & compute_mask(0, me)], whose value is the rotated
    source with its [63 - me] low-order bits cleared. *)
Theorem rldicr_clears_low_bits (f : FunctionNode) (addr rA rS sh me : Z)
    (regs : HostRegs) :
  0 <= me < 64 ->
  let rot := Int.rotl64 (Int.u64 (reg_value regs ("ctx.r" +:+ Fmt.dec rS))) sh in
  out (run build_rldicr
         (start_ctx plain_config f (mkInsn "rldicr" [rA; rS; sh; me]) addr))
  = render_assign_u64 ("ctx.r" +:+ Fmt.dec rA)
      (rldic_expr ("ctx.r" +:+ Fmt.dec rS) sh (compute_mask 0 me)) /\
  eval_expr regs (rldic_expr ("ctx.r" +:+ Fmt.dec rS) sh (compute_mask 0 me))
  = rot - rot mod 2 ^ (63 - me).
Proof.
  intros Hme rot. split.
  - emit_norm. reflexivity.
  - unfold rldic_expr. cbn [eval_expr]. fold rot.
    pose proof (rotl64_range (Int.u64 (reg_value regs ("ctx.r" +:+ Fmt.dec rS))) sh) as Hr.
    fold rot in Hr.
    rewrite <- (Z.land_ones rot (63 - me)) by lia.
    rewrite Z.sub_land_same_l.
    apply Z.bits_inj'. intros i Hi.
    rewrite !Z.land_spec, compute_mask_from_0, Z.lnot_spec, Z.testbit_ones_nonneg by lia.
    destruct (Z.leb_spec (63 - me) i), (Z.ltb_spec i 64), (Z.ltb_spec i (63 - me));
      try lia; cbn [andb negb]; rewrite ?andb_true_r, ?andb_false_r; try reflexivity.
    symmetry. apply (bits_above 64); lia.
Qed.

Lemma rldicr_clears_low_bits_witness :
  eval_expr {["ctx.r5" := 0x00000000000000FF]}
    (rldic_expr ("ctx.r" +:+ Fmt.dec 5) 0 (compute_mask 0 59))
  = 0xF0.
Proof.
  destruct (rldicr_clears_low_bits (mkFunctionNode 0 0x100 []) 0 3 5 0 59
              {["ctx.r5" := 0x00000000000000FF]} ltac:(lia)) as [_ He].
  rewrite He. reflexivity.
Defined.

(** [emit_norm] with the named masks kept folded. *)
Ltac emit_norm_masks :=
  cbv -[Fmt.dec Fmt.hex Fmt.hex08 Fmt.sdec compute_mask Int.u32 Int.s32
        Int.shl32 String.append Z.div Z.modulo Z.add crBitName
        clrlwi_mask rldimi_mask shift_out_mask Int.not64];
  rewrite ?append_assoc;
  cbv -[Fmt.dec Fmt.hex Fmt.hex08 Fmt.sdec compute_mask Int.u32 Int.s32
        Int.shl32 Z.div Z.modulo Z.add crBitName
        clrlwi_mask rldimi_mask shift_out_mask Int.not64].

Lemma rotl32_zero w : 0 <= w < 2 ^ 32 -> Int.rotl32 w 0 = w.
Proof.
  intros Hw. unfold Int.rotl32, Int.shl32.
  change (0 mod 32) with 0. rewrite Z.shiftl_0_r, !u32_small by lia.
  change (32 - 0) with 32. rewrite Z.shiftr_div_pow2 by lia.
  rewrite Z.div_small by lia. apply Z.lor_0_r.
Qed.

Lemma clrlwi_mask_ones n : 0 <= n < 32 -> clrlwi_mask n = Z.ones (32 - n).
Proof.
  intros Hn. unfold clrlwi_mask, Int.shl64.
  rewrite (u32_small (32 - n)) by lia.
  rewrite Z.shiftl_1_l, Z.ones_equiv.
  assert (0 < 2 ^ (32 - n) <= 2 ^ 32).
  { split; [apply Z.pow_pos_nonneg; lia | apply Z.pow_le_mono_r; lia]. }
  rewrite (u64_small (2 ^ (32 - n))) by lia.
  rewrite u64_small by lia. lia.
Qed.

(** X4 (clrlwi): for [n] below 32 the builder writes [rS.u32 & mask] with
    the mask [2 ^ (32 - n) - 1], which is the rlwinm mask
    [compute_mask(n + 32, 31 + 32)]; the value is the low word of the
    source modulo [2 ^ (32 - n)], the same value [build_rlwinm] computes
    for [rlwinm rA, rS, 0, n, 31]. *)
Theorem clrlwi_is_rlwinm (f : FunctionNode) (addr rA rS n : Z)
    (regs : HostRegs) :
  0 <= n < 32 ->
  let src := "ctx.r" +:+ Fmt.dec rS in
  out (run build_clrlwi
         (start_ctx plain_config f (mkInsn "clrlwi" [rA; rS; n]) addr))
  = render_assign_u64 ("ctx.r" +:+ Fmt.dec rA) (clrlwi_expr src n) /\
  clrlwi_mask n = compute_mask (Int.u32 (n + 32)) (Int.u32 (31 + 32)) /\
  eval_expr regs (clrlwi_expr src n)
  = Int.u32 (reg_value regs src) mod 2 ^ (32 - n) /\
  eval_expr regs (clrlwi_expr src n)
  = eval_expr regs
      (rlwinm_expr src 0 (compute_mask (Int.u32 (n + 32)) (Int.u32 (31 + 32)))).
Proof.
  intros Hn src.
  assert (Hmask : clrlwi_mask n
                  = compute_mask (Int.u32 (n + 32)) (Int.u32 (31 + 32))).
  { rewrite clrlwi_mask_ones by lia. rewrite !u32_small by lia.
    change (31 + 32) with 63. rewrite compute_mask_to_63 by lia.
    f_equal. lia. }
  assert (Heval : eval_expr regs (clrlwi_expr src n)
                  = Int.u32 (reg_value regs src) mod 2 ^ (32 - n)).
  { unfold clrlwi_expr. cbn [eval_expr].
    rewrite clrlwi_mask_ones by lia. apply Z.land_ones. lia. }
  split; [emit_norm_masks; reflexivity|].
  split; [exact Hmask|]. split; [exact Heval|].
  rewrite rlwinm_eval by lia.
  rewrite rotl32_zero by apply u32_range.
  rewrite <- Hmask. unfold clrlwi_expr. cbn [eval_expr]. reflexivity.
Qed.

Lemma clrlwi_is_rlwinm_witness :
  eval_expr {["ctx.r4" := 0xAABBCCDD]} (clrlwi_expr ("ctx.r" +:+ Fmt.dec 4) 24)
  = 0xDD.
Proof.
  destruct (clrlwi_is_rlwinm (mkFunctionNode 0 0x100 []) 0 3 4 24
              {["ctx.r4" := 0xAABBCCDD]} ltac:(lia)) as (_ & _ & He & _).
  rewrite He. reflexivity.
Defined.

Lemma compute_mask_low6 a b :
  compute_mask a b = compute_mask (Z.land a 0x3F) (Z.land b 0x3F).
Proof.
  unfold compute_mask.
  rewrite <- !Z.land_assoc. change (Z.land 0x3F 0x3F) with 0x3F. reflexivity.
Qed.

(** X5 (srawi, sradi): the mask of the carry test,
    [compute_mask(64 - sh, 63)], is [2 ^ sh - 1] for a shift of 1 to 63:
    it selects exactly the bits the shift drops, so the carry is set for a
    negative source that loses a one bit. A zero shift clears the carry
    and copies the source. *)
Theorem shift_out_mask_low_bits (f : FunctionNode) (addr rA rS sh v : Z) :
  1 <= sh <= 63 ->
  shift_out_mask sh = 2 ^ sh - 1 /\
  Z.land v (shift_out_mask sh) = v mod 2 ^ sh /\
  out (run build_srawi
         (start_ctx plain_config f (mkInsn "srawi" [rA; rS; sh]) addr))
  = TAB +:+ "ctx.xer.ca = (ctx.r" +:+ Fmt.dec rS +:+ ".s32 < 0) & ((ctx.r"
    +:+ Fmt.dec rS +:+ ".u32 & 0x" +:+ Fmt.hex (shift_out_mask sh)
    +:+ ") != 0);" +:+ NL +:+
    TAB +:+ "ctx.r" +:+ Fmt.dec rA +:+ ".s64 = ctx.r" +:+ Fmt.dec rS
    +:+ ".s32 >> " +:+ Fmt.dec sh +:+ ";" +:+ NL /\
  out (run build_sradi
         (start_ctx plain_config f (mkInsn "sradi" [rA; rS; sh]) addr))
  = TAB +:+ "ctx.xer.ca = (ctx.r" +:+ Fmt.dec rS +:+ ".s64 < 0) & ((ctx.r"
    +:+ Fmt.dec rS +:+ ".u64 & 0x" +:+ Fmt.hex (shift_out_mask sh)
    +:+ ") != 0);" +:+ NL +:+
    TAB +:+ "ctx.r" +:+ Fmt.dec rA +:+ ".s64 = ctx.r" +:+ Fmt.dec rS
    +:+ ".s64 >> " +:+ Fmt.dec sh +:+ ";" +:+ NL /\
  out (run build_srawi
         (start_ctx plain_config f (mkInsn "srawi" [rA; rS; 0]) addr))
  = TAB +:+ "ctx.xer.ca = 0;" +:+ NL +:+
    TAB +:+ "ctx.r" +:+ Fmt.dec rA +:+ ".s64 = ctx.r" +:+ Fmt.dec rS
    +:+ ".s32;" +:+ NL.
Proof.
  intros Hsh.
  assert (Hm : shift_out_mask sh = Z.ones sh).
  { unfold shift_out_mask. rewrite u32_small by lia.
    rewrite compute_mask_to_63 by lia. f_equal. lia. }
  split; [rewrite Hm; apply Z.ones_equiv; lia|].
  split; [rewrite Hm; apply Z.land_ones; lia|].
  destruct sh as [|p|p]; try lia.
  repeat split; emit_norm_masks; reflexivity.
Qed.

Lemma shift_out_mask_low_bits_witness :
  shift_out_mask 4 = 15 /\ Z.land (-3) (shift_out_mask 4) = 13.
Proof.
  destruct (shift_out_mask_low_bits (mkFunctionNode 0 0x100 []) 0 3 4 4 (-3)
              ltac:(lia)) as (H1 & H2 & _).
  split; [exact H1 | exact H2].
Defined.

(** X6 (rldimi): the insert mask [compute_mask(mb, ~sh)], with the
    complement taken on the 32-bit shift operand, is the mask of PPC bits
    [mb .. 63 - sh]; the builder keeps the destination under the
    complementary mask. *)
Theorem rldimi_mask_bits (f : FunctionNode) (addr rA rS sh mb p : Z) :
  0 <= sh < 64 -> 0 <= mb < 64 -> mb <= 63 - sh -> 0 <= p < 64 ->
  rldimi_mask mb sh = compute_mask mb (63 - sh) /\
  ppc_bit (rldimi_mask mb sh) p = (mb <=? p) && (p <=? 63 - sh) /\
  ppc_bit (Int.not64 (rldimi_mask mb sh)) p
    = negb (ppc_bit (rldimi_mask mb sh) p) /\
  out (run build_rldimi
         (start_ctx plain_config f (mkInsn "rldimi" [rA; rS; sh; mb]) addr))
  = TAB +:+ "ctx.r" +:+ Fmt.dec rA +:+ ".u64 = (__builtin_rotateleft64(ctx.r"
    +:+ Fmt.dec rS +:+ ".u64, " +:+ Fmt.dec sh +:+ ") & 0x"
    +:+ Fmt.hex (rldimi_mask mb sh) +:+ ") | (ctx.r" +:+ Fmt.dec rA
    +:+ ".u64 & 0x" +:+ Fmt.hex (Int.not64 (rldimi_mask mb sh)) +:+ ");" +:+ NL.
Proof.
  intros Hsh Hmb Hle Hp.
  assert (Hm : rldimi_mask mb sh = compute_mask mb (63 - sh)).
  { unfold rldimi_mask.
    rewrite (compute_mask_low6 mb (Int.u32 _)), (compute_mask_low6 mb (63 - sh)).
    f_equal. change 0x3F with (Z.ones 6). rewrite !Z.land_ones by lia.
    unfold Int.u32, Int.UINT32_MOD. rewrite <- Z.opp_lnot.
    change (2 ^ 32) with (2 ^ 6 * 2 ^ 26).
    rewrite Z.rem_mul_r by lia. 
    rewrite Z.mul_comm, Z.mod_add by lia. rewrite Z.mod_mod by lia.
    rewrite (Z.mod_small (63 - sh)) by lia.
    replace (- sh - 1) with ((63 - sh) + (-1) * 2 ^ 6) by lia.
    rewrite Z.mod_add by lia. apply Z.mod_small. lia. }
  split; [exact Hm|]. split; [|split].
  - rewrite Hm, compute_mask_bit by lia.
    destruct (Z.leb_spec mb (63 - sh)); [reflexivity | lia].
  - apply ppc_bit_not64. lia.
  - emit_norm_masks. reflexivity.
Qed.

Lemma rldimi_mask_bits_witness :
  rldimi_mask 40 8 = 0x0000000000FFFF00.
Proof.
  destruct (rldimi_mask_bits (mkFunctionNode 0 0x100 []) 0 3 4 8 40 40
              ltac:(lia) ltac:(lia) ltac:(lia) ltac:(lia)) as (H & _).
  rewrite H. reflexivity.
Defined.

(* ================================================================== *)
(** ** MMIO-base flags through the logical builders *)
(* ================================================================== *)

Lemma mmio_ctx_r i c :
  lv_mmio_base (locals (run (ctx_r i) c)) = lv_mmio_base (locals c).
Proof. unfold run, ctx_r. destruct (_ || _); reflexivity. Qed.

Lemma mmio_ctx_cr i c :
  lv_mmio_base (locals (run (ctx_cr i) c)) = lv_mmio_base (locals c).
Proof. unfold run, ctx_cr. destruct (crRegistersAsLocalVariables _); reflexivity. Qed.

Lemma mmio_ctx_xer c :
  lv_mmio_base (locals (run ctx_xer c)) = lv_mmio_base (locals c).
Proof. unfold run, ctx_xer. destruct (xerAsLocalVariable _); reflexivity. Qed.

Lemma mmio_println s c :
  lv_mmio_base (locals (run (println s) c)) = lv_mmio_base (locals c).
Proof. reflexivity. Qed.

Lemma run_operand k c : run (operand k) c = c.
Proof. reflexivity. Qed.

Lemma run_get {A} (g : BuilderContext -> A) c : run (get g) c = c.
Proof. reflexivity. Qed.

Lemma run_mret {A} (a : A) c : run (mret a) c = c.
Proof. reflexivity. Qed.

Lemma run_is_mmio_base r c : run (is_mmio_base r) c = c.
Proof. reflexivity. Qed.

Lemma insn_ctx_r i c : insn (run (ctx_r i) c) = insn c.
Proof. unfold run, ctx_r. destruct (_ || _); reflexivity. Qed.

Lemma mmio_emitRecordFormCompare c :
  lv_mmio_base (locals (run emitRecordFormCompare c)) = lv_mmio_base (locals c).
Proof.
  unfold emitRecordFormCompare. rewrite run_bind, run_get.
  change (result (get insn) c) with (insn c).
  destruct (isRecordForm (insn c)); [|reflexivity].
  rewrite !run_bind, mmio_println, mmio_ctx_xer, mmio_ctx_r, run_operand.
  apply mmio_ctx_cr.
Qed.

(** Peel the primitives that leave the flags alone. *)
Ltac mmio_frame :=
  repeat first
    [ rewrite run_bind
    | rewrite run_mret
    | rewrite run_operand
    | rewrite run_get
    | rewrite run_is_mmio_base
    | rewrite mmio_println
    | rewrite mmio_emitRecordFormCompare
    | rewrite mmio_ctx_r
    | rewrite mmio_ctx_cr
    | rewrite mmio_ctx_xer ].

Lemma mmio_flag_set reg d c :
  mmio_flag (run (set_mmio_base d) c) reg = (reg =? d) || mmio_flag c reg.
Proof.
  unfold mmio_flag. cbn.
  destruct (Z.eqb_spec reg d) as [->|Hne]; cbn [orb].
  - apply bool_decide_eq_true. rewrite elem_of_union, elem_of_singleton. tauto.
  - apply bool_decide_ext. rewrite elem_of_union, elem_of_singleton. tauto.
Qed.

Lemma mmio_flag_clear reg d c :
  mmio_flag (run (clear_mmio_base d) c) reg = negb (reg =? d) && mmio_flag c reg.
Proof.
  unfold mmio_flag. cbn.
  destruct (Z.eqb_spec reg d) as [->|Hne]; cbn [negb andb].
  - apply bool_decide_eq_false. rewrite elem_of_difference, elem_of_singleton. tauto.
  - apply bool_decide_ext. rewrite elem_of_difference, elem_of_singleton. tauto.
Qed.

Lemma mmio_flag_frame c c' reg :
  lv_mmio_base (locals c') = lv_mmio_base (locals c) ->
  mmio_flag c' reg = mmio_flag c reg.
Proof. intros H. unfold mmio_flag. cbn. rewrite H. reflexivity. Qed.

Lemma or_propagates_mmio_flag_aux (ctx : BuilderContext) (reg : Z) :
  let rA := nth 0 (operands (insn ctx)) 0 in
  let rS := nth 1 (operands (insn ctx)) 0 in
  let rB := nth 2 (operands (insn ctx)) 0 in
  mmio_flag (run build_or ctx) reg
  = if reg =? rA then mmio_flag ctx rS || mmio_flag ctx rB
    else mmio_flag ctx reg.
Proof.
  cbv zeta. unfold build_or. rewrite !run_bind, run_mret.
  match goal with
  | |- context [run (if ?b then _ else _) ?c] =>
      set (ctx1 := c); set (cond := b)
  end.
  assert (Hframe : lv_mmio_base (locals ctx1) = lv_mmio_base (locals ctx)).
  { subst ctx1. mmio_frame. reflexivity. }
  assert (Hcond : cond = mmio_flag ctx (nth 1 (operands (insn ctx)) 0)
                         || mmio_flag ctx (nth 2 (operands (insn ctx)) 0)).
  { subst cond. rewrite ?run_operand.
    fold (mmio_flag ctx (result (operand 1) ctx)).
    repeat match goal with
    | |- context [result (is_mmio_base ?r) ?c] =>
        change (result (is_mmio_base r) c) with (mmio_flag c r)
    end.
    f_equal; apply mmio_flag_frame; mmio_frame; reflexivity. }
  rewrite Hcond.
  destruct (mmio_flag ctx _ || mmio_flag ctx _).
  - rewrite mmio_flag_set, (mmio_flag_frame ctx ctx1) by exact Hframe.
    change (result (operand 0) ctx) with (nth 0 (operands (insn ctx)) 0).
    destruct (reg =? _); reflexivity.
  - rewrite mmio_flag_clear, (mmio_flag_frame ctx ctx1) by exact Hframe.
    change (result (operand 0) ctx) with (nth 0 (operands (insn ctx)) 0).
    destruct (reg =? _); reflexivity.
Qed.

(** X7 (or, mr): after [build_or] the destination register is flagged as
    an MMIO base exactly when one of the two source registers was flagged
    before; the flag of every other register is unchanged. *)
Theorem or_propagates_mmio_flag (ctx : BuilderContext) (reg : Z) :
  let rA := nth 0 (operands (insn ctx)) 0 in
  let rS := nth 1 (operands (insn ctx)) 0 in
  let rB := nth 2 (operands (insn ctx)) 0 in
  mmio_flag (run build_or ctx) reg
  = if reg =? rA then mmio_flag ctx rS || mmio_flag ctx rB
    else mmio_flag ctx reg.
Proof. exact (or_propagates_mmio_flag_aux ctx reg). Qed.

Lemma ori_propagates_mmio_flag_aux (ctx : BuilderContext) (reg : Z) :
  let rA := nth 0 (operands (insn ctx)) 0 in
  let rS := nth 1 (operands (insn ctx)) 0 in
  mmio_flag (run build_ori ctx) reg
  = if reg =? rA then mmio_flag ctx rS else mmio_flag ctx reg.
Proof.
  cbv zeta. unfold build_ori. rewrite !run_bind, run_mret.
  match goal with
  | |- context [run (if ?b then _ else _) ?c] =>
      set (ctx1 := c); set (cond := b)
  end.
  assert (Hframe : lv_mmio_base (locals ctx1) = lv_mmio_base (locals ctx)).
  { subst ctx1. mmio_frame. reflexivity. }
  assert (Hcond : cond = mmio_flag ctx (nth 1 (operands (insn ctx)) 0)).
  { subst cond. rewrite ?run_operand.
    repeat match goal with
    | |- context [result (is_mmio_base ?r) ?c] =>
        change (result (is_mmio_base r) c) with (mmio_flag c r)
    end.
    apply mmio_flag_frame; mmio_frame; reflexivity. }
  rewrite Hcond.
  destruct (mmio_flag ctx (nth 1 _ _)).
  - rewrite mmio_flag_set, (mmio_flag_frame ctx ctx1) by exact Hframe.
    change (result (operand 0) ctx) with (nth 0 (operands (insn ctx)) 0).
    destruct (reg =? _); reflexivity.
  - rewrite mmio_flag_clear, (mmio_flag_frame ctx ctx1) by exact Hframe.
    change (result (operand 0) ctx) with (nth 0 (operands (insn ctx)) 0).
    destruct (reg =? _); reflexivity.
Qed.

(** X8 (ori): after [build_ori] the destination register carries the
    MMIO-base flag the source register had; the flag of every other
    register is unchanged. *)
Theorem ori_propagates_mmio_flag (ctx : BuilderContext) (reg : Z) :
  let rA := nth 0 (operands (insn ctx)) 0 in
  let rS := nth 1 (operands (insn ctx)) 0 in
  mmio_flag (run build_ori ctx) reg
  = if reg =? rA then mmio_flag ctx rS else mmio_flag ctx reg.
Proof. exact (ori_propagates_mmio_flag_aux ctx reg). Qed.

(** X9 (oris): [build_oris] flags the destination register when the
    immediate is an MMIO upper half and otherwise keeps the flag the
    destination already had: it never clears a flag and does not look at
    the flag of the source register. Other registers are unchanged. *)
Theorem oris_never_clears_mmio_flag (ctx : BuilderContext) (reg : Z) :
  let rA := nth 0 (operands (insn ctx)) 0 in
  let imm := Int.u32 (nth 2 (operands (insn ctx)) 0) in
  mmio_flag (run build_oris ctx) reg
  = if reg =? rA then isMMIOUpperBits imm || mmio_flag ctx rA
    else mmio_flag ctx reg.
Proof.
  cbv zeta. unfold build_oris. rewrite !run_bind, run_mret.
  rewrite ?run_operand.
  change (result (operand 2) ctx) with (nth 2 (operands (insn ctx)) 0).
  change (result (operand 0) ctx) with (nth 0 (operands (insn ctx)) 0).
  match goal with
  | |- context [run (if _ then _ else _) ?c] => set (ctx1 := c)
  end.
  assert (Hframe : lv_mmio_base (locals ctx1) = lv_mmio_base (locals ctx)).
  { subst ctx1. mmio_frame. reflexivity. }
  destruct (isMMIOUpperBits _); cbn [orb].
  - rewrite mmio_flag_set, (mmio_flag_frame ctx ctx1) by exact Hframe.
    destruct (reg =? _); reflexivity.
  - rewrite run_mret, (mmio_flag_frame ctx ctx1) by exact Hframe.
    destruct (Z.eqb_spec reg (nth 0 (operands (insn ctx)) 0)) as [->|_];
      reflexivity.
Qed.

(** After [build_lis] the destination is flagged by the immediate alone;
    other registers keep their flags. *)
Lemma lis_mmio_flag (ctx : BuilderContext) (reg : Z) :
  mmio_flag (run build_lis ctx) reg
  = if reg =? nth 0 (operands (insn ctx)) 0
    then isMMIOUpperBits (Int.u32 (nth 1 (operands (insn ctx)) 0))
    else mmio_flag ctx reg.
Proof.
  unfold build_lis. rewrite !run_bind, run_mret.
  rewrite ?run_operand.
  change (result (operand 1) ctx) with (nth 1 (operands (insn ctx)) 0).
  change (result (operand 0) ctx) with (nth 0 (operands (insn ctx)) 0).
  match goal with
  | |- context [run (if _ then _ else _) ?c] => set (ctx1 := c)
  end.
  assert (Hframe : lv_mmio_base (locals ctx1) = lv_mmio_base (locals ctx)).
  { subst ctx1. mmio_frame. reflexivity. }
  destruct (isMMIOUpperBits _).
  - rewrite mmio_flag_set, (mmio_flag_frame ctx ctx1) by exact Hframe.
    destruct (reg =? _); reflexivity.
  - rewrite mmio_flag_clear, (mmio_flag_frame ctx ctx1) by exact Hframe.
    destruct (reg =? _); reflexivity.
Qed.

(** X10 (address materialisation): a register loaded by [lis] with an
    MMIO upper half, completed by [ori] into a second register and
    combined by [or] with any other register, in either operand position,
    into a third, leaves the third register flagged as an MMIO base,
    whatever the registers, the low half and the surrounding context
    are. *)
Theorem mmio_flag_through_lis_ori_or (ctx : BuilderContext)
    (rX rY rZ rB imm low a0 a1 a2 : Z) (e0 e1 e2 : bool) :
  isMMIOUpperBits (Int.u32 imm) = true ->
  rB <> rY ->
  let c1 := run build_lis
              (next_instruction (mkInsn "lis" [rX; imm]) a0 e0 ctx) in
  let c2 := run build_ori
              (next_instruction (mkInsn "ori" [rY; rX; low]) a1 e1 c1) in
  let c3 := run build_or
              (next_instruction (mkInsn "or" [rZ; rY; rB]) a2 e2 c2) in
  let c3' := run build_or
               (next_instruction (mkInsn "or" [rZ; rB; rY]) a2 e2 c2) in
  mmio_flag c1 rX = true /\ mmio_flag c2 rY = true /\
  mmio_flag c3 rZ = true /\ mmio_flag c3' rZ = true.
Proof.
  intros Himm _ c1 c2 c3 c3'.
  assert (H1 : mmio_flag c1 rX = true).
  { subst c1. rewrite lis_mmio_flag. cbn [insn next_instruction operands nth].
    rewrite Z.eqb_refl. exact Himm. }
  assert (H2 : mmio_flag c2 rY = true).
  { subst c2. rewrite ori_propagates_mmio_flag_aux.
    cbn [insn next_instruction operands nth]. rewrite Z.eqb_refl. exact H1. }
  split; [exact H1|]. split; [exact H2|]. split.
  - subst c3. rewrite or_propagates_mmio_flag_aux.
    cbn [insn next_instruction operands nth]. rewrite Z.eqb_refl.
    change (mmio_flag (next_instruction _ a2 e2 c2) rY) with (mmio_flag c2 rY).
    rewrite H2. reflexivity.
  - subst c3'. rewrite or_propagates_mmio_flag_aux.
    cbn [insn next_instruction operands nth]. rewrite Z.eqb_refl.
    change (mmio_flag (next_instruction _ a2 e2 c2) rY) with (mmio_flag c2 rY).
    rewrite H2. apply orb_true_r.
Qed.

Lemma mmio_flag_through_lis_ori_or_witness :
  mmio_flag
    (run build_or
       (next_instruction (mkInsn "or" [11; 10; 5]) 0x1018 false
          (run build_ori
             (next_instruction (mkInsn "ori" [10; 9; 0x6000]) 0x1014 false
                (run build_lis
                   (next_instruction (mkInsn "lis" [9; 0x7FEA]) 0x1010 false
                      (start_ctx plain_config (mkFunctionNode 0x1000 0x2000 [])
                         (mkInsn "nop" []) 0x100C)))))))
    11 = true.
Proof.
  exact (proj1 (proj2 (proj2
           (mmio_flag_through_lis_ori_or
              (start_ctx plain_config (mkFunctionNode 0x1000 0x2000 [])
                 (mkInsn "nop" []) 0x100C)
              9 10 11 5 0x7FEA 0x6000 0x1010 0x1014 0x1018 false false false
              eq_refl ltac:(lia))))).
Defined.

(** X11 (flag-neutral builders): and, andc, andi., andis., nand, nor, not,
    orc, xor, xori, xoris and eqv leave every MMIO-base flag as it was,
    the destination's included: a flagged register overwritten by one of
    them stays flagged. *)
Theorem logical_builders_keep_mmio_flags :
  Forall (fun b : Builder =>
            forall (ctx : BuilderContext) (reg : Z),
              mmio_flag (run b ctx) reg = mmio_flag ctx reg)
         flag_neutral_builders.
Proof.
  unfold flag_neutral_builders.
  repeat apply Forall_cons_2; try apply Forall_nil_2;
    intros ctx reg; apply mmio_flag_frame;
    unfold build_and, build_andc, build_andi, build_andis, build_nand,
           build_nor, build_not, build_orc, build_xor, build_xori,
           build_xoris, build_eqv;
    mmio_frame; reflexivity.
Qed.

(* ================================================================== *)
(** ** bctr with any bound table *)
(* ================================================================== *)

Lemma build_bctr_out (ctx : BuilderContext) (jt : JumpTable) :
  bound_jump_table ctx = Some jt ->
  out (run build_bctr ctx)
  = out ctx +:+ render_switch (result (ctx_r (indexRegister jt)) ctx)
                  (switch_cases (fn ctx) 0 (targets jt)) /\
  switchTable (run build_bctr ctx) = None.
Proof.
  intros Hjt. unfold build_bctr. rewrite !run_bind.
  change (result (get bound_jump_table) ctx) with (bound_jump_table ctx).
  rewrite Hjt. rewrite !run_bind.
  change (run (get bound_jump_table) ctx) with ctx.
  change (run (mret true) ?c) with c.
  unfold reset_switch_table. split; [|reflexivity].
  change (out (run (modify (set_switchTable None)) ?c)) with (out c).
  destruct (ctx_r_keeps (indexRegister jt) ctx) as [Hro Hrf].
  set (ctx1 := run (ctx_r (indexRegister jt)) ctx) in *.
  set (reg := result (ctx_r (indexRegister jt)) ctx).
  rewrite !out_println.
  match goal with
  | |- context [run (emit_switch_cases 0 (targets jt)) ?c] => set (ctx2 := c)
  end.
  destruct (emit_switch_cases_run (targets jt) 0 ctx2) as (Ho & _ & _).
  rewrite Ho. subst ctx2. rewrite fn_println, out_println.
  rewrite Hro, Hrf. unfold render_switch.
  rewrite ?append_assoc. reflexivity.
Qed.

Lemma exec_switch_cases (f : FunctionNode) (labels : list Z) (v : Z) :
  exec_switch (switch_cases f 0 labels) v
  = if (0 <=? v) && (v <? Z.of_nat (length labels)) then
      match labels !! Z.to_nat v with
      | Some t => if outside_function f t then OReturn else OGoto t
      | None => OTrap
      end
    else OTrap.
Proof.
  unfold exec_switch.
  destruct (Z.leb_spec 0 v), (Z.ltb_spec v (Z.of_nat (length labels)));
    cbn [andb]; try (rewrite find_switch_cases_miss by lia; reflexivity).
  destruct (labels !! Z.to_nat v) as [t|] eqn:Ht.
  - pose proof (find_switch_cases_hit f labels 0 (Z.to_nat v) t Ht) as Hf.
    rewrite Z.add_0_l, Z2Nat.id in Hf by lia. rewrite Hf.
    destruct (outside_function f t); reflexivity.
  - apply lookup_ge_None in Ht. lia.
Qed.

(** X12 (bctr, any table): with a bound jump table, whatever its targets,
    [build_bctr] writes the switch over the index register, leaves no
    switch-table binding behind, and the switch never jumps to a label
    outside the function: an index whose target lies inside jumps to it,
    an index whose target lies outside returns, every other value traps. *)
Theorem bctr_stays_inside_function (ctx : BuilderContext) (jt : JumpTable) :
  bound_jump_table ctx = Some jt ->
  let cases := switch_cases (fn ctx) 0 (targets jt) in
  out (run build_bctr ctx)
  = out ctx +:+ render_switch (result (ctx_r (indexRegister jt)) ctx) cases /\
  switchTable (run build_bctr ctx) = None /\
  (forall v t, exec_switch cases v = OGoto t ->
     outside_function (fn ctx) t = false /\
     0 <= v /\ targets jt !! Z.to_nat v = Some t) /\
  (forall (i : nat) t, targets jt !! i = Some t ->
     outside_function (fn ctx) t = true ->
     exec_switch cases (Z.of_nat i) = OReturn) /\
  (forall (i : nat) t, targets jt !! i = Some t ->
     outside_function (fn ctx) t = false ->
     exec_switch cases (Z.of_nat i) = OGoto t) /\
  (forall v, v < 0 \/ Z.of_nat (length (targets jt)) <= v ->
     exec_switch cases v = OTrap) /\
  (forall v, exec_switch cases v = OTrap ->
     v < 0 \/ Z.of_nat (length (targets jt)) <= v).
Proof.
  intros Hjt cases.
  destruct (build_bctr_out ctx jt Hjt) as [Hout Hsw].
  split; [exact Hout|]. split; [exact Hsw|].
  split; [|split; [|split; [|split]]].
  - intros v t. subst cases. rewrite exec_switch_cases.
    destruct (Z.leb_spec 0 v); cbn [andb]; [|discriminate].
    destruct (v <? _); [|discriminate].
    destruct (targets jt !! Z.to_nat v) as [t'|]; [|discriminate].
    destruct (outside_function (fn ctx) t') eqn:Ho; [discriminate|].
    intros [= <-]. auto.
  - intros i t Hi Ho. subst cases. rewrite exec_switch_cases.
    pose proof (lookup_lt_Some _ _ _ Hi) as Hlt.
    destruct (Z.leb_spec 0 (Z.of_nat i)); [|lia].
    destruct (Z.ltb_spec (Z.of_nat i) (Z.of_nat (length (targets jt)))); [|lia].
    cbn [andb]. rewrite Nat2Z.id, Hi, Ho. reflexivity.
  - intros i t Hi Ho. subst cases. rewrite exec_switch_cases.
    pose proof (lookup_lt_Some _ _ _ Hi) as Hlt.
    destruct (Z.leb_spec 0 (Z.of_nat i)); [|lia].
    destruct (Z.ltb_spec (Z.of_nat i) (Z.of_nat (length (targets jt)))); [|lia].
    cbn [andb]. rewrite Nat2Z.id, Hi, Ho. reflexivity.
  - intros v Hv. subst cases. rewrite exec_switch_cases.
    destruct (Z.leb_spec 0 v), (Z.ltb_spec v (Z.of_nat (length (targets jt))));
      cbn [andb]; try reflexivity. lia.
  - intros v. subst cases. rewrite exec_switch_cases.
    destruct (Z.leb_spec 0 v), (Z.ltb_spec v (Z.of_nat (length (targets jt))));
      cbn [andb]; try (intros _; lia).
    destruct (targets jt !! Z.to_nat v) as [t|] eqn:Ht.
    + destruct (outside_function (fn ctx) t); discriminate.
    + apply lookup_ge_None in Ht. lia.
Qed.

Lemma bctr_stays_inside_function_witness :
  let jt := mkJumpTable 0x1010 3 [0x1100; 0x9000; 0x1300] in
  let f := mkFunctionNode 0x1000 0x2000 [jt] in
  let ctx := start_ctx plain_config f (mkInsn "bctr" []) 0x1010 in
  switchTable (run build_bctr ctx) = None /\
  exec_switch (switch_cases f 0 (targets jt)) 1 = OReturn.
Proof.
  cbv zeta.
  destruct (bctr_stays_inside_function
    (start_ctx plain_config
       (mkFunctionNode 0x1000 0x2000
          [mkJumpTable 0x1010 3 [0x1100; 0x9000; 0x1300]])
       (mkInsn "bctr" []) 0x1010)
    (mkJumpTable 0x1010 3 [0x1100; 0x9000; 0x1300]) eq_refl)
    as (_ & Hsw & _ & Hret & _).
  split; [exact Hsw|].
  exact (Hret 1%nat 0x9000 eq_refl eq_refl).
Defined.

(* ================================================================== *)
(** ** The mtctr pattern before an unbound bctr *)
(* ================================================================== *)

Lemma testbit_mtctr_mask i :
  0 <= i ->
  Z.testbit MTCTR_MASK i = (i <? 32) && negb ((21 <=? i) && (i <? 26)).
Proof.
  intros Hi.
  change MTCTR_MASK with (Z.lxor (Z.ones 32) (Z.shiftl (Z.ones 5) 21)).
  rewrite Z.lxor_spec, Z.shiftl_spec, Z.testbit_ones_nonneg by lia.
  destruct (Z.ltb_spec i 32), (Z.leb_spec 21 i), (Z.ltb_spec i 26);
    cbn [andb negb xorb]; try lia.
  all: try (rewrite Z.testbit_ones_nonneg by lia).
  all: try (rewrite Z.testbit_neg_r by lia).
  all: try (destruct (Z.ltb_spec (i - 21) 5); try lia); reflexivity.
Qed.

Lemma word_split_at_register_field w :
  0 <= w < 2 ^ 32 ->
  w = Z.land w MTCTR_MASK + ((w / 2 ^ 21) mod 32) * 2 ^ 21.
Proof.
  intros Hw.
  set (r := (w / 2 ^ 21) mod 32).
  assert (Hr : r = Z.land (Z.shiftr w 21) (Z.ones 5)).
  { subst r. rewrite Z.land_ones, Z.shiftr_div_pow2 by lia. reflexivity. }
  rewrite <- Z.shiftl_mul_pow2 by lia.
  assert (Hdisj : Z.land (Z.land w MTCTR_MASK) (Z.shiftl r 21) = 0).
  { apply Z.bits_inj'. intros i Hi.
    rewrite !Z.land_spec, testbit_mtctr_mask, Z.shiftl_spec, Z.bits_0 by lia.
    rewrite Hr, Z.land_spec.
    destruct (Z.leb_spec 21 i), (Z.ltb_spec i 26), (Z.ltb_spec i 32);
      cbn [andb negb]; rewrite ?andb_false_r; try reflexivity; try lia.
    - rewrite Z.testbit_ones_nonneg by lia.
      destruct (Z.ltb_spec (i - 21) 5); [lia|].
      rewrite !andb_false_r. reflexivity.
    - rewrite (Z.testbit_neg_r _ (i - 21)) by lia. apply andb_false_r. }
  rewrite Z.add_nocarry_lxor, Z.lxor_lor by exact Hdisj.
  apply Z.bits_inj'. intros i Hi.
  rewrite Z.lor_spec, Z.land_spec, testbit_mtctr_mask, Z.shiftl_spec by lia.
  rewrite Hr, Z.land_spec.
  destruct (Z.leb_spec 21 i), (Z.ltb_spec i 26), (Z.ltb_spec i 32);
    cbn [andb negb]; rewrite ?andb_false_r, ?andb_true_r, ?orb_false_r;
    try lia; cbn [orb].
  - rewrite Z.shiftr_spec, Z.testbit_ones_nonneg by lia.
    destruct (Z.ltb_spec (i - 21) 5); [|lia].
    rewrite andb_true_r. f_equal. lia.
  - rewrite Z.testbit_ones_nonneg by lia.
    destruct (Z.ltb_spec (i - 21) 5); [lia|].
    rewrite andb_false_r, orb_false_r. reflexivity.
  - rewrite Z.testbit_ones_nonneg by lia.
    destruct (Z.ltb_spec (i - 21) 5); [lia|].
    rewrite andb_false_r. apply (bits_above 32); lia.
  - rewrite (Z.testbit_neg_r _ (i - 21)) by lia. rewrite orb_false_r. reflexivity.
Qed.

(** X13 (mtctr test): among 32-bit words the mask test accepts exactly
    the 32 words [0x7C0003A6 + rS * 2 ^ 21] with [rS] in 0..31 (bits
    21..25 free, every other bit as in [0x7C0003A6]). The nop word is not
    accepted, and neither is [0x7D8903A6], the word of [mtctr r12], whose
    SPR field holds 9. *)
Theorem is_mtctr_exact (w : Z) :
  0 <= w < 2 ^ 32 ->
  (is_mtctr w = true <->
   exists rS, 0 <= rS < 32 /\ w = MTCTR_OPCODE + rS * 2 ^ 21) /\
  is_mtctr NOP = false /\
  is_mtctr 0x7D8903A6 = false.
Proof.
  intros Hw. split; [|split; reflexivity].
  unfold is_mtctr. rewrite Z.eqb_eq. split.
  - intros Hm. exists ((w / 2 ^ 21) mod 32). split.
    + apply Z.mod_pos_bound. lia.
    + rewrite <- Hm. apply word_split_at_register_field. exact Hw.
  - intros (rS & HrS & ->).
    assert (Hcases : In rS (map Z.of_nat (seq 0 32))).
    { replace rS with (Z.of_nat (Z.to_nat rS)) by lia.
      apply in_map, in_seq. lia. }
    assert (Hall : Forall (fun r => Z.land (MTCTR_OPCODE + r * 2 ^ 21) MTCTR_MASK
                                    = MTCTR_OPCODE)
                          (map Z.of_nat (seq 0 32))).
    { cbv [seq map].
      repeat (apply Forall_cons_2; [reflexivity|]). apply Forall_nil_2. }
    rewrite Forall_forall in Hall. apply Hall.
    apply list_elem_of_In. exact Hcases.
Qed.

Lemma is_mtctr_exact_witness :
  is_mtctr 0x7D6003A6 = true.
Proof.
  apply (is_mtctr_exact 0x7D6003A6 ltac:(lia)).
  exists 11. split; [lia | reflexivity].
Defined.

(** X14 (switch pattern): the scan before an unbound [bctr] succeeds
    exactly when the word just before it passes the mtctr test, or that
    word is a nop and the one before it passes, or the two words before
    the [bctr] are nops and the third passes. Words further back are never
    read. *)
Theorem is_switch_pattern_closed_form (prev : Z -> Z) :
  is_switch_pattern prev
  = is_mtctr (prev 1)
    || ((prev 1 =? NOP) && is_mtctr (prev 2))
    || ((prev 1 =? NOP) && (prev 2 =? NOP) && is_mtctr (prev 3)).
Proof.
  unfold is_switch_pattern. cbn [scan_for_mtctr].
  change (Z.to_nat (1 - 1)) with 0%nat.
  change (Z.to_nat (1 + 1 - 1)) with 1%nat.
  change (Z.to_nat (1 + 1 + 1 - 1)) with 2%nat.
  change (1 + 1 + 1) with 3. change (1 + 1) with 2.
  cbn [nops_between]. change (1 + 1) with 2.
  destruct (is_mtctr (prev 1)); [reflexivity|].
  destruct (prev 1 =? NOP); cbn [negb orb andb]; [|reflexivity].
  destruct (is_mtctr (prev 2)); [reflexivity|].
  destruct (prev 2 =? NOP); cbn [negb orb andb]; [|reflexivity].
  destruct (is_mtctr (prev 3)); [reflexivity|].
  destruct (prev 3 =? NOP); reflexivity.
Qed.

(* ================================================================== *)
(** ** Guest stack layout *)
(* ================================================================== *)

Lemma allocate_stack_fields (round_up : Z -> Z -> Z) (page_size : Z)
    (AllocRange : Z -> Z -> option Z) (size : Z) (s : StackFields) :
  0 < page_size ->
  0 <= round_up size page_size ->
  XThread_AllocateStack round_up page_size AllocRange size = Some s ->
  0 <= stack_alloc_base_ s ->
  stack_alloc_base_ s + round_up size page_size + 2 * page_size < 2 ^ 32 ->
  stack_alloc_size_ s = round_up size page_size + 2 * page_size /\
  stack_limit_ s = stack_alloc_base_ s + page_size /\
  stack_base_ s = stack_limit_ s + round_up size page_size /\
  stack_base_ s + page_size = stack_alloc_base_ s + stack_alloc_size_ s /\
  guard_ranges s
    = [(stack_alloc_base_ s, page_size); (stack_base_ s, page_size)].
Proof.
  intros Hpage Hround Halloc Hbase Hfit.
  unfold XThread_AllocateStack in Halloc.
  rewrite (u32_small (page_size * 2)) in Halloc by lia.
  rewrite (u32_small (round_up size page_size)) in Halloc by lia.
  rewrite (u32_small (round_up size page_size + page_size * 2)) in Halloc by lia.
  destruct (AllocRange _ _) as [address|]; [|discriminate].
  injection Halloc as <-. cbn [stack_alloc_base_] in Hbase, Hfit.
  cbn [stack_alloc_base_ stack_alloc_size_ stack_limit_ stack_base_ guard_ranges].
  replace (page_size * 2 / 2) with page_size by (rewrite Z.div_mul; lia).
  rewrite (u32_small (address + page_size)) by lia.
  rewrite (u32_small (address + page_size + round_up size page_size)) by lia.
  repeat split; lia.
Qed.

(** C10 (as the code has it): the constructor stores 16 KiB for every
    requested stack size below 16 KiB and the requested size otherwise,
    and stores the other creation parameters as given. [Create] hands the
    stored size to [AllocateStack], which rounds it to the page size of
    the stack heap and adds two guard pages: when the allocation succeeds
    without wrapping the address space, the stack between [stack_limit_]
    and [stack_base_] is the rounded size and the allocation is the
    rounded size plus two pages, so the allocation is larger than the
    stored size whenever rounding does not shrink it. *)
Theorem minimum_stack_size (round_up : Z -> Z -> Z) (page_size : Z)
    (AllocRange : Z -> Z -> option Z) (s xapi entry context flags : Z) :
  let p := XThread_creation_params s xapi entry context flags in
  (s < 16 * 1024 -> stack_size p = 16 * 1024) /\
  (16 * 1024 <= s -> stack_size p = s) /\
  Create_stack_request p = stack_size p /\
  16 * 1024 <= stack_size p /\
  (xapi_thread_startup p, start_address p, start_context p, creation_flags p)
    = (xapi, entry, context, flags) /\
  Create_stack round_up page_size AllocRange p
    = XThread_AllocateStack round_up page_size AllocRange (stack_size p) /\
  (forall st : StackFields,
     Create_stack round_up page_size AllocRange p = Some st ->
     0 < page_size ->
     0 <= round_up (stack_size p) page_size ->
     0 <= stack_alloc_base_ st ->
     stack_alloc_base_ st + round_up (stack_size p) page_size + 2 * page_size
       < 2 ^ 32 ->
     stack_base_ st - stack_limit_ st = round_up (stack_size p) page_size /\
     stack_alloc_size_ st = round_up (stack_size p) page_size + 2 * page_size /\
     (stack_size p <= round_up (stack_size p) page_size ->
      16 * 1024 <= stack_base_ st - stack_limit_ st /\
      stack_size p < stack_alloc_size_ st)).
Proof.
  cbv zeta. split; [|split; [|split; [|split; [|split; [|split]]]]].
  - unfold XThread_creation_params. cbn [stack_size].
    destruct (Z.ltb_spec s (16 * 1024)); cbn [stack_size]; lia.
  - unfold XThread_creation_params. cbn [stack_size].
    destruct (Z.ltb_spec s (16 * 1024)); cbn [stack_size]; lia.
  - reflexivity.
  - unfold XThread_creation_params. cbn [stack_size].
    destruct (Z.ltb_spec s (16 * 1024)); cbn [stack_size]; lia.
  - unfold XThread_creation_params.
    cbn [stack_size xapi_thread_startup start_address start_context
         creation_flags].
    destruct (s <? 16 * 1024); reflexivity.
  - reflexivity.
  - intros st Hst Hpage Hround Hbase Hfit.
    set (p := XThread_creation_params s xapi entry context flags) in *.
    assert (Hmin : 16 * 1024 <= stack_size p).
    { subst p. unfold XThread_creation_params. cbn [stack_size].
      destruct (Z.ltb_spec s (16 * 1024)); cbn [stack_size]; lia. }
    unfold Create_stack, Create_stack_request in Hst.
    destruct (allocate_stack_fields round_up page_size AllocRange
                (stack_size p) st Hpage Hround Hst Hbase Hfit)
      as (Hsize & _ & Hb & _).
    split; [lia|]. split; [exact Hsize|]. intros Hup. lia.
Qed.

Lemma minimum_stack_size_witness :
  stack_size (XThread_creation_params 4096 0 0x82000000 0 1) = 16384 /\
  stack_size (XThread_creation_params 65536 0 0x82000000 0 1) = 65536 /\
  let st := mkStackFields 0x70000000 (16384 + 8192) 0x70001000 0x70005000
              [(0x70000000, 4096); (0x70005000, 4096)] in
  stack_base_ st - stack_limit_ st = 16384 /\
  stack_alloc_size_ st = 16384 + 2 * 4096.
Proof.
  split; [|split].
  - pose proof (minimum_stack_size (fun v a : Z => (v + a - 1) / a * a) 4096
                  (fun _ _ => Some 0x70000000) 4096 0 0x82000000 0 1) as H.
    cbv zeta in H. destruct H as (Hlow & _). apply Hlow. lia.
  - pose proof (minimum_stack_size (fun v a : Z => (v + a - 1) / a * a) 4096
                  (fun _ _ => Some 0x70000000) 65536 0 0x82000000 0 1) as H.
    cbv zeta in H. destruct H as (_ & Hhigh & _). apply Hhigh. lia.
  - cbv zeta.
    pose proof (minimum_stack_size (fun v a : Z => (v + a - 1) / a * a) 4096
                  (fun _ _ => Some 0x70000000) 4096 0 0x82000000 0 1) as H.
    cbv zeta in H. destruct H as (_ & _ & _ & _ & _ & _ & Hcreate).
    assert (Hst : Create_stack (fun v a : Z => (v + a - 1) / a * a) 4096
                    (fun _ _ => Some 0x70000000)
                    (XThread_creation_params 4096 0 0x82000000 0 1)
                  = Some (mkStackFields 0x70000000 (16384 + 8192) 0x70001000
                            0x70005000
                            [(0x70000000, 4096); (0x70005000, 4096)]))
      by reflexivity.
    assert (H1 : 0 < 4096) by lia.
    assert (H2 : 0 <= (fun v a : Z => (v + a - 1) / a * a)
                        (stack_size
                           (XThread_creation_params 4096 0 0x82000000 0 1))
                        4096) by (vm_compute; discriminate).
    assert (H3 : 0 <= stack_alloc_base_
                        (mkStackFields 0x70000000 (16384 + 8192) 0x70001000
                           0x70005000
                           [(0x70000000, 4096); (0x70005000, 4096)]))
      by (vm_compute; discriminate).
    assert (H4 : stack_alloc_base_
                   (mkStackFields 0x70000000 (16384 + 8192) 0x70001000
                      0x70005000 [(0x70000000, 4096); (0x70005000, 4096)])
                 + (fun v a : Z => (v + a - 1) / a * a)
                     (stack_size
                        (XThread_creation_params 4096 0 0x82000000 0 1)) 4096
                 + 2 * 4096 < 2 ^ 32) by (vm_compute; reflexivity).
    destruct (Hcreate _ Hst H1 H2 H3 H4) as (Hspan & Hsize & _).
    split; [exact Hspan | exact Hsize].
Defined.

(** C10 (as stated) fails for the stack [Create] allocates: a thread
    built with a requested size of 100 stores 16 KiB, but on a heap with
    64 KiB pages (rounding up to a multiple of the page size) the stack
    between [stack_limit_] and [stack_base_] is 64 KiB and the allocation
    is 192 KiB. *)
Lemma created_stack_not_16k :
  let round_up := fun v a : Z => (v + a - 1) / a * a in
  let p := XThread_creation_params 100 0 0x82000000 0 0 in
  let st := mkStackFields 0x70000000 196608 0x70010000 0x70020000
              [(0x70000000, 65536); (0x70020000, 65536)] in
  stack_size p = 16 * 1024 /\
  Create_stack round_up 65536 (fun _ _ => Some 0x70000000) p = Some st /\
  stack_base_ st - stack_limit_ st = 65536 /\
  stack_base_ st - stack_limit_ st <> 16 * 1024 /\
  stack_alloc_size_ st <> 16 * 1024.
Proof.
  cbv zeta. repeat split; try reflexivity; vm_compute; discriminate.
Qed.

(** X15 (stack layout): when [AllocateStack] succeeds and the allocation
    does not wrap the 32-bit address space, the allocation is exactly a
    guard page, the stack of the rounded size, and a second guard page, in
    that order: [stack_limit_] is one page above the allocation base,
    [stack_base_] is the rounded size above [stack_limit_], and the page
    protected at [stack_base_] ends where the allocation ends. *)
Theorem allocate_stack_layout (round_up : Z -> Z -> Z) (page_size : Z)
    (AllocRange : Z -> Z -> option Z) (size : Z) (s : StackFields) :
  0 < page_size ->
  0 <= round_up size page_size ->
  XThread_AllocateStack round_up page_size AllocRange size = Some s ->
  0 <= stack_alloc_base_ s ->
  stack_alloc_base_ s + round_up size page_size + 2 * page_size < 2 ^ 32 ->
  stack_alloc_size_ s = round_up size page_size + 2 * page_size /\
  stack_limit_ s = stack_alloc_base_ s + page_size /\
  stack_base_ s = stack_limit_ s + round_up size page_size /\
  stack_base_ s + page_size = stack_alloc_base_ s + stack_alloc_size_ s /\
  guard_ranges s
    = [(stack_alloc_base_ s, page_size); (stack_base_ s, page_size)].
Proof. apply allocate_stack_fields. Qed.

Lemma allocate_stack_layout_witness :
  let round_up := fun v a : Z => (v + a - 1) / a * a in
  let s := mkStackFields 0x70000000 (20480 + 8192) 0x70001000 0x70006000
             [(0x70000000, 4096); (0x70006000, 4096)] in
  XThread_AllocateStack round_up 4096 (fun _ _ => Some 0x70000000) 20000
  = Some s /\
  stack_base_ s + 4096 = stack_alloc_base_ s + stack_alloc_size_ s.
Proof.
  cbv zeta.
  assert (Hs : XThread_AllocateStack (fun v a : Z => (v + a - 1) / a * a) 4096
                 (fun _ _ => Some 0x70000000) 20000
               = Some (mkStackFields 0x70000000 (20480 + 8192) 0x70001000
                         0x70006000 [(0x70000000, 4096); (0x70006000, 4096)]))
    by reflexivity.
  split; [exact Hs|].
  assert (H1 : 0 < 4096) by lia.
  assert (H2 : 0 <= (fun v a : Z => (v + a - 1) / a * a) 20000 4096)
    by (vm_compute; discriminate).
  assert (H3 : 0 <= stack_alloc_base_
                      (mkStackFields 0x70000000 (20480 + 8192) 0x70001000
                         0x70006000 [(0x70000000, 4096); (0x70006000, 4096)]))
    by (vm_compute; discriminate).
  assert (H4 : stack_alloc_base_
                 (mkStackFields 0x70000000 (20480 + 8192) 0x70001000
                    0x70006000 [(0x70000000, 4096); (0x70006000, 4096)])
               + (fun v a : Z => (v + a - 1) / a * a) 20000 4096 + 2 * 4096
               < 2 ^ 32) by (vm_compute; reflexivity).
  exact (proj1 (proj2 (proj2 (proj2
           (allocate_stack_layout _ 4096 _ 20000 _ H1 H2 Hs H3 H4))))).
Defined.

(** X16 (minimum stack): for a rounding function that never rounds below
    its argument, the stack [Create] sets up for a thread built by the
    constructor spans at least 16 KiB and at least the requested size
    between [stack_limit_] and [stack_base_], whatever size was
    requested. *)
Theorem created_stack_at_least_16k (round_up : Z -> Z -> Z) (page_size : Z)
    (AllocRange : Z -> Z -> option Z)
    (requested xapi entry context flags : Z) (s : StackFields) :
  (forall v, v <= round_up v page_size) ->
  0 < page_size ->
  let p := XThread_creation_params requested xapi entry context flags in
  Create_stack round_up page_size AllocRange p = Some s ->
  0 <= stack_alloc_base_ s ->
  stack_alloc_base_ s + round_up (stack_size p) page_size + 2 * page_size
    < 2 ^ 32 ->
  16 * 1024 <= stack_base_ s - stack_limit_ s /\
  requested <= stack_base_ s - stack_limit_ s.
Proof.
  intros Hround Hpage p Hs Hbase Hfit.
  assert (Hmin : 16 * 1024 <= stack_size p /\ requested <= stack_size p).
  { subst p. unfold XThread_creation_params. cbn [stack_size].
    destruct (Z.ltb_spec requested (16 * 1024)); cbn [stack_size]; lia. }
  pose proof (Hround (stack_size p)) as Hr.
  unfold Create_stack, Create_stack_request in Hs.
  assert (Hnn : 0 <= round_up (stack_size p) page_size) by lia.
  destruct (allocate_stack_fields round_up page_size AllocRange (stack_size p) s
              Hpage Hnn Hs Hbase Hfit) as (_ & _ & Hb & _).
  lia.
Qed.

Lemma created_stack_at_least_16k_witness :
  let round_up := fun v a : Z => (v + a - 1) / a * a in
  let s := mkStackFields 0x70000000 (16384 + 8192) 0x70001000 0x70005000
             [(0x70000000, 4096); (0x70005000, 4096)] in
  Create_stack round_up 4096 (fun _ _ => Some 0x70000000)
    (XThread_creation_params 100 0 0x82000000 0 0) = Some s /\
  16 * 1024 <= stack_base_ s - stack_limit_ s.
Proof.
  cbv zeta.
  assert (Hs : Create_stack (fun v a : Z => (v + a - 1) / a * a) 4096
                 (fun _ _ => Some 0x70000000)
                 (XThread_creation_params 100 0 0x82000000 0 0)
               = Some (mkStackFields 0x70000000 (16384 + 8192) 0x70001000
                         0x70005000 [(0x70000000, 4096); (0x70005000, 4096)]))
    by reflexivity.
  split; [exact Hs|].
  assert (Hround : forall v, v <= (fun v a : Z => (v + a - 1) / a * a) v 4096).
  { intros v. cbv beta.
    pose proof (Z.mul_div_le (v + 4096 - 1) 4096 ltac:(lia)).
    pose proof (Z.mod_pos_bound (v + 4096 - 1) 4096 ltac:(lia)).
    pose proof (Z.div_mod (v + 4096 - 1) 4096 ltac:(lia)). lia. }
  assert (H1 : 0 < 4096) by lia.
  assert (H3 : 0 <= stack_alloc_base_
                      (mkStackFields 0x70000000 (16384 + 8192) 0x70001000
                         0x70005000 [(0x70000000, 4096); (0x70005000, 4096)]))
    by (vm_compute; discriminate).
  assert (H4 : stack_alloc_base_
                 (mkStackFields 0x70000000 (16384 + 8192) 0x70001000
                    0x70005000 [(0x70000000, 4096); (0x70005000, 4096)])
               + (fun v a : Z => (v + a - 1) / a * a)
                   (stack_size (XThread_creation_params 100 0 0x82000000 0 0)) 4096
               + 2 * 4096 < 2 ^ 32) by (vm_compute; reflexivity).
  exact (proj1 (created_stack_at_least_16k _ 4096 _ 100 0 0x82000000 0 0 _
                  Hround H1 Hs H3 H4)).
Defined.

(* ================================================================== *)
(** ** TLS slots *)
(* ================================================================== *)

Lemma byte_of_word_bits v k i :
  0 <= k -> 0 <= i ->
  Z.testbit (Z.shiftl (Z.land (Z.shiftr v k) 0xFF) k) i
  = (k <=? i) && (i <? k + 8) && Z.testbit v i.
Proof.
  intros Hk Hi. rewrite Z.shiftl_spec by lia.
  destruct (Z.leb_spec k i); cbn [andb].
  - rewrite Z.land_spec, Z.shiftr_spec by lia.
    change 0xFF with (Z.ones 8). rewrite Z.testbit_ones_nonneg by lia.
    replace (i - k + k) with i by lia.
    destruct (Z.ltb_spec (i - k) 8), (Z.ltb_spec i (k + 8)); try lia;
      cbn [andb]; rewrite ?andb_true_r, ?andb_false_r; reflexivity.
  - apply Z.testbit_neg_r. lia.
Qed.

(** A big-endian store followed by a load at the same address gives the
    stored 32-bit value back. *)
Lemma load_store_u32 (mem : GuestMemory) (addr v : Z) :
  0 <= v < 2 ^ 32 ->
  load_and_swap_u32 (store_and_swap_u32 mem addr v) addr = v.
Proof.
  intros Hv. unfold load_and_swap_u32, store_and_swap_u32, guest_byte.
  rewrite lookup_insert_eq.
  rewrite (lookup_insert_ne _ addr (addr + 1)) by lia. rewrite lookup_insert_eq.
  rewrite (lookup_insert_ne _ addr (addr + 2)) by lia.
  rewrite (lookup_insert_ne _ (addr + 1) (addr + 2)) by lia.
  rewrite lookup_insert_eq.
  rewrite (lookup_insert_ne _ addr (addr + 3)) by lia.
  rewrite (lookup_insert_ne _ (addr + 1) (addr + 3)) by lia.
  rewrite (lookup_insert_ne _ (addr + 2) (addr + 3)) by lia.
  rewrite lookup_insert_eq. cbn [default].
  apply Z.bits_inj'. intros i Hi.
  rewrite !Z.lor_spec.
  rewrite (byte_of_word_bits v 24), (byte_of_word_bits v 16),
          (byte_of_word_bits v 8) by lia.
  cbv [id]. rewrite Z.land_spec. change 255 with (Z.ones 8).
  rewrite Z.testbit_ones_nonneg by lia.
  destruct (Z.leb_spec 24 i), (Z.leb_spec 16 i), (Z.leb_spec 8 i),
           (Z.ltb_spec i (24 + 8)), (Z.ltb_spec i (16 + 8)),
           (Z.ltb_spec i (8 + 8)), (Z.ltb_spec i 8);
    try lia; cbn [andb orb];
    rewrite ?andb_true_r, ?andb_false_r, ?orb_false_r; try reflexivity.
  symmetry. apply (bits_above 32); lia.
Qed.

(** A store leaves a load at a non-overlapping address alone. *)
Lemma load_store_u32_other (mem : GuestMemory) (a b v : Z) :
  a + 4 <= b \/ b + 4 <= a ->
  load_and_swap_u32 (store_and_swap_u32 mem a v) b = load_and_swap_u32 mem b.
Proof.
  intros Hab. unfold load_and_swap_u32, store_and_swap_u32, guest_byte.
  rewrite !lookup_insert_ne by lia. reflexivity.
Qed.

(** X17 (TLS round trip): a [SetTLSValue] that succeeds is read back by
    [GetTLSValue] on the same slot: the get succeeds and returns the value
    that was set. *)
Theorem tls_set_then_get (t : ThreadTLS) (mem mem' : GuestMemory)
    (slot value : Z) :
  0 <= value < 2 ^ 32 ->
  XThread_SetTLSValue t mem slot value = (true, mem') ->
  XThread_GetTLSValue t mem' slot = Some value.
Proof.
  intros Hv Hset. unfold XThread_SetTLSValue in Hset.
  unfold XThread_GetTLSValue.
  destruct (Z.leb_spec (tls_total_size_ t) (Int.u32 (slot * 4))) as [|Hlt];
    [discriminate|].
  injection Hset as <-.
  destruct (Z.ltb_spec (tls_total_size_ t) (Int.u32 (slot * 4))); [lia|].
  rewrite load_store_u32 by exact Hv. reflexivity.
Qed.

Lemma tls_set_then_get_witness :
  XThread_GetTLSValue (mkThreadTLS 4096 0x40001000)
    (snd (XThread_SetTLSValue (mkThreadTLS 4096 0x40001000) ∅ 7 0xCAFEF00D)) 7
  = Some 0xCAFEF00D.
Proof.
  apply (tls_set_then_get (mkThreadTLS 4096 0x40001000) ∅ _ 7 0xCAFEF00D).
  - lia.
  - reflexivity.
Defined.

(** X18 (TLS isolation): a [SetTLSValue] that is rejected leaves guest
    memory as it was, and one that succeeds does not change what
    [GetTLSValue] returns for a slot at a different 32-bit offset (with
    the block not wrapping the address space). *)
Theorem tls_set_keeps_other_slots (t : ThreadTLS) (mem : GuestMemory)
    (slot other value : Z) :
  0 <= tls_dynamic_address_ t ->
  tls_dynamic_address_ t + tls_total_size_ t + 4 <= 2 ^ 32 ->
  Int.u32 (slot * 4) <> Int.u32 (other * 4) ->
  (fst (XThread_SetTLSValue t mem slot value) = false ->
   snd (XThread_SetTLSValue t mem slot value) = mem) /\
  XThread_GetTLSValue t (snd (XThread_SetTLSValue t mem slot value)) other
  = XThread_GetTLSValue t mem other.
Proof.
  intros Hdyn Hfit Hne. unfold XThread_SetTLSValue, XThread_GetTLSValue.
  destruct (Z.leb_spec (tls_total_size_ t) (Int.u32 (slot * 4))) as [|Hs];
    cbn [fst snd]; [split; reflexivity|].
  split; [discriminate|].
  destruct (Z.ltb_spec (tls_total_size_ t) (Int.u32 (other * 4))) as [|Ho];
    [reflexivity|].
  f_equal. apply load_store_u32_other.
  pose proof (u32_range (slot * 4)) as Hrs.
  pose proof (u32_range (other * 4)) as Hro.
  assert (Hm4 : forall z, exists k, Int.u32 (z * 4) = 4 * k).
  { intros z. unfold Int.u32, Int.UINT32_MOD.
    exists (z - 2 ^ 30 * (z * 4 / 2 ^ 32)).
    pose proof (Z.div_mod (z * 4) (2 ^ 32) ltac:(lia)) as Hdm.
    change (2 ^ 32) with 4294967296 in *. change (2 ^ 30) with 1073741824.
    lia. }
  destruct (Hm4 slot) as [ks Hks]. destruct (Hm4 other) as [ko Hko].
  set (a := Int.u32 (slot * 4)) in *. set (b := Int.u32 (other * 4)) in *.
  change (2 ^ 32) with 4294967296 in *.
  rewrite (u32_small (tls_dynamic_address_ t + a))
    by (change (2 ^ 32) with 4294967296; lia).
  rewrite (u32_small (tls_dynamic_address_ t + b))
    by (change (2 ^ 32) with 4294967296; lia).
  lia.
Qed.

Lemma tls_set_keeps_other_slots_witness :
  XThread_GetTLSValue (mkThreadTLS 4096 0x40001000)
    (snd (XThread_SetTLSValue (mkThreadTLS 4096 0x40001000)
            {[ 0x40001020 := 0x12 ]} 7 0xCAFEF00D)) 8
  = Some 0x12000000.
Proof.
  pose proof (tls_set_keeps_other_slots (mkThreadTLS 4096 0x40001000)
                {[ 0x40001020 := 0x12 ]} 7 8 0xCAFEF00D
                ltac:(vm_compute; discriminate)
                ltac:(vm_compute; discriminate)
                ltac:(vm_compute; discriminate)) as [_ H].
  rewrite H. reflexivity.
Defined.

(** X19 (TLS block): in the block [Create] lays out, every slot below the
    slot count is accepted by [SetTLSValue] and by [GetTLSValue], and the
    four bytes of the slot lie inside the allocated block, after the
    extended data. *)
Theorem created_tls_slots_in_block (tls_header : option (Z * Z))
    (SystemHeapAlloc : Z -> Z) (b : TLSBlock) (mem : GuestMemory)
    (slot value : Z) :
  let slots := fst (tls_slots_and_extended tls_header) in
  let extended := snd (tls_slots_and_extended tls_header) in
  Create_tls tls_header SystemHeapAlloc = Some b ->
  0 <= extended -> 0 < slots ->
  0 < tls_static_address_ b ->
  tls_static_address_ b + slots * 4 + extended < 2 ^ 32 ->
  0 <= slot < slots ->
  let address := tls_dynamic_address_ (tls_fields b) + slot * 4 in
  fst (XThread_SetTLSValue (tls_fields b) mem slot value) = true /\
  XThread_GetTLSValue (tls_fields b) mem slot
    = Some (load_and_swap_u32 mem address) /\
  tls_static_address_ b + extended <= address /\
  address + 4 <= tls_static_address_ b + tls_total_size_ (tls_fields b).
Proof.
  intros slots extended Hc Hext Hslots Hstatic Hfit Hslot address.
  unfold Create_tls in Hc.
  destruct (tls_slots_and_extended tls_header) as [n e] eqn:Hh.
  cbn [fst snd] in slots, extended. subst slots extended.
  rewrite (u32_small (n * 4)) in Hc by lia.
  rewrite (u32_small (n * 4 + e)) in Hc by lia.
  destruct (SystemHeapAlloc (n * 4 + e) =? 0); [discriminate|].
  injection Hc as <-. cbn [tls_static_address_ tls_fields] in *.
  subst address. cbn [tls_dynamic_address_ tls_total_size_].
  rewrite (u32_small (SystemHeapAlloc (n * 4 + e) + e)) by lia.
  unfold XThread_SetTLSValue, XThread_GetTLSValue.
  cbn [tls_dynamic_address_ tls_total_size_].
  rewrite (u32_small (slot * 4)) by lia.
  rewrite (u32_small (SystemHeapAlloc (n * 4 + e) + e + slot * 4)) by lia.
  destruct (Z.leb_spec (n * 4 + e) (slot * 4)); [lia|].
  destruct (Z.ltb_spec (n * 4 + e) (slot * 4)); [lia|].
  cbn [fst]. repeat split; lia.
Qed.

Lemma created_tls_slots_in_block_witness :
  let b := mkTLSBlock 0x40001000 (mkThreadTLS (64 * 4 + 256) (0x40001000 + 256)) in
  Create_tls (Some (64, 256)) (fun _ => 0x40001000) = Some b /\
  fst (XThread_SetTLSValue (tls_fields b) ∅ 63 1) = true.
Proof.
  cbv zeta.
  assert (Hc : Create_tls (Some (64, 256)) (fun _ => 0x40001000)
               = Some (mkTLSBlock 0x40001000
                         (mkThreadTLS (64 * 4 + 256) (0x40001000 + 256))))
    by reflexivity.
  split; [exact Hc|].
  exact (proj1 (created_tls_slots_in_block (Some (64, 256))
                  (fun _ => 0x40001000) _ ∅ 63 1 Hc
                  ltac:(vm_compute; discriminate) ltac:(vm_compute; reflexivity)
                  ltac:(vm_compute; reflexivity) ltac:(vm_compute; reflexivity)
                  ltac:(vm_compute; split; [discriminate | reflexivity]))).
Defined.

(** X20 (TLS bounds against the total size): the slot accessors compare
    the slot offset with the size of the whole block, extended data
    included, but address the slot from the end of the extended data. With
    at least four bytes of extended data the slot equal to the slot count
    is accepted, and its four bytes start exactly at the end of the
    allocated block. *)
Theorem created_tls_accepts_slot_past_block (tls_header : option (Z * Z))
    (SystemHeapAlloc : Z -> Z) (b : TLSBlock) (mem : GuestMemory) (value : Z) :
  let slots := fst (tls_slots_and_extended tls_header) in
  let extended := snd (tls_slots_and_extended tls_header) in
  Create_tls tls_header SystemHeapAlloc = Some b ->
  4 <= extended -> 0 < slots ->
  0 < tls_static_address_ b ->
  tls_static_address_ b + slots * 4 + extended + slots * 4 < 2 ^ 32 ->
  fst (XThread_SetTLSValue (tls_fields b) mem slots value) = true /\
  tls_dynamic_address_ (tls_fields b) + slots * 4
  = tls_static_address_ b + tls_total_size_ (tls_fields b).
Proof.
  intros slots extended Hc Hext Hslots Hstatic Hfit.
  unfold Create_tls in Hc.
  destruct (tls_slots_and_extended tls_header) as [n e] eqn:Hh.
  cbn [fst snd] in slots, extended. subst slots extended.
  rewrite (u32_small (n * 4)) in Hc by lia.
  rewrite (u32_small (n * 4 + e)) in Hc by lia.
  destruct (SystemHeapAlloc (n * 4 + e) =? 0); [discriminate|].
  injection Hc as <-. cbn [tls_static_address_ tls_fields] in *.
  cbn [tls_dynamic_address_ tls_total_size_].
  rewrite (u32_small (SystemHeapAlloc (n * 4 + e) + e)) by lia.
  unfold XThread_SetTLSValue. cbn [tls_dynamic_address_ tls_total_size_].
  rewrite (u32_small (n * 4)) by lia.
  destruct (Z.leb_spec (n * 4 + e) (n * 4)); [lia|].
  cbn [fst]. split; [reflexivity | lia].
Qed.

Lemma created_tls_accepts_slot_past_block_witness :
  let b := mkTLSBlock 0x40001000 (mkThreadTLS (64 * 4 + 256) (0x40001000 + 256)) in
  Create_tls (Some (64, 256)) (fun _ => 0x40001000) = Some b /\
  fst (XThread_SetTLSValue (tls_fields b) ∅ 64 1) = true.
Proof.
  cbv zeta.
  assert (Hc : Create_tls (Some (64, 256)) (fun _ => 0x40001000)
               = Some (mkTLSBlock 0x40001000
                         (mkThreadTLS (64 * 4 + 256) (0x40001000 + 256))))
    by reflexivity.
  split; [exact Hc|].
  exact (proj1 (created_tls_accepts_slot_past_block (Some (64, 256))
                  (fun _ => 0x40001000) _ ∅ 1 Hc
                  ltac:(vm_compute; discriminate) ltac:(vm_compute; reflexivity)
                  ltac:(vm_compute; reflexivity) ltac:(vm_compute; reflexivity))).
Defined.

(* ================================================================== *)
(** ** Priority bands and processor numbers *)
(* ================================================================== *)

(** X21 (priority bands): the host band chosen by [SetPriority] grows
    with the increment and mirrors under negation; it is the normal band
    exactly for increments from -0x11 to 0x11. The increment is stored in
    [priority_] even when thread priorities are ignored, in which case no
    band is handed to the host thread. *)
Theorem set_priority_bands (i1 i2 : Z) (ignore : bool) :
  i1 <= i2 ->
  priority_rank (target_priority i1) <= priority_rank (target_priority i2) /\
  priority_rank (target_priority (- i1)) = - priority_rank (target_priority i1) /\
  (target_priority i1 = kNormal <-> - 0x11 <= i1 <= 0x11) /\
  fst (XThread_SetPriority ignore i1) = i1 /\
  snd (XThread_SetPriority ignore i1)
    = if ignore then None else Some (target_priority i1).
Proof.
  intros Hle.
  assert (Hband : forall i,
    (0x22 < i /\ target_priority i = kHighest) \/
    (0x11 < i <= 0x22 /\ target_priority i = kAboveNormal) \/
    (i < - 0x22 /\ target_priority i = kLowest) \/
    (- 0x22 <= i < - 0x11 /\ target_priority i = kBelowNormal) \/
    (- 0x11 <= i <= 0x11 /\ target_priority i = kNormal)).
  { intros i. unfold target_priority.
    destruct (Z.ltb_spec 0x22 i); [left; split; [lia | reflexivity]|].
    destruct (Z.ltb_spec 0x11 i); [right; left; split; [lia | reflexivity]|].
    destruct (Z.ltb_spec i (- 0x22));
      [right; right; left; split; [lia | reflexivity]|].
    destruct (Z.ltb_spec i (- 0x11));
      [right; right; right; left; split; [lia | reflexivity]|].
    right; right; right; right. split; [lia | reflexivity]. }
  split; [|split; [|split; [|split]]].
  - destruct (Hband i1) as [[? ->]|[[? ->]|[[? ->]|[[? ->]|[? ->]]]]],
             (Hband i2) as [[? ->]|[[? ->]|[[? ->]|[[? ->]|[? ->]]]]];
      cbn [priority_rank]; lia.
  - destruct (Hband i1) as [[? ->]|[[? ->]|[[? ->]|[[? ->]|[? ->]]]]],
             (Hband (- i1)) as [[? ->]|[[? ->]|[[? ->]|[[? ->]|[? ->]]]]];
      cbn [priority_rank]; lia.
  - destruct (Hband i1) as [[? ->]|[[? ->]|[[? ->]|[[? ->]|[? ->]]]]];
      split; intros; try discriminate; try lia; reflexivity.
  - reflexivity.
  - destruct ignore; reflexivity.
Qed.

Lemma set_priority_bands_witness :
  priority_rank (target_priority (-0x23)) <= priority_rank (target_priority 0x12).
Proof.
  exact (proj1 (set_priority_bands (-0x23) 0x12 false ltac:(lia))).
Defined.

Lemma cpu_mask_cases :
  forallb (fun m : Z =>
             Bool.eqb (snd (GetFakeCpuNumber (fun v => 7 - Z.log2 v) 0 m))
                      (existsb (fun k : Z => 2 ^ k =? m) [0; 1; 2; 3; 4; 5]))
          (map Z.of_nat (seq 1 255)) = true.
Proof. vm_compute. reflexivity. Qed.

(** X22 (processor number): let [lzcnt] count the leading zero bits of the
    8-bit processor mask. For a mask other than zero the assertions of
    [GetFakeCpuNumber] hold exactly when the mask is a single bit [2 ^ k]
    with [k] below 6, and for such a mask the function returns [k] and
    leaves [next_cpu] alone. *)
Theorem fake_cpu_number_single_bit (lzcnt : Z -> Z) (next_cpu mask : Z) :
  0 < mask < 256 ->
  0 <= lzcnt mask <= 7 ->
  2 ^ (7 - lzcnt mask) <= mask < 2 ^ (8 - lzcnt mask) ->
  (snd (GetFakeCpuNumber lzcnt next_cpu mask) = true
   <-> exists k, 0 <= k < 6 /\ mask = 2 ^ k) /\
  (forall k, 0 <= k < 6 -> mask = 2 ^ k ->
     GetFakeCpuNumber lzcnt next_cpu mask = (k, next_cpu, true)).
Proof.
  intros Hm Hlz Hbits.
  assert (Hlog : lzcnt mask = 7 - Z.log2 mask).
  { assert (Z.log2 mask = 7 - lzcnt mask); [|lia].
    apply Z.log2_unique; [lia|].
    replace (Z.succ (7 - lzcnt mask)) with (8 - lzcnt mask) by lia.
    exact Hbits. }
  assert (Hfun : forall nc, GetFakeCpuNumber lzcnt nc mask
                            = GetFakeCpuNumber (fun v => 7 - Z.log2 v) nc mask).
  { intros nc. unfold GetFakeCpuNumber. rewrite Hlog. reflexivity. }
  rewrite !Hfun. clear Hfun Hlog Hlz Hbits.
  assert (Hin : In mask (map Z.of_nat (seq 1 255))).
  { replace mask with (Z.of_nat (Z.to_nat mask)) by lia.
    apply in_map, in_seq. lia. }
  pose proof (proj1 (forallb_forall _ _) cpu_mask_cases mask Hin) as Hc.
  apply Bool.eqb_prop in Hc.
  assert (Hsame : snd (GetFakeCpuNumber (fun v => 7 - Z.log2 v) next_cpu mask)
                  = snd (GetFakeCpuNumber (fun v => 7 - Z.log2 v) 0 mask)).
  { unfold GetFakeCpuNumber. destruct (Z.eqb_spec mask 0); [lia | reflexivity]. }
  assert (Hex : existsb (fun k : Z => 2 ^ k =? mask) [0; 1; 2; 3; 4; 5] = true
                <-> exists k, 0 <= k < 6 /\ mask = 2 ^ k).
  { rewrite existsb_exists. split.
    - intros (k & Hk & Heq). apply Z.eqb_eq in Heq. exists k. split; [|lia].
      cbn [In] in Hk. lia.
    - intros (k & Hk & ->). exists k. split; [|apply Z.eqb_refl].
      cbn [In]. lia. }
  split.
  - rewrite Hsame, Hc. exact Hex.
  - intros k Hk ->.
    assert (Hk' : In k [0; 1; 2; 3; 4; 5]) by (cbn [In]; lia).
    cbn [In] in Hk'.
    repeat (destruct Hk' as [<- | Hk']; [reflexivity|]). contradiction.
Qed.

Lemma fake_cpu_number_single_bit_witness :
  GetFakeCpuNumber (fun v => 7 - Z.log2 v) 2 0x20 = (5, 2, true).
Proof.
  exact (proj2 (fake_cpu_number_single_bit (fun v => 7 - Z.log2 v) 2 0x20
                  ltac:(lia)
                  ltac:(vm_compute; split; discriminate)
                  ltac:(vm_compute; split; [discriminate | reflexivity]))
               5 ltac:(lia) eq_refl).
Defined.

(** X23 (round robin): with a zero mask [GetFakeCpuNumber] returns the
    successor of [next_cpu] modulo 6 and stores it; starting from any
    state below 6, six calls hand out each of the six processors once and
    bring [next_cpu] back to where it started. *)
Theorem fake_cpu_number_round_robin (lzcnt : Z -> Z) (n : Z) :
  0 <= n < 6 ->
  let step := fun s : Z => fst (fst (GetFakeCpuNumber lzcnt s 0)) in
  let handed := [step n; step (step n); step (step (step n));
                 step (step (step (step n)));
                 step (step (step (step (step n))));
                 step (step (step (step (step (step n)))))] in
  GetFakeCpuNumber lzcnt n 0 = ((n + 1) mod 6, (n + 1) mod 6, true) /\
  (forall c, 0 <= c < 6 -> In c handed) /\
  NoDup handed /\
  step (step (step (step (step (step n))))) = n.
Proof.
  intros Hn step handed.
  assert (Hcases : In n [0; 1; 2; 3; 4; 5]) by (cbn [In]; lia).
  split.
  - unfold GetFakeCpuNumber. cbn [Z.eqb].
    rewrite (Z.mod_small ((n + 1) mod 6) 256); [reflexivity|].
    pose proof (Z.mod_pos_bound (n + 1) 6 ltac:(lia)). lia.
  - cbn [In] in Hcases.
    repeat (destruct Hcases as [<- | Hcases];
            [ subst handed step; split; [|split]; 
              [ intros c Hc; 
                assert (Hc' : In c [0; 1; 2; 3; 4; 5]) by (cbn [In]; lia);
                cbn [In] in Hc';
                repeat (destruct Hc' as [<- | Hc']; [vm_compute; tauto|]);
                contradiction
              | vm_compute; repeat constructor; 
                rewrite ?list_elem_of_In; cbn [In]; intuition discriminate
              | reflexivity ]
            | ]).
    contradiction.
Qed.

Lemma fake_cpu_number_round_robin_witness :
  GetFakeCpuNumber (fun v => 7 - Z.log2 v) 5 0 = (0, 0, true).
Proof.
  exact (proj1 (fake_cpu_number_round_robin (fun v => 7 - Z.log2 v) 5
                  ltac:(lia))).
Defined.

(* ================================================================== *)
(** ** File time and system time *)
(* ================================================================== *)

Lemma s64_small z : - 2 ^ 63 <= z < 2 ^ 63 -> Int.s64 z = z.
Proof.
  intros Hz. unfold Int.s64, Int.u64, Int.UINT64_MOD.
  destruct (Z.lt_ge_cases z 0) as [Hneg|Hpos].
  - replace (z mod 2 ^ 64) with (z + 2 ^ 64).
    + destruct (Z.ltb_spec (z + 2 ^ 64) (2 ^ 63)); lia.
    + symmetry. rewrite <- (Z.mod_add z 1 (2 ^ 64)) by lia.
      rewrite Z.mul_1_l. apply Z.mod_small. lia.
  - rewrite Z.mod_small by lia.
    destruct (Z.ltb_spec z (2 ^ 63)); lia.
Qed.

(** X24 (file time round trip): converting a 64-bit file time to a time
    point and back gives the file time again, for every [uint64_t] value,
    those above the signed range included; and every time point survives
    the trip through its file time. *)
Theorem file_time_round_trip (ft tp : Z) :
  0 <= ft < 2 ^ 64 -> - 2 ^ 63 <= tp < 2 ^ 63 ->
  to_file_time (from_file_time ft) = ft /\
  from_file_time (to_file_time tp) = tp.
Proof.
  intros Hft Htp. unfold to_file_time, from_file_time. split.
  - unfold Int.s64. rewrite (u64_small ft) by lia.
    destruct (Z.ltb_spec ft (2 ^ 63)).
    + apply u64_small. lia.
    + unfold Int.u64, Int.UINT64_MOD.
      rewrite <- (Z.mod_add (ft - 2 ^ 64) 1 (2 ^ 64)) by lia.
      rewrite Z.mul_1_l. replace (ft - 2 ^ 64 + 2 ^ 64) with ft by lia.
      apply Z.mod_small. lia.
  - assert (Hidem : Int.u64 (Int.u64 tp) = Int.u64 tp)
      by (unfold Int.u64, Int.UINT64_MOD; apply Z.mod_mod; lia).
    transitivity (Int.s64 tp); [|apply s64_small; exact Htp].
    unfold Int.s64. rewrite Hidem. reflexivity.
Qed.

Lemma file_time_round_trip_witness :
  to_file_time (from_file_time 0xFFFFFFFFFFFFFFF0) = 0xFFFFFFFFFFFFFFF0 /\
  from_file_time (to_file_time (-16)) = -16.
Proof.
  apply (file_time_round_trip 0xFFFFFFFFFFFFFFF0 (-16)); lia.
Defined.

Lemma unix_epoch_delta_value : unix_epoch_delta = - ((369 * 365 + 89) * 86400).
Proof. reflexivity. Qed.

(** X25 (system time round trip): the offset between the two epochs is
    369 years with 89 leap days, in seconds. When the system clock ticks a
    whole number [k] of times per 100 ns, [to_sys] multiplies the distance
    from 1970 by [k] and [from_sys] undoes it: a time point converted to
    system time and back is unchanged, and so is a system time that is a
    multiple of [k], as long as the scaled values fit in 64 bits. *)
Theorem sys_time_round_trip (k tp q : Z) :
  1 <= k ->
  let offset := unix_epoch_delta * NT_HZ in
  - 2 ^ 63 <= tp < 2 ^ 63 ->
  - 2 ^ 63 <= (tp + offset) * k < 2 ^ 63 ->
  - 2 ^ 63 <= q * k < 2 ^ 63 -> - 2 ^ 63 <= q - offset < 2 ^ 63 ->
  unix_epoch_delta = - ((369 * 365 + 89) * 86400) /\
  to_sys (k * NT_HZ) tp = (tp + offset) * k /\
  from_sys (k * NT_HZ) (to_sys (k * NT_HZ) tp) = tp /\
  to_sys (k * NT_HZ) (from_sys (k * NT_HZ) (q * k)) = q * k.
Proof.
  intros Hk offset Htp Hscaled Hq Hqo.
  assert (Hoff : duration_cast 1 NT_HZ unix_epoch_delta = offset) by reflexivity.
  assert (Hup : forall d, - 2 ^ 63 <= d * k < 2 ^ 63 ->
                          duration_cast NT_HZ (k * NT_HZ) d = d * k).
  { intros d Hd. unfold duration_cast.
    replace (d * (k * NT_HZ)) with (d * k * NT_HZ) by ring.
    rewrite Z.quot_mul by (unfold NT_HZ; lia). apply s64_small. exact Hd. }
  assert (Hdown : forall d, - 2 ^ 63 <= d < 2 ^ 63 ->
                            duration_cast (k * NT_HZ) NT_HZ (d * k) = d).
  { intros d Hd. unfold duration_cast.
    replace (d * k * NT_HZ) with (d * (k * NT_HZ)) by ring.
    rewrite Z.quot_mul by (unfold NT_HZ; lia). apply s64_small. exact Hd. }
  assert (Hsmall : forall d, - 2 ^ 63 <= d * k < 2 ^ 63 -> - 2 ^ 63 <= d < 2 ^ 63)
    by (intros d Hd; nia).
  assert (Hto : to_sys (k * NT_HZ) tp = (tp + offset) * k).
  { unfold to_sys. rewrite Hoff.
    rewrite (s64_small (tp + offset)) by (apply Hsmall; exact Hscaled).
    apply Hup. exact Hscaled. }
  split; [exact unix_epoch_delta_value|]. split; [exact Hto|]. split.
  - rewrite Hto. unfold from_sys. rewrite Hoff.
    rewrite Hdown by (apply Hsmall; exact Hscaled).
    replace (tp + offset - offset) with tp by ring. apply s64_small. exact Htp.
  - unfold from_sys. rewrite Hoff.
    rewrite Hdown by (apply Hsmall; exact Hq).
    unfold to_sys. rewrite Hoff.
    rewrite (s64_small (q - offset)) by exact Hqo.
    replace (q - offset + offset) with q by ring.
    rewrite s64_small by (apply Hsmall; exact Hq).
    apply Hup. exact Hq.
Qed.

Lemma sys_time_round_trip_witness :
  to_sys (100 * NT_HZ) 116444736000000000 = 0 /\
  from_sys (100 * NT_HZ) (to_sys (100 * NT_HZ) 132538032123450000)
  = 132538032123450000.
Proof.
  split.
  - exact (proj1 (proj2 (sys_time_round_trip 100 116444736000000000 0
             ltac:(lia) ltac:(vm_compute; split; [discriminate | reflexivity])
             ltac:(vm_compute; split; [discriminate | reflexivity])
             ltac:(vm_compute; split; [discriminate | reflexivity])
             ltac:(vm_compute; split; [discriminate | reflexivity])))).
  - exact (proj1 (proj2 (proj2 (sys_time_round_trip 100 132538032123450000 0
             ltac:(lia) ltac:(vm_compute; split; [discriminate | reflexivity])
             ltac:(vm_compute; split; [discriminate | reflexivity])
             ltac:(vm_compute; split; [discriminate | reflexivity])
             ltac:(vm_compute; split; [discriminate | reflexivity]))))).
Defined.

(* ================================================================== *)
(** ** Trimming *)
(* ================================================================== *)

Section Trim.

Variable chars : string_view.

Lemma trim_left_cons c r :
  trim_left (c :: r) chars
  = if in_chars chars c then trim_left r chars else c :: r.
Proof.
  unfold trim_left. cbn [find_first_not_of].
  destruct (in_chars chars c); [|reflexivity].
  destruct (find_first_not_of r chars); reflexivity.
Qed.

Lemma trim_right_cons c r :
  trim_right (c :: r) chars
  = match trim_right r chars with
    | [] => if in_chars chars c then [] else [c]
    | t => c :: t
    end.
Proof.
  unfold trim_right. cbn [find_last_not_of].
  destruct (find_last_not_of r chars) as [i|] eqn:Hlast.
  - rewrite !Nat.add_1_r. cbn [take].
    destruct r as [|d r']; [discriminate Hlast|]. reflexivity.
  - destruct (in_chars chars c); reflexivity.
Qed.

Lemma trim_left_split sv :
  exists l, sv = l ++ trim_left sv chars /\
            Forall (fun c => in_chars chars c = true) l /\
            (forall c, head (trim_left sv chars) = Some c ->
                       in_chars chars c = false).
Proof.
  induction sv as [|c r IH].
  - exists []. repeat split; [constructor | discriminate].
  - rewrite trim_left_cons. destruct (in_chars chars c) eqn:Hc.
    + destruct IH as (l & Heq & Hall & Hhead).
      exists (c :: l). split; [cbn; f_equal; exact Heq|].
      split; [constructor; assumption | exact Hhead].
    + exists []. repeat split; [constructor|].
      intros d Hd. cbn in Hd. congruence.
Qed.

Lemma trim_right_split sv :
  exists r, sv = trim_right sv chars ++ r /\
            Forall (fun c => in_chars chars c = true) r /\
            (forall c, last (trim_right sv chars) = Some c ->
                       in_chars chars c = false).
Proof.
  induction sv as [|c t IH].
  - exists []. repeat split; [constructor | discriminate].
  - rewrite trim_right_cons. destruct IH as (r & Heq & Hall & Hlast).
    destruct (trim_right t chars) as [|d t'] eqn:Ht.
    + destruct (in_chars chars c) eqn:Hc.
      * exists (c :: r). cbn in Heq. subst t.
        repeat split; [constructor; assumption | discriminate].
      * exists r. cbn in Heq. subst t.
        repeat split; [assumption|]. intros d Hd. cbn in Hd. congruence.
    + exists r. split; [cbn; f_equal; exact Heq|].
      split; [exact Hall | exact Hlast].
Qed.

Lemma trim_right_head sv c :
  head (trim_right sv chars) = Some c -> head sv = Some c.
Proof.
  destruct sv as [|d t]; [discriminate|].
  rewrite trim_right_cons.
  destruct (trim_right t chars); [destruct (in_chars chars d)|];
    cbn; congruence.
Qed.

Lemma trim_clean_ends sv : clean_ends (trim sv chars) chars.
Proof.
  unfold trim. split.
  - intros c Hc. apply trim_right_head in Hc.
    destruct (trim_left_split sv) as (l & _ & _ & Hhead). exact (Hhead c Hc).
  - destruct (trim_right_split (trim_left sv chars)) as (r & _ & _ & Hlast).
    exact Hlast.
Qed.

Lemma trim_left_clean sv :
  (forall c, head sv = Some c -> in_chars chars c = false) ->
  trim_left sv chars = sv.
Proof.
  intros Hhead. destruct sv as [|c r]; [reflexivity|].
  rewrite trim_left_cons, (Hhead c eq_refl). reflexivity.
Qed.

Lemma trim_right_clean sv :
  (forall c, last sv = Some c -> in_chars chars c = false) ->
  trim_right sv chars = sv.
Proof.
  induction sv as [|c r IH]; intros Hlast; [reflexivity|].
  rewrite trim_right_cons. destruct r as [|d r'].
  - cbn. rewrite (Hlast c eq_refl). reflexivity.
  - rewrite IH by (intros e He; apply Hlast; exact He). reflexivity.
Qed.

Lemma trim_clean sv : clean_ends sv chars -> trim sv chars = sv.
Proof.
  intros [Hhead Hlast]. unfold trim.
  rewrite (trim_left_clean sv Hhead). apply trim_right_clean. exact Hlast.
Qed.

Lemma trim_left_all sv :
  trim_left sv chars = [] <-> Forall (fun c => in_chars chars c = true) sv.
Proof.
  induction sv as [|c r IH].
  - split; [constructor | reflexivity].
  - rewrite trim_left_cons. destruct (in_chars chars c) eqn:Hc.
    + rewrite IH. split; [intros H; constructor; assumption|].
      intros H. inversion H; assumption.
    + split; [discriminate|]. intros H. inversion H; congruence.
Qed.

(** X26 (trim takes a run of [chars] off each end): the view is the trimmed
    view with a run of characters of [chars] before it and another after
    it, and the trimmed view neither starts nor ends with a character of
    [chars]. *)
Theorem trim_decomposition (sv : string_view) :
  exists l r,
    sv = l ++ trim sv chars ++ r /\
    Forall (fun c => in_chars chars c = true) l /\
    Forall (fun c => in_chars chars c = true) r /\
    clean_ends (trim sv chars) chars.
Proof.
  destruct (trim_left_split sv) as (l & Hl & Hall_l & _).
  destruct (trim_right_split (trim_left sv chars)) as (r & Hr & Hall_r & _).
  exists l, r. split.
  - unfold trim. rewrite <- Hr. exact Hl.
  - split; [exact Hall_l|]. split; [exact Hall_r | apply trim_clean_ends].
Qed.

(** X27 (what trim leaves alone): trimming returns the view unchanged
    exactly when it neither starts nor ends with a character of [chars];
    so trimming twice is trimming once. *)
Theorem trim_identity_iff_clean_ends (sv : string_view) :
  (trim sv chars = sv <-> clean_ends sv chars) /\
  trim (trim sv chars) chars = trim sv chars.
Proof.
  split.
  - split.
    + intros Heq. rewrite <- Heq. apply trim_clean_ends.
    + apply trim_clean.
  - apply trim_clean. apply trim_clean_ends.
Qed.

(** X28 (the two ends are trimmed independently): trimming the left end
    and then the right one, as [trim] does, gives the same view as
    trimming the right end first. *)
Theorem trim_left_right_commute (sv : string_view) :
  trim_left (trim_right sv chars) chars = trim sv chars.
Proof.
  unfold trim. induction sv as [|c r IH]; [reflexivity|].
  rewrite trim_left_cons, trim_right_cons.
  destruct (in_chars chars c) eqn:Hc.
  - rewrite <- IH. destruct (trim_right r chars) as [|d t]; [reflexivity|].
    rewrite trim_left_cons, Hc. reflexivity.
  - rewrite trim_right_cons.
    destruct (trim_right r chars) as [|d t];
      rewrite trim_left_cons, Hc; reflexivity.
Qed.

(** X29 (when trim returns the empty view): the trimmed view is empty
    exactly when every character of the view is one of [chars], the empty
    view included. *)
Theorem trim_empty_iff_all_in_chars (sv : string_view) :
  trim sv chars = [] <-> Forall (fun c => in_chars chars c = true) sv.
Proof.
  rewrite <- trim_left_all. unfold trim. split.
  - intros Hnil.
    destruct (trim_right_split (trim_left sv chars)) as (r & Heq & Hall & _).
    rewrite Hnil in Heq. cbn in Heq. rewrite <- Heq in Hall.
    destruct (trim_left_split sv) as (_ & _ & _ & Hhead).
    destruct (trim_left sv chars) as [|c t]; [reflexivity|].
    inversion Hall; subst. specialize (Hhead c eq_refl). congruence.
  - intros Hnil. rewrite Hnil. reflexivity.
Qed.

End Trim.

(* ================================================================== *)
(** ** Trap conditions *)
(* ================================================================== *)

Lemma str_empty_append_r (a b : string) :
  str_empty b = false -> str_empty (a +:+ b) = false.
Proof. intros Hb. destruct a; [exact Hb | reflexivity]. Qed.

Lemma str_empty_render_trap_cmp aS aU bS bU t :
  str_empty (render_trap_cmp aS aU bS bU t) = false.
Proof.
  destruct t; cbn [render_trap_cmp]; apply str_empty_append_r; reflexivity.
Qed.

Lemma fold_trap_add (l : list string) (acc : string) :
  Forall (fun c => str_empty c = false) l ->
  str_empty acc = false ->
  fold_left trap_add l acc
  = acc +:+ match l with [] => EmptyString | _ :: _ => " || " +:+ join_or l end.
Proof.
  intros Hall. revert acc. induction Hall as [|c l Hc Hall IH]; intros acc Hacc.
  - cbn. symmetry. apply append_nil_r.
  - cbn [fold_left]. rewrite IH.
    + unfold trap_add. rewrite Hacc. cbn [negb join_or].
      destruct l as [|d l'].
      * rewrite append_nil_r, !append_assoc. reflexivity.
      * rewrite !append_assoc. reflexivity.
    + unfold trap_add. apply str_empty_append_r. exact Hc.
Qed.

Lemma trap_cond_join (to : Z) (aS aU bS bU : string) :
  trap_cond to aS aU bS bU
  = join_or (map (render_trap_cmp aS aU bS bU) (trap_terms to)).
Proof.
  transitivity (fold_left trap_add
                  (map (render_trap_cmp aS aU bS bU) (trap_terms to))
                  EmptyString).
  - unfold trap_cond, trap_terms.
    destruct (negb (Z.land to 16 =? 0)), (negb (Z.land to 8 =? 0)),
             (negb (Z.land to 4 =? 0)), (negb (Z.land to 2 =? 0)),
             (negb (Z.land to 1 =? 0)); reflexivity.
  - destruct (trap_terms to) as [|t ts]; [reflexivity|].
    cbn [map fold_left]. change (trap_add EmptyString ?c) with c.
    rewrite fold_trap_add.
    + cbn [join_or]. destruct ts; [apply append_nil_r | reflexivity].
    + apply Forall_forall. intros c Hc. apply list_elem_of_In in Hc.
      apply in_map_iff in Hc. destruct Hc as (u & <- & _).
      apply str_empty_render_trap_cmp.
    + apply str_empty_render_trap_cmp.
Qed.

(** X30 (what the trap helper emits): for a five-bit TO field the emitted
    text is nothing for 0, an unconditional [ppc_trap] for 0x1F, and
    otherwise one [if] over the comparisons the TO bits select, joined by
    [||] in the order signed less, signed greater, equal, unsigned less,
    unsigned greater. In all three cases the emitted statement traps
    exactly when a comparison selected by a TO bit holds. *)
Theorem emitTrap_condition (ctx : BuilderContext) (to : Z)
    (aS aU bS bU : string) (sa sb ua ub : Z) :
  0 <= to < 32 ->
  out (run (emitTrap to aS aU bS bU) ctx)
  = out ctx +:+ render_trap aS aU bS bU (trap_stmt to) /\
  exec_trap sa sb ua ub (trap_stmt to)
  = (Z.testbit to 4 && (sa <? sb)) || (Z.testbit to 3 && (sb <? sa))
    || (Z.testbit to 2 && (sa =? sb))
    || (Z.testbit to 1 && (ua <? ub)) || (Z.testbit to 0 && (ub <? ua)).
Proof.
  intros Hto. split.
  - unfold emitTrap, trap_stmt.
    destruct (to =? 0); [symmetry; apply append_nil_r|].
    destruct (to =? 31); [reflexivity|].
    rewrite out_println, trap_cond_join. cbn [render_trap].
    rewrite !append_assoc. reflexivity.
  - unfold exec_trap.
    assert (Htri : (sa <? sb) || (sb <? sa) || (sa =? sb) = true).
    { destruct (Z.ltb_spec sa sb), (Z.ltb_spec sb sa), (Z.eqb_spec sa sb);
        try reflexivity; lia. }
    set (ev := fun (slt sgt seq ult ugt : bool) (t : TrapCmp) =>
                 match t with
                 | SignedLt => slt | SignedGt => sgt | SignedEq => seq
                 | UnsignedLt => ult | UnsignedGt => ugt
                 end).
    change (eval_trap_cmp sa sb ua ub)
      with (ev (sa <? sb) (sb <? sa) (sa =? sb) (ua <? ub) (ub <? ua)).
    generalize dependent (sa <? sb). generalize dependent (sb <? sa).
    generalize dependent (sa =? sb).
    generalize (ua <? ub). generalize (ub <? ua).
    intros ugt ult seq sgt slt Htri.
    assert (Hn : exists n, (n < 32)%nat /\ to = Z.of_nat n)
      by (exists (Z.to_nat to); lia).
    destruct Hn as (n & Hn & ->). clear Hto.
    do 32 (destruct n as [|n];
           [vm_compute; destruct slt, sgt, seq, ult, ugt;
            first [reflexivity | discriminate Htri] |]).
    lia.
Qed.

Lemma emitTrap_condition_witness :
  out (run (emitTrap 0x14 "ctx.r3.s32" "ctx.r3.u32" "ctx.r4.s32" "ctx.r4.u32")
           (start_ctx plain_config (mkFunctionNode 0x1000 0x2000 [])
              (mkInsn "tw" [0x14; 3; 4]) 0x1010))
  = TAB +:+ "if (ctx.r3.s32 < ctx.r4.s32 || ctx.r3.s32 == ctx.r4.s32) ppc_trap(ctx, base, 0);"
    +:+ NL.
Proof.
  exact (proj1 (emitTrap_condition
                  (start_ctx plain_config (mkFunctionNode 0x1000 0x2000 [])
                     (mkInsn "tw" [0x14; 3; 4]) 0x1010)
                  0x14 "ctx.r3.s32" "ctx.r3.u32" "ctx.r4.s32" "ctx.r4.u32"
                  0 0 0 0 ltac:(lia))).
Defined.
